(** * Parallax carousel: the animation machines and their orchestration

    A shallow embedding of the carousel's state machines

      - [StageAnimationSystem]  (per-slot offsets of the fullscreen stage),
      - [ImageZoomSystem]       (zoom progress, owner of the stage system),
      - [MiniSliderSystem]      (thumbnail strip progress and stagger),
      - [CrossAnimationSystem]  (centre and side crosses),
      - [TitleAnimationSystem]  (title reveal),
      - [IndexAnimationSystem]  (index counter),
      - [ParallaxCarousel]      (scroll physics and the per-tick orchestration),

    each method being a function from the object's state to its next state.

    Numbers.  A JavaScript number is modelled as a real number: [+], [-],
    [*], [/] are the field operations, [Math.abs], [Math.max], [Math.min],
    [Math.exp], [Math.pow], [Math.floor] and [Math.PI] are [Rabs], [Rmax],
    [Rmin], [exp], [Math_pow], [Int_part] and [PI].  Rounding, infinities
    and NaN are outside the model.  Slot indices and slot counts are
    integers ([Z]); [null] is [None]. *)

From Stdlib Require Import String DecimalString.
From Stdlib Require Import Reals Lra Lia ZArith List Bool Permutation.
Import ListNotations.

Open Scope R_scope.

(* ================================================================== *)
(** * JavaScript numbers                                               *)
(* ================================================================== *)

Module JS.

(** Comparison operators, as booleans, so that [&&], [||] and [!] of the
    source are [&&], [||] and [negb] here. *)
Definition lt (x y : R) : bool := if Rlt_dec x y then true else false.
Definition gt (x y : R) : bool := lt y x.
Definition ge (x y : R) : bool := if Rle_dec y x then true else false.

(** [Math.pow(x, y)] for a base [x >= 0], as the carousel calls it:
    [Math.pow(0, y)] is [0] for a positive exponent and [1] for the
    exponent [0] (a negative exponent on the base 0 does not occur). *)
Definition Math_pow (x y : R) : R :=
  if Req_dec_T x 0 then (if Req_dec_T y 0 then 1 else 0) else Rpower x y.

(** [Math.floor]. *)
Definition Math_floor (x : R) : Z := Int_part x.

(** A nullable number used in arithmetic: [null] converts to [0]. *)
Definition numZ (o : option Z) : Z :=
  match o with Some z => z | None => 0%Z end.

Definition numR (o : option R) : R :=
  match o with Some r => r | None => 0 end.

(** [a === b] for a number [a] and a nullable number [b]. *)
Definition strictEq (a : Z) (b : option Z) : bool :=
  match b with Some z => (a =? z)%Z | None => false end.

(** [Array.prototype.forEach((x, idx) => ...)] where the callback updates
    the element in place: the new array, element by element. *)
Fixpoint forEachFrom {A : Type} (f : A -> Z -> A) (i : nat) (l : list A)
  : list A :=
  match l with
  | [] => []
  | x :: r => f x (Z.of_nat i) :: forEachFrom f (S i) r
  end.

Definition forEach {A : Type} (f : A -> Z -> A) (l : list A) : list A :=
  forEachFrom f 0 l.

(** [x <= y]. *)
Definition le (x y : R) : bool := ge y x.

(** [Math.round]: the nearest integer, a tie going up. *)
Definition Math_round (x : R) : Z := Int_part (x + 1 / 2).

End JS.

(* ================================================================== *)
(** * StageAnimationSystem                                             *)
(* ================================================================== *)

Module Stage.

(** [{ offset, targetOffset }], the value of [stage.image] and of
    [stage.mask]. *)
Record Layer : Type := mkLayer {
  offset : R;
  targetOffset : R
}.

Record StageT : Type := mkStage {
  imageIndex : Z;
  image : Layer;
  mask : Layer
}.

Record Params : Type := mkParams {
  imageSmoothing : R;
  maskSmoothing : R;
  minThreshold : R
}.

Definition params : Params :=
  {| imageSmoothing := 0.4; maskSmoothing := 0.4; minThreshold := 0.00001 |}.

Record State : Type := mkState {
  stages : list StageT;
  renderOrder : list Z;
  currentIndex : option Z;
  isTransitioning : bool;
  isJumpTransition : bool
}.

(** [Array.from({ length: n }, (_, i) => from + i)]; a negative length
    gives the empty array. *)
Definition range (from : Z) (n : Z) : list Z :=
  map (fun i => (from + Z.of_nat i)%Z) (seq 0 (Z.to_nat n)).

(** [initialize(nImages)], on the state the constructor starts from. *)
Definition initialize (nImages : Z) : State :=
  {| stages :=
       map (fun index =>
              {| imageIndex := index;
                 image := {| offset := 0; targetOffset := 0 |};
                 mask := {| offset := 0; targetOffset := 0 |} |})
           (range 0 nImages);
     renderOrder := range 0 nImages;
     currentIndex := None;
     isTransitioning := false;
     isJumpTransition := false |}.

(** The array [updateRenderOrder(currentIndex)] stores. *)
Definition computeRenderOrder (totalLength : Z) (currentIndex : Z) : list Z :=
  let beforeElements := rev (range 0 currentIndex) in
  let afterElements :=
    range (currentIndex + 1) (totalLength - currentIndex - 1) in
  currentIndex :: beforeElements ++ afterElements.

Definition updateRenderOrder (currentIndex : Z) (s : State) : State :=
  {| stages := stages s;
     renderOrder :=
       computeRenderOrder (Z.of_nat (length (stages s))) currentIndex;
     currentIndex := Stage.currentIndex s;
     isTransitioning := isTransitioning s;
     isJumpTransition := isJumpTransition s |}.

Definition initializeStage_slot (imageIndex : Z) (stage : StageT) (index : Z)
  : StageT :=
  if (index <? imageIndex)%Z then
    {| imageIndex := Stage.imageIndex stage;
       image := {| offset := -0.5; targetOffset := -0.5 |};
       mask := {| offset := -1; targetOffset := -1 |} |}
  else if (index >? imageIndex)%Z then
    {| imageIndex := Stage.imageIndex stage;
       image := {| offset := 0.5; targetOffset := 0.5 |};
       mask := {| offset := 1; targetOffset := 1 |} |}
  else
    {| imageIndex := Stage.imageIndex stage;
       image := {| offset := 0; targetOffset := 0 |};
       mask := {| offset := 0; targetOffset := 0 |} |}.

Definition initializeStage (imageIndex : Z) (s : State) : State :=
  updateRenderOrder imageIndex
    {| stages := JS.forEach (initializeStage_slot imageIndex) (stages s);
       renderOrder := renderOrder s;
       currentIndex := Some imageIndex;
       isTransitioning := false;
       isJumpTransition := isJumpTransition s |}.

(** [stage.image.targetOffset = v]. *)
Definition setTarget (v : R) (l : Layer) : Layer :=
  {| offset := offset l; targetOffset := v |}.

(** [stage.image.offset = stage.image.targetOffset]. *)
Definition snap (l : Layer) : Layer :=
  {| offset := targetOffset l; targetOffset := targetOffset l |}.

(** [newIndex > idx ? -1 : 1]. *)
Definition directionOf (newIndex idx : Z) : R :=
  if (newIndex >? idx)%Z then -1 else 1.

(** The callback of the jump branch of [transitionTo]; [cur] is
    [this.state.currentIndex], still the previous centre while the loop
    runs. *)
Definition jump_slot (cur : option Z) (newIndex : Z) (stage : StageT) (idx : Z)
  : StageT :=
  if (idx =? newIndex)%Z then
    {| imageIndex := imageIndex stage;
       image := setTarget 0 (image stage);
       mask := setTarget 0 (mask stage) |}
  else if JS.strictEq idx cur then
    let direction := directionOf newIndex (JS.numZ cur) in
    {| imageIndex := imageIndex stage;
       image := setTarget (direction * 0.5) (image stage);
       mask := setTarget direction (mask stage) |}
  else
    let direction := directionOf newIndex idx in
    {| imageIndex := imageIndex stage;
       image := snap (setTarget (direction * 0.5) (image stage));
       mask := snap (setTarget direction (mask stage)) |}.

(** The callback of the sequential branch of [transitionTo]. *)
Definition sequential_slot (newIndex : Z) (stage : StageT) (idx : Z) : StageT :=
  let direction := directionOf newIndex idx in
  if (idx =? newIndex)%Z then
    {| imageIndex := imageIndex stage;
       image := setTarget 0 (image stage);
       mask := setTarget 0 (mask stage) |}
  else
    {| imageIndex := imageIndex stage;
       image := setTarget (direction * 0.5) (image stage);
       mask := setTarget direction (mask stage) |}.

Definition transitionTo (newIndex : Z) (s : State) : State :=
  if JS.strictEq newIndex (currentIndex s) then s
  else
    let stages' :=
      if isJumpTransition s
      then JS.forEach (jump_slot (currentIndex s) newIndex) (stages s)
      else JS.forEach (sequential_slot newIndex) (stages s) in
    let s1 :=
      updateRenderOrder newIndex
        {| stages := stages';
           renderOrder := renderOrder s;
           currentIndex := Some newIndex;
           isTransitioning := true;
           isJumpTransition := isJumpTransition s |} in
    {| stages := stages s1;
       renderOrder := renderOrder s1;
       currentIndex := currentIndex s1;
       isTransitioning := isTransitioning s1;
       isJumpTransition := false |}.

(** [this.state.isJumpTransition = true]. *)
Definition raiseJumpFlag (s : State) : State :=
  {| stages := stages s;
     renderOrder := renderOrder s;
     currentIndex := currentIndex s;
     isTransitioning := isTransitioning s;
     isJumpTransition := true |}.

Definition jumpToImage (newIndex : Z) (s : State) : State :=
  if JS.strictEq newIndex (currentIndex s) then s
  else transitionTo newIndex (raiseJumpFlag s).

(** One slot of the loop of [updateAnimation]. *)
Definition closeLayer (speed : R) (l : Layer) : Layer :=
  {| offset := offset l + (targetOffset l - offset l) * speed;
     targetOffset := targetOffset l |}.

Definition update_slot (p : Params) (dt : R) (stage : StageT) : StageT :=
  {| imageIndex := imageIndex stage;
     image := closeLayer (imageSmoothing p * dt) (image stage);
     mask := closeLayer (maskSmoothing p * dt) (mask stage) |}.

(** [Math.abs(imageDelta) > minThreshold], on the offsets before the
    step. *)
Definition stillMoving (p : Params) (stage : StageT) : bool :=
  JS.gt (Rabs (targetOffset (image stage) - offset (image stage)))
        (minThreshold p).

Definition updateAnimation (p : Params) (dt : R) (s : State) : State :=
  if negb (isTransitioning s) then s
  else
    let allComplete := forallb (fun st => negb (stillMoving p st)) (stages s) in
    {| stages := map (update_slot p dt) (stages s);
       renderOrder := renderOrder s;
       currentIndex := currentIndex s;
       isTransitioning := if allComplete then false else isTransitioning s;
       isJumpTransition := isJumpTransition s |}.

(** What a slot is moving to, and where it is: image and mask. *)
Definition targetsOf (st : StageT) : R * R :=
  (targetOffset (image st), targetOffset (mask st)).

Definition offsetsOf (st : StageT) : R * R :=
  (offset (image st), offset (mask st)).

End Stage.

(* ================================================================== *)
(** * ImageZoomSystem                                                  *)
(* ================================================================== *)

Module Zoom.

Record Params : Type := mkParams {
  transitionSmoothing : R;
  isCompleteThreshold : R
}.

Definition params : Params :=
  {| transitionSmoothing := 0.13; isCompleteThreshold := 0.0000001 |}.

(** [this.state] of the zoom system. *)
Record State : Type := mkState {
  isActive : bool;
  isZoomingOut : bool;
  isZoomingIn : bool;
  imageIndex : option Z;
  progress : R
}.

(** The zoom system once [initStageSystem] has run: its own state and the
    stage system it owns. *)
Record System : Type := mkSystem {
  zoomInLocked : bool;
  zoomOutLocked : bool;
  state : State;
  stageSystem : Stage.State
}.

(** The object the constructor builds, with the stage system
    [initStageSystem(nImages)] adds. *)
Definition create (nImages : Z) : System :=
  {| zoomInLocked := false;
     zoomOutLocked := false;
     state := {| isActive := false; isZoomingOut := false;
                 isZoomingIn := false; imageIndex := None; progress := 0 |};
     stageSystem := Stage.initialize nImages |}.

Definition isActive_ (z : System) : bool := isActive (state z).

Definition isTransitioning (z : System) : bool :=
  isZoomingIn (state z) || isZoomingOut (state z).

Definition zoomIn (imageIndex : Z) (z : System) : System :=
  {| zoomInLocked := zoomInLocked z;
     zoomOutLocked := zoomOutLocked z;
     state := {| isActive := true;
                 isZoomingOut :=
                   if isZoomingOut (state z) then false
                   else isZoomingOut (state z);
                 isZoomingIn := true;
                 imageIndex := Some imageIndex;
                 progress := 0 |};
     stageSystem := Stage.initializeStage imageIndex (stageSystem z) |}.

Definition zoomOut (z : System) : System :=
  {| zoomInLocked := zoomInLocked z;
     zoomOutLocked := zoomOutLocked z;
     state := {| isActive := isActive (state z);
                 isZoomingOut := true;
                 isZoomingIn := false;
                 imageIndex := imageIndex (state z);
                 progress := progress (state z) |};
     stageSystem := stageSystem z |}.

(** [this.state.imageIndex = newIndex]. *)
Definition setImageIndex (newIndex : Z) (st : State) : State :=
  {| isActive := isActive st;
     isZoomingOut := isZoomingOut st;
     isZoomingIn := isZoomingIn st;
     imageIndex := Some newIndex;
     progress := progress st |}.

Definition transitionToImage (newIndex : Z) (z : System) : System :=
  if negb (JS.strictEq newIndex (imageIndex (state z))) then
    {| zoomInLocked := zoomInLocked z;
       zoomOutLocked := zoomOutLocked z;
       state := setImageIndex newIndex (state z);
       stageSystem := Stage.transitionTo newIndex (stageSystem z) |}
  else z.

Definition jumpToImage (newIndex : Z) (z : System) : System :=
  if negb (JS.strictEq newIndex (imageIndex (state z))) then
    {| zoomInLocked := zoomInLocked z;
       zoomOutLocked := zoomOutLocked z;
       state := setImageIndex newIndex (state z);
       stageSystem := Stage.jumpToImage newIndex (stageSystem z) |}
  else z.

(** [updateAnimation(dt)]; [dt'] is [dt] after [dt *= 0.2] or
    [dt *= 0.8]. *)
Definition updateAnimation (p : Params) (dt : R) (z : System) : System :=
  let st := state z in
  if negb (isActive st) then z
  else
    let dt' := if isZoomingIn st then dt * 0.2 else dt * 0.8 in
    let targetProgress := if isZoomingOut st then 0 else 1 in
    let progress' :=
      progress st + (targetProgress - progress st) * transitionSmoothing p * dt' in
    let stage' := Stage.updateAnimation Stage.params dt' (stageSystem z) in
    let complete :=
      isZoomingOut st && JS.lt progress' (isCompleteThreshold p) in
    {| zoomInLocked := zoomInLocked z;
       zoomOutLocked := zoomOutLocked z;
       state := {| isActive := if complete then false else isActive st;
                   isZoomingOut := if complete then false else isZoomingOut st;
                   isZoomingIn := isZoomingIn st;
                   imageIndex := imageIndex st;
                   progress := progress' |};
       stageSystem := stage' |}.

End Zoom.

(* ================================================================== *)
(** * MiniSliderSystem                                                 *)
(* ================================================================== *)

Module MiniSlider.

Inductive Mode : Type := mode_inactive | mode_toMini | mode_toSlider.

Definition Mode_eqb (a b : Mode) : bool :=
  match a, b with
  | mode_inactive, mode_inactive
  | mode_toMini, mode_toMini
  | mode_toSlider, mode_toSlider => true
  | _, _ => false
  end.

(** [this.config.motion]. *)
Record Motion : Type := mkMotion {
  progressSpeed : R;
  smoothing : R;
  staggerStrength : R
}.

Definition motion : Motion :=
  {| progressSpeed := 0.006; smoothing := 0.2; staggerStrength := 0.75 |}.

Record State : Type := mkState {
  mode : Mode;
  progress : R;
  zoomedImageIndex : option Z;
  lastProgress : option R
}.

Definition create : State :=
  {| mode := mode_inactive; progress := 0;
     zoomedImageIndex := None; lastProgress := None |}.

Definition toMini (zoomedIndex : Z) (s : State) : State :=
  {| mode := mode_toMini; progress := 0;
     zoomedImageIndex := Some zoomedIndex;
     lastProgress := lastProgress s |}.

Definition toSlider (s : State) : State :=
  if Mode_eqb (mode s) mode_inactive then s
  else
    {| mode := mode_toSlider; progress := 0;
       zoomedImageIndex := zoomedImageIndex s;
       lastProgress := lastProgress s |}.

(** [calculateStaggerDelay(index, totalImages, mode)]; the argument
    [mode] of the source is [m].  The quotients are those of the real
    numbers: the toSlider quotient has the divisor [totalImages - 1],
    which is 0 for a carousel of one image, where JavaScript yields
    [Infinity]; the definition stands for the source for
    [totalImages >= 2], and every fact about the toSlider delay assumes
    it. *)
Definition calculateStaggerDelay (c : Motion) (s : State)
           (index totalImages : Z) (m : Mode) : R :=
  if Mode_eqb m mode_toMini then
    let distance := IZR (Z.abs (index - JS.numZ (zoomedImageIndex s))) in
    Rmax 0
         (JS.Math_pow distance 1.25 / (IZR totalImages * IZR totalImages)
          * staggerStrength c)
  else
    let normalizedIndex := (IZR index + 1) / (IZR totalImages - 1) in
    normalizedIndex * 0.125.

Definition calculateImageProgress (c : Motion) (s : State)
           (index totalImages : Z) : R :=
  let toSliderDelay := calculateStaggerDelay c s index totalImages mode_toSlider in
  let toMiniModeDelay := calculateStaggerDelay c s index totalImages mode_toMini in
  if Mode_eqb (mode s) mode_toMini then
    let adjustedProgress :=
      Rmax 0 (progress s - toMiniModeDelay / (1 - toMiniModeDelay)) in
    Rmin 1 (Rmax 0 adjustedProgress)
  else if JS.lt (progress s - toSliderDelay) 0 && Mode_eqb (mode s) mode_toSlider
  then
    - Rmax 0 (JS.numR (lastProgress s)
              - toMiniModeDelay / (1 - toMiniModeDelay))
  else (progress s - toSliderDelay) / (1 - toSliderDelay).

(** [getProgress(index, totalImages)]: the value returned and the state
    left behind. *)
Definition getProgress (c : Motion) (s : State) (index totalImages : Z)
  : R * State :=
  let progress := calculateImageProgress c s index totalImages in
  (progress,
   if Mode_eqb (mode s) mode_toMini then
     {| mode := mode s; progress := MiniSlider.progress s;
        zoomedImageIndex := zoomedImageIndex s;
        lastProgress := Some (MiniSlider.progress s) |}
   else s).

Definition updateAnimation (c : Motion) (dt : R) (s : State) : State :=
  if Mode_eqb (mode s) mode_inactive then s
  else
    let progressDelta := progressSpeed c * dt in
    {| mode := mode s;
       progress := Rmax 0 (Rmin 1 (progress s + progressDelta));
       zoomedImageIndex := zoomedImageIndex s;
       lastProgress :=
         if Mode_eqb (mode s) mode_toSlider
         then Some (Rmax 0 (Rmin 1 (JS.numR (lastProgress s) + progressDelta)))
         else lastProgress s |}.

Definition isInToMiniMode (s : State) : bool := Mode_eqb (mode s) mode_toMini.

Definition isInToSliderMode (s : State) : bool := Mode_eqb (mode s) mode_toSlider.

Definition isActive (s : State) : bool := negb (Mode_eqb (mode s) mode_inactive).

Definition setInactive (s : State) : State :=
  {| mode := mode_inactive; progress := 0;
     zoomedImageIndex := zoomedImageIndex s;
     lastProgress := lastProgress s |}.

End MiniSlider.

(* ================================================================== *)
(** * CrossAnimationSystem                                             *)
(* ================================================================== *)

Module Cross.

Record Params : Type := mkParams {
  smoothing : R;
  maxLineLength : R;
  showMinThreshold : R;
  sideMargin : R;
  centerShowDelay : R;
  sidesShowDelay : R;
  delaySlowFactor : R;
  rotationSpeed : R;
  rotationSmoothing : R;
  rotationStep : R;
  rotationMinThreshold : R
}.

Definition params : Params :=
  {| smoothing := 0.15;
     maxLineLength := 11;
     showMinThreshold := 0.01;
     sideMargin := 275;
     centerShowDelay := 0.2;
     sidesShowDelay := 0.2;
     delaySlowFactor := 0.005;
     rotationSpeed := 0.3;
     rotationSmoothing := 0.075;
     rotationStep := PI / 2;
     rotationMinThreshold := 0.00001 |}.

(** [this.state.center]. *)
Record Center : Type := mkCenter {
  c_isVisible : bool;
  c_isAnimatingIn : bool;
  c_isAnimatingOut : bool;
  c_currentLength : R;
  c_showDelayRemaining : R
}.

(** [this.state.sides]. *)
Record Sides : Type := mkSides {
  isVisible : bool;
  isAnimatingIn : bool;
  isAnimatingOut : bool;
  currentLength : R;
  showDelayRemaining : R;
  currentRotation : R;
  targetRotation : R;
  isRotating : bool
}.

Record State : Type := mkState {
  center : Center;
  sides : Sides
}.

Definition create (p : Params) : State :=
  {| center := {| c_isVisible := true; c_isAnimatingIn := false;
                  c_isAnimatingOut := false;
                  c_currentLength := maxLineLength p;
                  c_showDelayRemaining := 0 |};
     sides := {| isVisible := false; isAnimatingIn := false;
                 isAnimatingOut := false; currentLength := 0;
                 showDelayRemaining := 0; currentRotation := 0;
                 targetRotation := 0; isRotating := false |} |}.

Definition rotateSideCrosses (direction : R) (s : State) : State :=
  if negb (isVisible (sides s)) then s
  else
    {| center := center s;
       sides := {| isVisible := isVisible (sides s);
                   isAnimatingIn := isAnimatingIn (sides s);
                   isAnimatingOut := isAnimatingOut (sides s);
                   currentLength := currentLength (sides s);
                   showDelayRemaining := showDelayRemaining (sides s);
                   currentRotation := currentRotation (sides s);
                   targetRotation :=
                     targetRotation (sides s) + direction * (PI / 2);
                   isRotating := true |} |}.

Definition resetRotation (s : State) : State :=
  {| center := center s;
     sides := {| isVisible := isVisible (sides s);
                 isAnimatingIn := isAnimatingIn (sides s);
                 isAnimatingOut := isAnimatingOut (sides s);
                 currentLength := currentLength (sides s);
                 showDelayRemaining := showDelayRemaining (sides s);
                 currentRotation := 0;
                 targetRotation := 0;
                 isRotating := false |} |}.

Definition showCenter (p : Params) (s : State) : State :=
  {| center := {| c_isVisible := true;
                  c_isAnimatingIn := true;
                  c_isAnimatingOut :=
                    if c_isAnimatingOut (center s) then false
                    else c_isAnimatingOut (center s);
                  c_currentLength := c_currentLength (center s);
                  c_showDelayRemaining := centerShowDelay p |};
     sides := {| isVisible := isVisible (sides s);
                 isAnimatingIn := false;
                 isAnimatingOut := true;
                 currentLength := currentLength (sides s);
                 showDelayRemaining := showDelayRemaining (sides s);
                 currentRotation := currentRotation (sides s);
                 targetRotation := targetRotation (sides s);
                 isRotating := isRotating (sides s) |} |}.

Definition hideCenter (p : Params) (s : State) : State :=
  {| center := {| c_isVisible := c_isVisible (center s);
                  c_isAnimatingIn := false;
                  c_isAnimatingOut := true;
                  c_currentLength := c_currentLength (center s);
                  c_showDelayRemaining := c_showDelayRemaining (center s) |};
     sides := {| isVisible := true;
                 isAnimatingIn := true;
                 isAnimatingOut :=
                   if isAnimatingOut (sides s) then false
                   else isAnimatingOut (sides s);
                 currentLength := currentLength (sides s);
                 showDelayRemaining := sidesShowDelay p;
                 currentRotation := currentRotation (sides s);
                 targetRotation := targetRotation (sides s);
                 isRotating := isRotating (sides s) |} |}.

(** The centre block of [updateAnimation]. *)
Definition updateCenter (p : Params) (dt : R) (c : Center) : Center :=
  if c_isVisible c then
    let targetLength := if c_isAnimatingOut c then 0 else maxLineLength p in
    let centerDelta := targetLength - c_currentLength c in
    let waiting := c_isAnimatingIn c && JS.gt (c_showDelayRemaining c) 0 in
    let delay' :=
      if waiting then c_showDelayRemaining c - delaySlowFactor p * dt
      else c_showDelayRemaining c in
    let length' :=
      if waiting then c_currentLength c
      else c_currentLength c + centerDelta * smoothing p * dt in
    if c_isAnimatingOut c && JS.lt (Rabs centerDelta) (showMinThreshold p)
    then {| c_isVisible := false; c_isAnimatingIn := c_isAnimatingIn c;
            c_isAnimatingOut := false; c_currentLength := 0;
            c_showDelayRemaining := delay' |}
    else {| c_isVisible := c_isVisible c; c_isAnimatingIn := c_isAnimatingIn c;
            c_isAnimatingOut := c_isAnimatingOut c; c_currentLength := length';
            c_showDelayRemaining := delay' |}
  else c.

(** The sides block of [updateAnimation], followed by the rotation step
    that closes it. *)
Definition updateSides (p : Params) (dt : R) (sd : Sides) : Sides :=
  let sd1 :=
    if isVisible sd then
      let targetLength := if isAnimatingOut sd then 0 else maxLineLength p in
      let sidesDelta := targetLength - currentLength sd in
      let waiting := isAnimatingIn sd && JS.gt (showDelayRemaining sd) 0 in
      let delay' :=
        if waiting then showDelayRemaining sd - delaySlowFactor p * dt
        else showDelayRemaining sd in
      let length' :=
        if waiting then currentLength sd
        else currentLength sd + sidesDelta * smoothing p * dt in
      if isAnimatingOut sd && JS.lt (Rabs sidesDelta) (showMinThreshold p)
      then {| isVisible := false; isAnimatingIn := isAnimatingIn sd;
              isAnimatingOut := false; currentLength := 0;
              showDelayRemaining := delay';
              currentRotation := currentRotation sd;
              targetRotation := targetRotation sd;
              isRotating := isRotating sd |}
      else {| isVisible := isVisible sd; isAnimatingIn := isAnimatingIn sd;
              isAnimatingOut := isAnimatingOut sd; currentLength := length';
              showDelayRemaining := delay';
              currentRotation := currentRotation sd;
              targetRotation := targetRotation sd;
              isRotating := isRotating sd |}
    else sd in
  let rotationDelta := targetRotation sd1 - currentRotation sd1 in
  {| isVisible := isVisible sd1; isAnimatingIn := isAnimatingIn sd1;
     isAnimatingOut := isAnimatingOut sd1; currentLength := currentLength sd1;
     showDelayRemaining := showDelayRemaining sd1;
     currentRotation :=
       currentRotation sd1 + rotationDelta * rotationSmoothing p * dt;
     targetRotation := targetRotation sd1;
     isRotating := isRotating sd1 |}.

Definition updateAnimation (p : Params) (dt : R) (s : State) : State :=
  {| center := updateCenter p dt (center s);
     sides := updateSides p dt (sides s) |}.

Definition isInToMiniMode (s : State) : bool :=
  c_isAnimatingOut (center s) || isAnimatingIn (sides s).

Definition isInToSliderMode (s : State) : bool :=
  c_isAnimatingIn (center s) || isAnimatingOut (sides s).

Definition isActive (s : State) : bool := true.

End Cross.

(* ================================================================== *)
(** * TitleAnimationSystem                                             *)
(* ================================================================== *)

Module Title.

Inductive PointerEvents : Type := pe_none | pe_auto.

(** The value of [style.transform] of a title link: every value the
    carousel writes is [translate3d(0, y%, 0)]. *)
Inductive Transform : Type := translate3d (yPercent : R).

(** A title link of the document ([.title a]), as far as the title
    system reads and writes it. *)
Record Element : Type := mkElement {
  transform : Transform;
  pointerEvents : PointerEvents
}.

Inductive ExitDirection : Type := top | bottom.

Record Smoothing : Type := mkSmoothing {
  show : R;
  hide : R
}.

Record Params : Type := mkParams {
  smoothing : Smoothing;
  showDelay : R
}.

Definition params : Params :=
  {| smoothing := {| show := 0.085; hide := 0.18 |}; showDelay := 0.025 |}.

Record State : Type := mkState {
  currentTitleIndex : option Z;
  isAnimatingIn : bool;
  isAnimatingOut : bool;
  currentPosition : R;
  targetPosition : R;
  exitDirection : ExitDirection;
  titleElements : list Element;
  remainigDelay : R;
  showNextIndex : option Z
}.

(** [array[i]]: [undefined] ([None]) outside the array. *)
Definition at_ {A : Type} (l : list A) (i : Z) : option A :=
  if (i <? 0)%Z then None else nth_error l (Z.to_nat i).

(** [array[i] = f(array[i])] for an element that exists. *)
Fixpoint updateNth {A : Type} (f : A -> A) (n : nat) (l : list A) : list A :=
  match l, n with
  | [], _ => []
  | x :: r, O => f x :: r
  | x :: r, S k => x :: updateNth f k r
  end.

Definition setPointerEvents (v : PointerEvents) (e : Element) : Element :=
  {| transform := transform e; pointerEvents := v |}.

Definition setTransform (t : Transform) (e : Element) : Element :=
  {| transform := t; pointerEvents := pointerEvents e |}.

Section WithDocument.

(** The document is outside the repository: [readTransform t] is the
    number that [showTitle] and [hideTitle] recover from
    [style.transform] (their regular expression looks for
    [translate3d], a first component [0px] and a signed decimal
    percentage, which [parseFloat] converts) when the transform last
    written is [t]; [None] when the expression does not match. *)
Variable readTransform : Transform -> option R.

(** The constructor followed by [initialize()], for the title links
    found in the document. *)
Definition create (links : list Element) : State :=
  {| currentTitleIndex := None;
     isAnimatingIn := false;
     isAnimatingOut := false;
     currentPosition := 100;
     targetPosition := 100;
     exitDirection := bottom;
     titleElements :=
       map (fun e => {| transform := translate3d 100;
                        pointerEvents := pe_none |}) links;
     remainigDelay := 0;
     showNextIndex := None |}.

Definition setNextTitle (index : Z) (s : State) : State :=
  {| currentTitleIndex := currentTitleIndex s;
     isAnimatingIn := isAnimatingIn s;
     isAnimatingOut := isAnimatingOut s;
     currentPosition := currentPosition s;
     targetPosition := targetPosition s;
     exitDirection := exitDirection s;
     titleElements := titleElements s;
     remainigDelay := remainigDelay s;
     showNextIndex := Some index |}.

Definition resetNextTitle (s : State) : State :=
  {| currentTitleIndex := currentTitleIndex s;
     isAnimatingIn := isAnimatingIn s;
     isAnimatingOut := isAnimatingOut s;
     currentPosition := currentPosition s;
     targetPosition := targetPosition s;
     exitDirection := exitDirection s;
     titleElements := titleElements s;
     remainigDelay := remainigDelay s;
     showNextIndex := None |}.

(** [showTitle(index, delay)] from the captured position on. *)
Definition showTitle_from (p : Params) (position : R) (index : Z)
           (delay : option R) (s : State) : State :=
  {| currentTitleIndex := Some index;
     isAnimatingIn := true;
     isAnimatingOut := false;
     currentPosition := position;
     targetPosition := 0;
     exitDirection := exitDirection s;
     titleElements :=
       match at_ (titleElements s) index with
       | Some _ =>
           updateNth (setPointerEvents pe_auto) (Z.to_nat index)
                     (titleElements s)
       | None => titleElements s
       end;
     remainigDelay :=
       match delay with Some d => d | None => showDelay p end;
     showNextIndex := showNextIndex s |}.

(** [showTitle(index, delay = null)].  [None] is the [TypeError] of
    reading [style] of a title link that does not exist. *)
Definition showTitle (p : Params) (index : Z) (delay : option R)
           (s : State) : option State :=
  match currentTitleIndex s with
  | Some cur =>
      match at_ (titleElements s) cur with
      | None => None
      | Some currentTitle =>
          let position :=
            match readTransform (transform currentTitle) with
            | Some y => y
            | None => 100
            end in
          Some (showTitle_from p position index delay s)
      end
  | None => Some (showTitle_from p 100 index delay s)
  end.

(** [hideTitle()].  [None] is the [TypeError] of reading [style] of a
    title link that does not exist. *)
Definition hideTitle (s : State) : option State :=
  match currentTitleIndex s with
  | Some cur =>
      match at_ (titleElements s) cur with
      | None => None
      | Some titleElement =>
          let position :=
            match readTransform (transform titleElement) with
            | Some y => y
            | None => 0
            end in
          let direction := if JS.lt position 33 then top else bottom in
          Some {| currentTitleIndex := currentTitleIndex s;
                  isAnimatingIn := false;
                  isAnimatingOut := true;
                  currentPosition := position;
                  targetPosition :=
                    match direction with top => -100 | bottom => 100 end;
                  exitDirection := direction;
                  titleElements :=
                    updateNth (setPointerEvents pe_none) (Z.to_nat cur)
                              (titleElements s);
                  remainigDelay := 0;
                  showNextIndex := showNextIndex s |}
      end
  | None => Some s
  end.

(** The completion block of [updateAnimation]: [isVeryNearTarget]. *)
Definition settle (s : State) : State :=
  if isAnimatingOut s then
    {| currentTitleIndex := None;
       isAnimatingIn := isAnimatingIn s;
       isAnimatingOut := false;
       currentPosition := targetPosition s;
       targetPosition := targetPosition s;
       exitDirection := exitDirection s;
       titleElements := titleElements s;
       remainigDelay := remainigDelay s;
       showNextIndex := showNextIndex s |}
  else if isAnimatingIn s then
    {| currentTitleIndex := currentTitleIndex s;
       isAnimatingIn := false;
       isAnimatingOut := isAnimatingOut s;
       currentPosition := targetPosition s;
       targetPosition := targetPosition s;
       exitDirection := exitDirection s;
       titleElements := titleElements s;
       remainigDelay := remainigDelay s;
       showNextIndex := showNextIndex s |}
  else s.

(** [this.state.currentTitleIndex = null]. *)
Definition clearCurrentTitle (s : State) : State :=
  {| currentTitleIndex := None;
     isAnimatingIn := isAnimatingIn s;
     isAnimatingOut := isAnimatingOut s;
     currentPosition := currentPosition s;
     targetPosition := targetPosition s;
     exitDirection := exitDirection s;
     titleElements := titleElements s;
     remainigDelay := remainigDelay s;
     showNextIndex := showNextIndex s |}.

(** [updateAnimation(dt)]; [None] is a [TypeError] escaping from the
    nested [showTitle]. *)
Definition updateAnimation (p : Params) (dt : R) (s : State)
  : option State :=
  match titleElements s, currentTitleIndex s with
  | [], _ => Some s
  | _, None => Some s
  | _ :: _, Some cur =>
      match at_ (titleElements s) cur with
      | None => Some s
      | Some _ =>
          if isAnimatingIn s && JS.gt (remainigDelay s) 0 then
            Some {| currentTitleIndex := currentTitleIndex s;
                    isAnimatingIn := isAnimatingIn s;
                    isAnimatingOut := isAnimatingOut s;
                    currentPosition := currentPosition s;
                    targetPosition := targetPosition s;
                    exitDirection := exitDirection s;
                    titleElements := titleElements s;
                    remainigDelay := remainigDelay s - dt / 1000;
                    showNextIndex := showNextIndex s |}
          else
            let smoothing :=
              if isAnimatingIn s then show (Title.smoothing p)
              else hide (Title.smoothing p) in
            let delta := targetPosition s - currentPosition s in
            let change := delta * smoothing * dt in
            let position := currentPosition s + change in
            let s1 :=
              {| currentTitleIndex := currentTitleIndex s;
                 isAnimatingIn := isAnimatingIn s;
                 isAnimatingOut := isAnimatingOut s;
                 currentPosition := position;
                 targetPosition := targetPosition s;
                 exitDirection := exitDirection s;
                 titleElements :=
                   updateNth (setTransform (translate3d position))
                             (Z.to_nat cur) (titleElements s);
                 remainigDelay := remainigDelay s;
                 showNextIndex := showNextIndex s |} in
            let isVeryNearTarget := JS.lt (Rabs delta) 0.01 in
            let isNearTarget := JS.lt (Rabs delta) 0.1 in
            let s2 := if isVeryNearTarget then settle s1 else s1 in
            match showNextIndex s2 with
            | Some next =>
                if isAnimatingOut s2 && isNearTarget then
                  match showTitle p next (Some 0) (clearCurrentTitle s2) with
                  | Some s3 => Some (resetNextTitle s3)
                  | None => None
                  end
                else Some s2
            | None => Some s2
            end
      end
  end.

Definition isActive (s : State) : bool :=
  isAnimatingIn s || isAnimatingOut s.

End WithDocument.

End Title.

(* ================================================================== *)
(** * IndexAnimationSystem                                             *)
(* ================================================================== *)

Module Index.

Inductive Style : Type := snap | smooth | clipped.

Record SnapConfig : Type := mkSnapConfig {
  snap_animationSpeed : R;
  snap_gap : R
}.

Record SmoothConfig : Type := mkSmoothConfig {
  smooth_animationSpeed : R;
  smooth_numberSpacing : R;
  fadeSpeed : R;
  maxAlpha : R
}.

Record ClippedConfig : Type := mkClippedConfig {
  clipped_animationSpeed : R;
  clipped_numberSpacing : R;
  visibleHeight : R
}.

Record Config : Type := mkConfig {
  height : R;
  style : Style;
  snapConfig : SnapConfig;
  smoothConfig : SmoothConfig;
  clippedConfig : ClippedConfig
}.

(** The configuration the constructor builds for [options.style]. *)
Definition config (st : Style) : Config :=
  {| height := 24;
     style := st;
     snapConfig := {| snap_animationSpeed := 0.25; snap_gap := 0 |};
     smoothConfig := {| smooth_animationSpeed := 0.005;
                        smooth_numberSpacing := 24;
                        fadeSpeed := 0.12;
                        maxAlpha := 0.99 |};
     clippedConfig := {| clipped_animationSpeed := 0.008;
                         clipped_numberSpacing := 24;
                         visibleHeight := 24 |} |}.

(** [this.config[this.config.style].animationSpeed]. *)
Definition animationSpeed (c : Config) : R :=
  match style c with
  | snap => snap_animationSpeed (snapConfig c)
  | smooth => smooth_animationSpeed (smoothConfig c)
  | clipped => clipped_animationSpeed (clippedConfig c)
  end.

(** [this.config[this.config.style].numberSpacing]; it is read only under
    a style other than [snap], whose settings have no such field. *)
Definition numberSpacing (c : Config) : R :=
  match style c with
  | snap => 0
  | smooth => smooth_numberSpacing (smoothConfig c)
  | clipped => clipped_numberSpacing (clippedConfig c)
  end.

Definition isSnap (c : Config) : bool :=
  match style c with snap => true | _ => false end.

Definition isSmooth (c : Config) : bool :=
  match style c with smooth => true | _ => false end.

Record State : Type := mkState {
  currentIndex : Z;
  targetIndex : Z;
  snapOffset : R;
  snapProgress : R;
  offset : R;
  transitionProgress : R;
  opacity : R;
  lastDirection : R;
  isTransitioning : bool
}.

Definition create : State :=
  {| currentIndex := 0; targetIndex := 0;
     snapOffset := 0; snapProgress := 1;
     offset := 0; transitionProgress := 1; opacity := 1;
     lastDirection := 0; isTransitioning := false |}.

Definition easeOutCubic (x : R) : R := 1 - (1 - x) ^ 3.

(** [newTargetIndex > this.state.targetIndex ? 1 : -1]. *)
Definition directionTo (newTargetIndex : Z) (s : State) : R :=
  if (newTargetIndex >? targetIndex s)%Z then 1 else -1.

Definition updateSnapAnimation (c : Config) (newTargetIndex : Z) (s : State)
  : State :=
  let direction := directionTo newTargetIndex s in
  {| currentIndex := targetIndex s;
     targetIndex := targetIndex s;
     snapOffset := height c * direction;
     snapProgress := 0;
     offset := offset s;
     transitionProgress := transitionProgress s;
     opacity := opacity s;
     lastDirection := lastDirection s;
     isTransitioning := isTransitioning s |}.

Definition updateSnapProgress (c : Config) (s : State) : State :=
  if JS.lt (snapProgress s) 1 then
    let progress' :=
      Rmin 1 (snapProgress s + snap_animationSpeed (snapConfig c)) in
    let easeOutQuad := 1 - (1 - progress') ^ 2 in
    {| currentIndex := currentIndex s;
       targetIndex := targetIndex s;
       snapOffset := snapOffset s * (1 - easeOutQuad);
       snapProgress := progress';
       offset := offset s;
       transitionProgress := transitionProgress s;
       opacity := opacity s;
       lastDirection := lastDirection s;
       isTransitioning := isTransitioning s |}
  else s.

Definition updateSmoothOrClippedAnimation (c : Config) (newTargetIndex : Z)
           (s : State) : State :=
  let direction := directionTo newTargetIndex s in
  {| currentIndex := targetIndex s;
     targetIndex := targetIndex s;
     snapOffset := snapOffset s;
     snapProgress := snapProgress s;
     offset := numberSpacing c * direction;
     transitionProgress := 0;
     opacity := if isSmooth c then 0 else opacity s;
     lastDirection := direction;
     isTransitioning := true |}.

Definition updateSmoothOrClippedProgress (c : Config) (s : State) : State :=
  if negb (isTransitioning s) then s
  else if JS.lt (transitionProgress s) 1 then
    let progress' := Rmin 1 (transitionProgress s + animationSpeed c) in
    let progress := easeOutCubic progress' in
    {| currentIndex := currentIndex s;
       targetIndex := targetIndex s;
       snapOffset := snapOffset s;
       snapProgress := snapProgress s;
       offset := offset s * (1 - progress);
       transitionProgress := progress';
       opacity :=
         if isSmooth c then
           let fadePoint := fadeSpeed (smoothConfig c) in
           if JS.lt progress' fadePoint then progress' / fadePoint else 1
         else opacity s;
       lastDirection := lastDirection s;
       isTransitioning := isTransitioning s |}
  else
    {| currentIndex := currentIndex s;
       targetIndex := targetIndex s;
       snapOffset := snapOffset s;
       snapProgress := snapProgress s;
       offset := 0;
       transitionProgress := transitionProgress s;
       opacity := if isSmooth c then 1 else opacity s;
       lastDirection := lastDirection s;
       isTransitioning := false |}.

(** The slot index [updateIndex] derives from the scroll position. *)
Definition newTargetIndex (scrollPosition containerWidth containerGap : R)
  : Z :=
  let transitionWidth := containerWidth + containerGap in
  let halfGap := containerGap / 2 in
  let firstTransitionPoint := containerWidth / 2 + halfGap in
  if JS.ge scrollPosition firstTransitionPoint then
    let distanceAfterFirst := scrollPosition - firstTransitionPoint in
    (1 + JS.Math_floor (distanceAfterFirst / transitionWidth))%Z
  else 0%Z.

(** [this.state.targetIndex = newTargetIndex]. *)
Definition setTargetIndex (i : Z) (s : State) : State :=
  {| currentIndex := currentIndex s;
     targetIndex := i;
     snapOffset := snapOffset s;
     snapProgress := snapProgress s;
     offset := offset s;
     transitionProgress := transitionProgress s;
     opacity := opacity s;
     lastDirection := lastDirection s;
     isTransitioning := isTransitioning s |}.

(** The first half of [updateIndex]: the reaction to a change of the
    target. *)
Definition retarget (c : Config) (new : Z) (s : State) : State :=
  if negb (new =? targetIndex s)%Z then
    setTargetIndex new
      (if isSnap c then updateSnapAnimation c new s
       else updateSmoothOrClippedAnimation c new s)
  else s.

(** The second half of [updateIndex]: the running animation. *)
Definition advance (c : Config) (s : State) : State :=
  if isSnap c then updateSnapProgress c s
  else updateSmoothOrClippedProgress c s.

Definition updateIndex (c : Config)
           (scrollPosition containerWidth containerGap : R) (s : State)
  : State :=
  advance c
    (retarget c (newTargetIndex scrollPosition containerWidth containerGap) s).

End Index.

(* ================================================================== *)
(** * ParallaxCarousel                                                 *)
(* ================================================================== *)

Module Carousel.

Record Features : Type := mkFeatures {
  showIndex : bool;
  showTitles : bool;
  enableZoom : bool;
  enableKeyboard : bool;
  enableWheel : bool;
  enableDrag : bool
}.

Record Animations : Type := mkAnimations {
  timingNormalizer : R;
  minFrameRate : R;
  offScreenBuffer : R;
  dragSensitivity : R;
  wheelSensitivity : R;
  keyboardSensitivity : R;
  minScrollThreshold : R;
  minDragThreshold : R;
  baseDamping : R;
  edgeDamping : R;
  edgeZone : R;
  maxVelocity : R;
  minVelocity : R;
  positionSmoothing : R;
  parallaxStrength : R;
  parallaxSmoothing : R
}.

Record ScaledDimensions : Type := mkScaledDimensions {
  maskWidth : R;
  maskHeight : R;
  maskGap : R;
  imageZoom : R
}.

Record Config : Type := mkConfig {
  features : Features;
  animations : Animations;
  scaledDimensions : ScaledDimensions
}.

(** [defaultConfig.features] and [defaultConfig.animations]. *)
Definition defaultFeatures : Features :=
  {| showIndex := true; showTitles := true; enableZoom := true;
     enableKeyboard := true; enableWheel := true; enableDrag := true |}.

Definition defaultAnimations : Animations :=
  {| timingNormalizer := 16;
     minFrameRate := 32;
     offScreenBuffer := 100;
     dragSensitivity := 1;
     wheelSensitivity := 0.65;
     keyboardSensitivity := 50;
     minScrollThreshold := 0.0005;
     minDragThreshold := 20;
     baseDamping := 0.8;
     edgeDamping := 0.7;
     edgeZone := 0.5;
     maxVelocity := 400;
     minVelocity := 0.001;
     positionSmoothing := 0.075;
     parallaxStrength := 0.6;
     parallaxSmoothing := 0.9 |}.

(** [defaultConfig.dimensions] at scale 1. *)
Definition defaultDimensions : ScaledDimensions :=
  {| maskWidth := 378; maskHeight := 540; maskGap := 30; imageZoom := 1.25 |}.

Definition defaultConfig : Config :=
  {| features := defaultFeatures;
     animations := defaultAnimations;
     scaledDimensions := defaultDimensions |}.

(** [this.state], without the rectangles kept for rendering. *)
Record State : Type := mkState {
  currentPosition : R;
  smoothPosition : R;
  velocity : R;
  isPointerDown : bool;
  isDragging : bool;
  lastPointerX : R;
  minScroll : R;
  maxScroll : R;
  targetPosition : option R;
  isInitialized : bool;
  isDestroyed : bool
}.

Definition initialState : State :=
  {| currentPosition := 0; smoothPosition := 0; velocity := 0;
     isPointerDown := false; isDragging := false; lastPointerX := 0;
     minScroll := 0; maxScroll := 0; targetPosition := None;
     isInitialized := false; isDestroyed := false |}.

(** A loaded image. *)
Record Image : Type := mkImage {
  width : R;
  height : R;
  aspectRatio : R
}.

(** The carousel: configuration, scroll state, loaded images, the five
    animation systems and the console it warns on. *)
Record T : Type := mkT {
  config : Config;
  state : State;
  images : list Image;
  indexConfig : Index.Config;
  indexAnimation : Index.State;
  zoomSystem : Zoom.System;
  miniSliderSystem : MiniSlider.State;
  crossAnimation : Cross.State;
  titleAnimation : option Title.State;
  console : list String.string
}.

(** [this.images.length]. *)
Definition imagesLength (c : T) : Z := Z.of_nat (length (images c)).

(** ** Assignments to the fields of [this.state] *)

Definition setCurrentPosition (v : R) (s : State) : State :=
  {| currentPosition := v; smoothPosition := smoothPosition s;
     velocity := velocity s; isPointerDown := isPointerDown s;
     isDragging := isDragging s; lastPointerX := lastPointerX s;
     minScroll := minScroll s; maxScroll := maxScroll s;
     targetPosition := targetPosition s;
     isInitialized := isInitialized s; isDestroyed := isDestroyed s |}.

Definition setSmoothPosition (v : R) (s : State) : State :=
  {| currentPosition := currentPosition s; smoothPosition := v;
     velocity := velocity s; isPointerDown := isPointerDown s;
     isDragging := isDragging s; lastPointerX := lastPointerX s;
     minScroll := minScroll s; maxScroll := maxScroll s;
     targetPosition := targetPosition s;
     isInitialized := isInitialized s; isDestroyed := isDestroyed s |}.

Definition setVelocity (v : R) (s : State) : State :=
  {| currentPosition := currentPosition s;
     smoothPosition := smoothPosition s;
     velocity := v; isPointerDown := isPointerDown s;
     isDragging := isDragging s; lastPointerX := lastPointerX s;
     minScroll := minScroll s; maxScroll := maxScroll s;
     targetPosition := targetPosition s;
     isInitialized := isInitialized s; isDestroyed := isDestroyed s |}.

Definition setTargetPosition (v : option R) (s : State) : State :=
  {| currentPosition := currentPosition s;
     smoothPosition := smoothPosition s;
     velocity := velocity s; isPointerDown := isPointerDown s;
     isDragging := isDragging s; lastPointerX := lastPointerX s;
     minScroll := minScroll s; maxScroll := maxScroll s;
     targetPosition := v;
     isInitialized := isInitialized s; isDestroyed := isDestroyed s |}.

Definition setScrollBounds (lo hi : R) (s : State) : State :=
  {| currentPosition := currentPosition s;
     smoothPosition := smoothPosition s;
     velocity := velocity s; isPointerDown := isPointerDown s;
     isDragging := isDragging s; lastPointerX := lastPointerX s;
     minScroll := lo; maxScroll := hi;
     targetPosition := targetPosition s;
     isInitialized := isInitialized s; isDestroyed := isDestroyed s |}.

(** ** Assignments to the fields of the carousel *)

Definition withState (s : State) (c : T) : T :=
  {| config := config c; state := s; images := images c;
     indexConfig := indexConfig c; indexAnimation := indexAnimation c;
     zoomSystem := zoomSystem c; miniSliderSystem := miniSliderSystem c;
     crossAnimation := crossAnimation c; titleAnimation := titleAnimation c;
     console := console c |}.

Definition withIndexAnimation (i : Index.State) (c : T) : T :=
  {| config := config c; state := state c; images := images c;
     indexConfig := indexConfig c; indexAnimation := i;
     zoomSystem := zoomSystem c; miniSliderSystem := miniSliderSystem c;
     crossAnimation := crossAnimation c; titleAnimation := titleAnimation c;
     console := console c |}.

Definition withZoomSystem (z : Zoom.System) (c : T) : T :=
  {| config := config c; state := state c; images := images c;
     indexConfig := indexConfig c; indexAnimation := indexAnimation c;
     zoomSystem := z; miniSliderSystem := miniSliderSystem c;
     crossAnimation := crossAnimation c; titleAnimation := titleAnimation c;
     console := console c |}.

Definition withMiniSliderSystem (m : MiniSlider.State) (c : T) : T :=
  {| config := config c; state := state c; images := images c;
     indexConfig := indexConfig c; indexAnimation := indexAnimation c;
     zoomSystem := zoomSystem c; miniSliderSystem := m;
     crossAnimation := crossAnimation c; titleAnimation := titleAnimation c;
     console := console c |}.

Definition withCrossAnimation (x : Cross.State) (c : T) : T :=
  {| config := config c; state := state c; images := images c;
     indexConfig := indexConfig c; indexAnimation := indexAnimation c;
     zoomSystem := zoomSystem c; miniSliderSystem := miniSliderSystem c;
     crossAnimation := x; titleAnimation := titleAnimation c;
     console := console c |}.

Definition withTitleAnimation (t : option Title.State) (c : T) : T :=
  {| config := config c; state := state c; images := images c;
     indexConfig := indexConfig c; indexAnimation := indexAnimation c;
     zoomSystem := zoomSystem c; miniSliderSystem := miniSliderSystem c;
     crossAnimation := crossAnimation c; titleAnimation := t;
     console := console c |}.

(** [console.warn(message)]. *)
Definition warn (message : String.string) (c : T) : T :=
  {| config := config c; state := state c; images := images c;
     indexConfig := indexConfig c; indexAnimation := indexAnimation c;
     zoomSystem := zoomSystem c; miniSliderSystem := miniSliderSystem c;
     crossAnimation := crossAnimation c; titleAnimation := titleAnimation c;
     console := console c ++ [message] |}.

(** ** Helper methods *)

Definition lerp (start end_ factor : R) : R :=
  start + (end_ - start) * factor.

Definition expDecay (start end_ decay progress : R) : R :=
  start + (end_ - start) * (1 - exp (- decay * progress)).

Definition addVelocity (a : Animations) (amount : R) (s : State) : State :=
  setVelocity
    (Rmax (- maxVelocity a) (Rmin (maxVelocity a) (velocity s + amount))) s.

(** [calculateBoundaries()], for [nImages = this.images.length]. *)
Definition calculateBoundaries (d : ScaledDimensions) (nImages : Z)
           (s : State) : State :=
  let totalWidth := (IZR nImages - 1) * (maskWidth d + maskGap d) in
  let s1 := setScrollBounds 0 totalWidth s in
  let s2 :=
    setCurrentPosition
      (Rmax (minScroll s1) (Rmin (maxScroll s1) (currentPosition s1))) s1 in
  setSmoothPosition (currentPosition s2) s2.

(** [updateTargetPosition(imageIndex)], with [innerWidth] the value of
    [window.innerWidth]. *)
Definition updateTargetPosition (d : ScaledDimensions) (innerWidth : R)
           (imageIndex : Z) (s : State) : State :=
  let viewportCenter := innerWidth / 2 in
  let maskX :=
    viewportCenter - maskWidth d / 2
    + IZR imageIndex * (maskWidth d + maskGap d)
    - smoothPosition s in
  let centeredX := viewportCenter - maskWidth d / 2 in
  let moveDistance := maskX - centeredX in
  setTargetPosition (Some (currentPosition s + moveDistance)) s.

(** ** Scroll physics *)

(** The target block of [updateSliderMotion]. *)
Definition seekTarget (a : Animations) (s : State) : State :=
  match targetPosition s with
  | Some target =>
      let distanceToTarget := target - currentPosition s in
      if JS.lt (Rabs distanceToTarget) 0.1 then
        setVelocity 0 (setTargetPosition None (setCurrentPosition target s))
      else
        setVelocity (positionSmoothing a * distanceToTarget) s
  | None => s
  end.

(** The damping factor [updateSliderMotion] chooses, from the distances
    measured on entry and the velocity after the target block. *)
Definition dampingFor (a : Animations)
           (distanceToMin distanceToMax edgeZone velocity : R) : R :=
  if (JS.lt distanceToMin edgeZone && JS.lt velocity 0)
     || (JS.lt distanceToMax edgeZone && JS.gt velocity 0)
  then
    let edgeDistance :=
      if JS.lt velocity 0 then distanceToMin else distanceToMax in
    let edgeFactor := Rmax 0 (edgeDistance / edgeZone) in
    expDecay (edgeDamping a) (baseDamping a) 1 edgeFactor
  else baseDamping a.

(** The integration block of [updateSliderMotion], with its clamp. *)
Definition integrate (a : Animations) (dt : R) (s : State) : State :=
  if JS.gt (Rabs (velocity s)) (minVelocity a)
     || match targetPosition s with Some _ => true | None => false end
  then
    let newPosition := currentPosition s + velocity s * dt in
    if JS.lt newPosition (minScroll s) then
      setCurrentPosition (minScroll s)
        (setTargetPosition None (setVelocity 0 s))
    else if JS.gt newPosition (maxScroll s) then
      setCurrentPosition (maxScroll s)
        (setTargetPosition None (setVelocity 0 s))
    else setCurrentPosition newPosition s
  else s.

Definition updateSliderMotion (a : Animations) (dt : R) (s : State) : State :=
  let distanceToMin := currentPosition s - minScroll s in
  let distanceToMax := maxScroll s - currentPosition s in
  let range := maxScroll s - minScroll s in
  let edgeZone := range * Carousel.edgeZone a in
  let s1 := seekTarget a s in
  let damping :=
    dampingFor a distanceToMin distanceToMax edgeZone (velocity s1) in
  let s2 := setVelocity (velocity s1 * JS.Math_pow damping dt) s1 in
  let s3 := integrate a dt s2 in
  setSmoothPosition
    (expDecay (smoothPosition s3) (currentPosition s3)
              (positionSmoothing a) dt)
    s3.

Section WithEnvironment.

(** What the title system reads back from the document, and
    [window.innerWidth]. *)
Variable readTransform : Title.Transform -> option R.
Variable innerWidth : R.

(** ** The tick *)

(** The zoom and mini-slider block of [updateMotion]. *)
Definition updateZoomAndMiniSlider (dt : R) (c : T) : T :=
  if Zoom.isActive (Zoom.state (zoomSystem c)) then
    withMiniSliderSystem
      (MiniSlider.updateAnimation MiniSlider.motion dt (miniSliderSystem c))
      (withZoomSystem
         (Zoom.updateAnimation Zoom.params dt (zoomSystem c)) c)
  else if MiniSlider.isActive (miniSliderSystem c) then
    withMiniSliderSystem (MiniSlider.setInactive (miniSliderSystem c)) c
  else c.

(** The block of [updateMotion] that derives the crosses from the
    mini-slider mode. *)
Definition syncCrosses (c : T) : T :=
  if MiniSlider.isInToMiniMode (miniSliderSystem c)
     && negb (Cross.isInToMiniMode (crossAnimation c))
  then withCrossAnimation (Cross.hideCenter Cross.params (crossAnimation c)) c
  else if MiniSlider.isInToSliderMode (miniSliderSystem c)
          && negb (Cross.isInToSliderMode (crossAnimation c))
  then withCrossAnimation (Cross.showCenter Cross.params (crossAnimation c)) c
  else c.

(** [updateMotion(deltaTime)]; [None] is a [TypeError] escaping from
    the title system. *)
Definition updateMotion (deltaTime : R) (c : T) : option T :=
  let dt := deltaTime / timingNormalizer (animations (config c)) in
  let c1 := updateZoomAndMiniSlider dt c in
  let c2 := syncCrosses c1 in
  let c3 :=
    withCrossAnimation
      (Cross.updateAnimation Cross.params dt (crossAnimation c2)) c2 in
  let titled :=
    match titleAnimation c3 with
    | Some t =>
        if showTitles (features (config c3)) then
          match Title.updateAnimation readTransform Title.params dt t with
          | Some t' => Some (withTitleAnimation (Some t') c3)
          | None => None
          end
        else Some c3
    | None => Some c3
    end in
  match titled with
  | Some c4 =>
      Some (withState
              (updateSliderMotion (animations (config c4)) dt (state c4))
              c4)
  | None => None
  end.

(** The index block that closes [render()]. *)
Definition renderIndex (c : T) : T :=
  if (imagesLength c =? 0)%Z then c
  else if showIndex (features (config c)) then
    withIndexAnimation
      (Index.updateIndex (indexConfig c)
         (smoothPosition (state c))
         (maskWidth (scaledDimensions (config c)))
         (maskGap (scaledDimensions (config c)))
         (indexAnimation c))
      c
  else c.

(** ** Public API *)

(** The text of [`ParallaxCarousel: Invalid image index ${index}`]. *)
Definition invalidIndexMessage (index : Z) : String.string :=
  String.append "ParallaxCarousel: Invalid image index "%string
                (DecimalString.NilZero.string_of_int (Z.to_int index)).

Definition goToImage (index : Z) (c : T) : T :=
  if (index <? 0)%Z || (index >=? imagesLength c)%Z then
    warn (invalidIndexMessage index) c
  else
    let c1 :=
      withState
        (updateTargetPosition (scaledDimensions (config c)) innerWidth
                              index (state c))
        c in
    if Zoom.isActive_ (zoomSystem c1) then
      withZoomSystem (Zoom.transitionToImage index (zoomSystem c1)) c1
    else c1.

(** ** Ticks and navigations, in sequence *)

(** The physics tick alone: [updateSliderMotion(dt)] on the carousel. *)
Definition physicsTick (dt : R) (c : T) : T :=
  withState (updateSliderMotion (animations (config c)) dt (state c)) c.

(** What moves the scroll position: a physics tick, a call of
    [goToImage], a call of [updateTargetPosition]. *)
Inductive Event : Type :=
| Tick (dt : R)
| GoToImage (index : Z)
| UpdateTargetPosition (imageIndex : Z).

Definition step (c : T) (e : Event) : T :=
  match e with
  | Tick dt => physicsTick dt c
  | GoToImage index => goToImage index c
  | UpdateTargetPosition imageIndex =>
      withState
        (updateTargetPosition (scaledDimensions (config c)) innerWidth
                              imageIndex (state c))
        c
  end.

Definition run (events : list Event) (c : T) : T :=
  fold_left step events c.

End WithEnvironment.

(** The carousel [init()] leaves behind, for the images that loaded and
    the title links of the document: [initializeSystems()],
    [loadImages()] and [calculateBoundaries()]. *)
Definition init (cfg : Config) (loaded : list Image)
           (links : list Title.Element) : T :=
  let n := Z.of_nat (length loaded) in
  let s := calculateBoundaries (scaledDimensions cfg) n initialState in
  {| config := cfg;
     state :=
       {| currentPosition := currentPosition s;
          smoothPosition := smoothPosition s;
          velocity := velocity s; isPointerDown := isPointerDown s;
          isDragging := isDragging s; lastPointerX := lastPointerX s;
          minScroll := minScroll s; maxScroll := maxScroll s;
          targetPosition := targetPosition s;
          isInitialized := true; isDestroyed := isDestroyed s |};
     images := loaded;
     indexConfig := Index.config Index.clipped;
     indexAnimation := Index.create;
     zoomSystem := Zoom.create n;
     miniSliderSystem := MiniSlider.create;
     crossAnimation := Cross.showCenter Cross.params (Cross.create Cross.params);
     titleAnimation :=
       if showTitles (features cfg) then Some (Title.create links) else None;
     console := [] |}.

End Carousel.

(* ================================================================== *)
(** * ParallaxCarousel: rectangles, hit testing and the frame clock    *)
(* ================================================================== *)

Module Layout.

(** [{ x, y, width, height }]. *)
Record Rect : Type := mkRect {
  x : R;
  y : R;
  width : R;
  height : R
}.

(** [window.innerWidth] and [window.innerHeight]. *)
Record Window : Type := mkWindow {
  innerWidth : R;
  innerHeight : R
}.

Definition isPointInRect (px py : R) (rect : Rect) : bool :=
  JS.ge px (x rect) && JS.le px (x rect + width rect)
  && JS.ge py (y rect) && JS.le py (y rect + height rect).

Definition checkScroll (a : Carousel.Animations) (delta : R) : bool :=
  JS.gt (Rabs delta) (Carousel.minScrollThreshold a).

Definition checkDrag (a : Carousel.Animations) (delta : R) : bool :=
  JS.gt (Rabs delta) (Carousel.minDragThreshold a).

(** [getMaskRect(index)], for the smoothed position [smoothPosition]. *)
Definition getMaskRect (d : Carousel.ScaledDimensions) (win : Window)
           (smoothPosition : R) (index : Z) : Rect :=
  let centerX := innerWidth win / 2 in
  let centerY := innerHeight win / 2 in
  let maskX :=
    centerX - Carousel.maskWidth d / 2
    + IZR index * (Carousel.maskWidth d + Carousel.maskGap d)
    - smoothPosition in
  {| x := maskX;
     y := centerY - Carousel.maskHeight d / 2;
     width := Carousel.maskWidth d;
     height := Carousel.maskHeight d |}.

(** The test [getImageIndexAtPoint] makes for slot [i]. *)
Definition pointInSlot (d : Carousel.ScaledDimensions) (win : Window)
           (smoothPosition : R) (px py : R) (i : Z) : bool :=
  let centerY := innerHeight win / 2 in
  let centerX := innerWidth win / 2 in
  let maskX :=
    centerX - Carousel.maskWidth d / 2
    + IZR i * (Carousel.maskWidth d + Carousel.maskGap d)
    - smoothPosition in
  JS.ge px maskX
  && JS.le px (maskX + Carousel.maskWidth d)
  && JS.ge py (centerY - Carousel.maskHeight d / 2)
  && JS.le py (centerY + Carousel.maskHeight d / 2).

(** [getImageIndexAtPoint(x, y)], for [nImages = this.images.length]: the
    first slot, from 0 upwards, whose mask holds the point, [-1] when
    there is none. *)
Definition getImageIndexAtPoint (d : Carousel.ScaledDimensions) (win : Window)
           (smoothPosition : R) (nImages : nat) (px py : R) : Z :=
  match find (pointInSlot d win smoothPosition px py)
             (map Z.of_nat (seq 0 nImages)) with
  | Some i => i
  | None => (-1)%Z
  end.



(** [interpolateRects(current, target, progress, decay)]. *)
Definition interpolateRects (current target : Rect) (progress decay : R)
  : Rect :=
  {| x := Carousel.expDecay (x current) (x target) decay progress;
     y := Carousel.expDecay (y current) (y target) decay progress;
     width := Carousel.expDecay (width current) (width target) decay progress;
     height :=
       Carousel.expDecay (height current) (height target) decay progress |}.

(** [getCurrentIndex()]: the focused slot of an active zoom, else the
    slot nearest to the smoothed position. *)
Definition getCurrentIndex (c : Carousel.T) : option Z :=
  if Zoom.isActive_ (Carousel.zoomSystem c) then
    Zoom.imageIndex (Zoom.state (Carousel.zoomSystem c))
  else
    let position := Carousel.smoothPosition (Carousel.state c) in
    let imageWidth :=
      Carousel.maskWidth (Carousel.scaledDimensions (Carousel.config c))
      + Carousel.maskGap (Carousel.scaledDimensions (Carousel.config c)) in
    Some (JS.Math_round (position / imageWidth)).

(** The elapsed time [animate] hands to [updateMotion]:
    [Math.min(timestamp - lastTimestamp, minFrameRate)]. *)
Definition frameDelta (a : Carousel.Animations) (timestamp lastTimestamp : R)
  : R :=
  Rmin (timestamp - lastTimestamp) (Carousel.minFrameRate a).

End Layout.

(* ================================================================== *)
(** * ParallaxCarousel: keyboard, wheel and pointer handlers           *)
(* ================================================================== *)

Module Input.

Import Carousel.

(** [config.callbacks]: which callbacks the application has set.  A
    callback is taken to return without calling back into the carousel;
    what the carousel does with it is recorded as a [Call]. *)
Record Callbacks : Type := mkCallbacks {
  onImageClick : bool;
  onZoomIn : bool;
  onZoomOut : bool;
  onSlide : bool;
  onInit : bool;
  onDestroy : bool
}.

(** A call of a callback, with its arguments. *)
Inductive Call : Type :=
| call_onSlide (fromIndex : option Z) (toIndex : Z)
| call_onZoomOut (index : option Z).

(** [e.key] of a key press. *)
Inductive Key : Type :=
| ArrowDown | Down | ArrowLeft | Left
| ArrowUp | Up | ArrowRight | Right
| OtherKey.

(** Assignments to the pointer fields of [this.state]. *)
Definition setIsPointerDown (v : bool) (s : State) : State :=
  {| currentPosition := currentPosition s;
     smoothPosition := smoothPosition s;
     velocity := velocity s; isPointerDown := v;
     isDragging := isDragging s; lastPointerX := lastPointerX s;
     minScroll := minScroll s; maxScroll := maxScroll s;
     targetPosition := targetPosition s;
     isInitialized := isInitialized s; isDestroyed := isDestroyed s |}.

Definition setIsDragging (v : bool) (s : State) : State :=
  {| currentPosition := currentPosition s;
     smoothPosition := smoothPosition s;
     velocity := velocity s; isPointerDown := isPointerDown s;
     isDragging := v; lastPointerX := lastPointerX s;
     minScroll := minScroll s; maxScroll := maxScroll s;
     targetPosition := targetPosition s;
     isInitialized := isInitialized s; isDestroyed := isDestroyed s |}.

Definition setLastPointerX (v : R) (s : State) : State :=
  {| currentPosition := currentPosition s;
     smoothPosition := smoothPosition s;
     velocity := velocity s; isPointerDown := isPointerDown s;
     isDragging := isDragging s; lastPointerX := v;
     minScroll := minScroll s; maxScroll := maxScroll s;
     targetPosition := targetPosition s;
     isInitialized := isInitialized s; isDestroyed := isDestroyed s |}.

(** [if (this.config.features.showTitles && this.titleAnimation)
    this.titleAnimation.f()], for a method [f] that cannot throw. *)
Definition onTitle (f : Title.State -> Title.State) (c : T) : T :=
  match titleAnimation c with
  | Some t =>
      if showTitles (features (config c))
      then withTitleAnimation (Some (f t)) c
      else c
  | None => c
  end.

(** The same for a method that can throw; [None] is its [TypeError]. *)
Definition tryOnTitle (f : Title.State -> option Title.State) (c : T)
  : option T :=
  match titleAnimation c with
  | Some t =>
      if showTitles (features (config c)) then
        match f t with
        | Some t' => Some (withTitleAnimation (Some t') c)
        | None => None
        end
      else Some c
  | None => Some c
  end.

(** The title link that is showing, if any, is in the document: the
    condition under which [hideTitle()] finds the [style] it reads. *)
Definition titleLinkExists (c : T) : Prop :=
  forall (t : Title.State) (cur : Z),
    titleAnimation c = Some t ->
    Title.currentTitleIndex t = Some cur ->
    Title.at_ (Title.titleElements t) cur <> None.

Section WithEnvironment.

Variable readTransform : Title.Transform -> option R.
Variable innerWidth : R.
Variable callbacks : Callbacks.

(** The body [slideRight] and [slideLeft] share behind their guards;
    [direction] is the argument they give [rotateSideCrosses]. *)
Definition slide (direction : R) (newIndex : Z) (c : T)
  : option (T * list Call) :=
  match tryOnTitle (Title.hideTitle readTransform) c with
  | None => None
  | Some c1 =>
      let c2 :=
        withZoomSystem (Zoom.transitionToImage newIndex (zoomSystem c1)) c1 in
      let c3 :=
        withState
          (updateTargetPosition (scaledDimensions (config c2)) innerWidth
                                newIndex (state c2))
          c2 in
      let c4 := onTitle (Title.setNextTitle newIndex) c3 in
      let c5 :=
        withCrossAnimation
          (Cross.rotateSideCrosses direction (crossAnimation c4)) c4 in
      Some (c5,
            if onSlide callbacks
            then [call_onSlide (Zoom.imageIndex (Zoom.state (zoomSystem c5)))
                               newIndex]
            else [])
  end.

Definition slideRight (newIndex : Z) (c : T) : option (T * list Call) :=
  if (newIndex <? imagesLength c)%Z then slide 1 newIndex c
  else Some (c, []).

Definition slideLeft (newIndex : Z) (c : T) : option (T * list Call) :=
  if (newIndex >=? 0)%Z then slide (-1) newIndex c
  else Some (c, []).

(** [handleKeyDown(e)], for [key = e.key]. *)
Definition handleKeyDown (key : Key) (c : T) : option (T * list Call) :=
  match key with
  | ArrowDown | Down | ArrowLeft | Left =>
      if MiniSlider.isInToMiniMode (miniSliderSystem c) then
        let newIndex :=
          (JS.numZ (Zoom.imageIndex (Zoom.state (zoomSystem c))) - 1)%Z in
        slideLeft newIndex c
      else
        Some (withState
                (addVelocity (animations (config c))
                             (- keyboardSensitivity (animations (config c)))
                             (state c))
                c, [])
  | ArrowUp | Up | ArrowRight | Right =>
      if MiniSlider.isInToMiniMode (miniSliderSystem c) then
        let newIndex :=
          (JS.numZ (Zoom.imageIndex (Zoom.state (zoomSystem c))) + 1)%Z in
        slideRight newIndex c
      else
        Some (withState
                (addVelocity (animations (config c))
                             (keyboardSensitivity (animations (config c)))
                             (state c))
                c, [])
  | OtherKey => Some (c, [])
  end.

(** What the wheel and the drag do to leave the zoom: [zoomOut()],
    [toSlider()] and [hideTitle()] (the rectangles they copy for the
    renderer are not part of the model). *)
Definition leaveZoom (c : T) : option T :=
  let c1 := withZoomSystem (Zoom.zoomOut (zoomSystem c)) c in
  let c2 :=
    withMiniSliderSystem (MiniSlider.toSlider (miniSliderSystem c1)) c1 in
  tryOnTitle (Title.hideTitle readTransform) c2.

(** [handleWheel(e)], for [e.deltaX] and [e.deltaY]. *)
Definition handleWheel (deltaX deltaY : R) (c : T) : option (T * list Call) :=
  let a := animations (config c) in
  let c1 := onTitle Title.resetNextTitle c in
  let c2 := withState (setTargetPosition None (state c1)) c1 in
  let push (c : T) : T :=
    withState
      (addVelocity a ((deltaX + deltaY) * wheelSensitivity a) (state c)) c in
  if Zoom.isActive (Zoom.state (zoomSystem c2)) then
    let left :=
      if negb (Zoom.isZoomingOut (Zoom.state (zoomSystem c2)))
         && (Layout.checkScroll a deltaY || Layout.checkScroll a deltaX)
      then
        match leaveZoom c2 with
        | Some c3 =>
            Some (c3,
                  if onZoomOut callbacks
                  then [call_onZoomOut
                          (Zoom.imageIndex (Zoom.state (zoomSystem c3)))]
                  else [])
        | None => None
        end
      else Some (c2, []) in
    match left with
    | Some (c3, calls) =>
        if Zoom.isZoomingOut (Zoom.state (zoomSystem c3))
        then Some (push c3, calls)
        else Some (c3, calls)
    | None => None
    end
  else Some (push c2, []).

(** [handlePointerDown(e)], for [e.clientX]. *)
Definition handlePointerDown (clientX : R) (c : T) : T :=
  withState
    (setVelocity 0 (setLastPointerX clientX (setIsPointerDown true (state c))))
    c.

(** [handlePointerMove(e)], for [e.clientX]. *)
Definition handlePointerMove (clientX : R) (c : T) : option T :=
  if negb (isPointerDown (state c)) then Some c
  else
    let a := animations (config c) in
    let deltaX := lastPointerX (state c) - clientX in
    if Layout.checkDrag a deltaX then
      let c1 := onTitle Title.resetNextTitle c in
      let c2 :=
        withState
          (setLastPointerX clientX
             (addVelocity a (deltaX * dragSensitivity a)
                (setIsDragging true (state c1))))
          c1 in
      if Zoom.isActive (Zoom.state (zoomSystem c2))
         && negb (Zoom.isZoomingOut (Zoom.state (zoomSystem c2)))
      then leaveZoom c2
      else Some c2
    else Some c.

End WithEnvironment.

End Input.

(* ================================================================== *)
(** * Sample states                                                    *)
(* ================================================================== *)

Module Samples.

(** A stage of three slots centred on slot 0. *)
Definition stage3 : Stage.State :=
  Stage.initializeStage 0 (Stage.initialize 3).

(** A portrait image at the default mask height and zoom. *)
Definition portrait : Carousel.Image :=
  {| Carousel.width := 450; Carousel.height := 675;
     Carousel.aspectRatio := 2 / 3 |}.

Definition link : Title.Element :=
  {| Title.transform := Title.translate3d 100;
     Title.pointerEvents := Title.pe_none |}.

(** A document that gives back the percentage last written. *)
Definition readBack (t : Title.Transform) : option R :=
  match t with Title.translate3d y => Some y end.

(** The carousel of three images under the default configuration, as
    [init()] leaves it: positions 0, bounds [0, 816]. *)
Definition carousel3 : Carousel.T :=
  Carousel.init Carousel.defaultConfig
                [portrait; portrait; portrait] [link; link; link].

(** The same carousel zoomed on image 1, as a click on that image
    leaves it in a window 1728 wide: target on slot 1, zoom and
    mini-slider started, title 1 shown, crosses unrotated. *)
Definition zoomedOn1 : Carousel.T :=
  let c1 :=
    Carousel.withState
      (Carousel.updateTargetPosition
         (Carousel.scaledDimensions (Carousel.config carousel3)) 1728 1
         (Carousel.state carousel3))
      carousel3 in
  let c2 :=
    Carousel.withZoomSystem (Zoom.zoomIn 1 (Carousel.zoomSystem c1)) c1 in
  let c3 :=
    Carousel.withMiniSliderSystem
      (MiniSlider.toMini 1 (Carousel.miniSliderSystem c2)) c2 in
  let c4 :=
    Carousel.withTitleAnimation
      (match Carousel.titleAnimation c3 with
       | Some t => Title.showTitle readBack Title.params 1 None t
       | None => None
       end) c3 in
  Carousel.withCrossAnimation
    (Cross.resetRotation (Carousel.crossAnimation c4)) c4.

(** An application that has set every callback. *)
Definition listening : Input.Callbacks :=
  {| Input.onImageClick := true; Input.onZoomIn := true;
     Input.onZoomOut := true; Input.onSlide := true;
     Input.onInit := true; Input.onDestroy := true |}.

(** The same carousel at rest 0.05 from its left edge when the left
    arrow key adds [-keyboardSensitivity] to the velocity. *)
Definition nearLeftEdge : Carousel.T :=
  Carousel.withState
    (Carousel.addVelocity Carousel.defaultAnimations (-50)
       (Carousel.setSmoothPosition 0.05
          (Carousel.setCurrentPosition 0.05
             (Carousel.state carousel3))))
    carousel3.

(** The same carousel one tick of unit length after a fling at the
    maximal velocity. *)
Definition flung : Carousel.T :=
  Carousel.physicsTick 1
    (Carousel.withState
       (Carousel.addVelocity Carousel.defaultAnimations 400
          (Carousel.state carousel3))
       carousel3).

End Samples.

(* ================================================================== *)
(** * Facts about the number layer                                     *)
(* ================================================================== *)

Module JSFacts.

Lemma lt_spec (x y : R) : JS.lt x y = true <-> x < y.
Proof. unfold JS.lt; destruct (Rlt_dec x y); split; intros; easy. Qed.

Lemma lt_false (x y : R) : JS.lt x y = false <-> y <= x.
Proof.
  unfold JS.lt; destruct (Rlt_dec x y); split; intros; try easy; lra.
Qed.

Lemma gt_spec (x y : R) : JS.gt x y = true <-> y < x.
Proof. apply lt_spec. Qed.

Lemma gt_false (x y : R) : JS.gt x y = false <-> x <= y.
Proof. apply lt_false. Qed.

Lemma ge_spec (x y : R) : JS.ge x y = true <-> y <= x.
Proof. unfold JS.ge; destruct (Rle_dec y x); split; intros; easy. Qed.

Lemma ge_false (x y : R) : JS.ge x y = false <-> x < y.
Proof.
  unfold JS.ge; destruct (Rle_dec y x); split; intros; try easy; lra.
Qed.

Lemma strictEq_true (a : Z) (b : option Z) :
  JS.strictEq a b = true <-> b = Some a.
Proof.
  destruct b as [z|]; simpl; split; intros H; try discriminate.
  - apply Z.eqb_eq in H; now subst.
  - injection H as ->; apply Z.eqb_refl.
Qed.

Lemma strictEq_false (a : Z) (b : option Z) :
  JS.strictEq a b = false <-> b <> Some a.
Proof.
  rewrite <- strictEq_true; destruct (JS.strictEq a b); split; intros; easy.
Qed.

Lemma forEachFrom_length {A : Type} (f : A -> Z -> A) (l : list A) :
  forall i, length (JS.forEachFrom f i l) = length l.
Proof.
  induction l as [|x r IH]; intros i; simpl; [easy | now rewrite IH].
Qed.

Lemma forEachFrom_nth {A : Type} (f : A -> Z -> A) (l : list A) :
  forall i k,
    nth_error (JS.forEachFrom f i l) k =
    option_map (fun x => f x (Z.of_nat (i + k))) (nth_error l k).
Proof.
  induction l as [|x r IH]; intros i k; destruct k as [|k]; simpl; try easy.
  - now rewrite Nat.add_0_r.
  - rewrite IH. now replace (S i + k)%nat with (i + S k)%nat by lia.
Qed.

Lemma forEach_length {A : Type} (f : A -> Z -> A) (l : list A) :
  length (JS.forEach f l) = length l.
Proof. apply forEachFrom_length. Qed.

Lemma forEach_nth {A : Type} (f : A -> Z -> A) (l : list A) (k : nat) :
  nth_error (JS.forEach f l) k =
  option_map (fun x => f x (Z.of_nat k)) (nth_error l k).
Proof. unfold JS.forEach; now rewrite forEachFrom_nth. Qed.

(** [Math.pow] at the arguments the carousel gives it. *)
Lemma Math_pow_zero (y : R) : y <> 0 -> JS.Math_pow 0 y = 0.
Proof.
  intros Hy; unfold JS.Math_pow.
  destruct (Req_dec_T 0 0) as [_|N]; [|now elim N].
  destruct (Req_dec_T y 0); [contradiction | reflexivity].
Qed.

Lemma Math_pow_one_base (y : R) : JS.Math_pow 1 y = 1.
Proof.
  unfold JS.Math_pow.
  destruct (Req_dec_T 1 0) as [E|_]; [lra|].
  unfold Rpower. rewrite ln_1, Rmult_0_r. apply exp_0.
Qed.

Lemma Math_pow_nonneg (x y : R) : 0 <= JS.Math_pow x y.
Proof.
  unfold JS.Math_pow.
  destruct (Req_dec_T x 0); [destruct (Req_dec_T y 0); lra|].
  unfold Rpower; left; apply exp_pos.
Qed.

Lemma Math_pow_exp_one (x : R) : 0 < x -> JS.Math_pow x 1 = x.
Proof.
  intros Hx; unfold JS.Math_pow.
  destruct (Req_dec_T x 0); [lra | now apply Rpower_1].
Qed.

End JSFacts.

(** Decide every comparison of the goal and close the arithmetic. *)
Ltac js_compare :=
  unfold JS.gt, JS.ge, JS.lt in *;
  repeat match goal with
         | |- context [Rlt_dec ?a ?b] => destruct (Rlt_dec a b)
         | |- context [Rle_dec ?a ?b] => destruct (Rle_dec a b)
         end;
  simpl; try lra.

(* ================================================================== *)
(** * The stage system: jump transitions                               *)
(* ================================================================== *)

Module StageFacts.

Import Stage.

Lemma snap_settled (l : Layer) : offset (snap l) = targetOffset (snap l).
Proof. reflexivity. Qed.

(** The slots of a jump: what [jump_slot] leaves in each of the three
    cases of its conditional. *)
Lemma jump_slot_target (cur : option Z) (newIndex : Z) (st : StageT) :
  let new := jump_slot cur newIndex st newIndex in
  offset (image new) = offset (image st) /\
  offset (mask new) = offset (mask st) /\
  targetOffset (image new) = 0 /\
  targetOffset (mask new) = 0.
Proof. unfold jump_slot; rewrite Z.eqb_refl; simpl; auto. Qed.

Lemma jump_slot_previous (newIndex idx : Z) (st : StageT) :
  idx <> newIndex ->
  let new := jump_slot (Some idx) newIndex st idx in
  offset (image new) = offset (image st) /\
  offset (mask new) = offset (mask st) /\
  targetOffset (image new) = directionOf newIndex idx * 0.5 /\
  targetOffset (mask new) = directionOf newIndex idx.
Proof.
  intros Hne; unfold jump_slot.
  apply Z.eqb_neq in Hne; rewrite Hne; simpl.
  rewrite Z.eqb_refl; simpl; auto.
Qed.

Lemma jump_slot_other (cur : option Z) (newIndex idx : Z) (st : StageT) :
  idx <> newIndex -> cur <> Some idx ->
  let new := jump_slot cur newIndex st idx in
  offset (image new) = targetOffset (image new) /\
  offset (mask new) = targetOffset (mask new) /\
  targetOffset (image new) = directionOf newIndex idx * 0.5 /\
  targetOffset (mask new) = directionOf newIndex idx.
Proof.
  intros Hne Hcur; unfold jump_slot.
  apply Z.eqb_neq in Hne; rewrite Hne.
  apply JSFacts.strictEq_false in Hcur; rewrite Hcur; simpl; auto.
Qed.

Lemma jumpToImage_unfold (s : State) (newIndex : Z) :
  JS.strictEq newIndex (currentIndex s) = false ->
  jumpToImage newIndex s =
  {| stages := JS.forEach (jump_slot (currentIndex s) newIndex) (stages s);
     renderOrder :=
       computeRenderOrder (Z.of_nat (length (stages s))) newIndex;
     currentIndex := Some newIndex;
     isTransitioning := true;
     isJumpTransition := false |}.
Proof.
  intros H; unfold jumpToImage, transitionTo; rewrite H; simpl; rewrite H.
  unfold updateRenderOrder; simpl.
  now rewrite JSFacts.forEach_length.
Qed.

(** C2.  A jump to [newIndex] (the flag raised by [jumpToImage], then
    [transitionTo]) snaps every slot but the two endpoints: a slot that
    is neither the previous centre nor [newIndex] ends with
    [offset = targetOffset] for its image and its mask; the slot
    [newIndex] and the previous centre keep their offsets and receive
    their new targets; and the jump flag is clear again afterwards. *)
Theorem jump_snaps_all_but_endpoints :
  forall (s : State) (newIndex : Z),
    JS.strictEq newIndex (currentIndex s) = false ->
    let s' := jumpToImage newIndex s in
    s' = transitionTo newIndex (raiseJumpFlag s) /\
    isJumpTransition s' = false /\
    currentIndex s' = Some newIndex /\
    length (stages s') = length (stages s) /\
    forall (k : nat) (old : StageT),
      nth_error (stages s) k = Some old ->
      exists new : StageT,
        nth_error (stages s') k = Some new /\
        let idx := Z.of_nat k in
        (idx <> newIndex -> currentIndex s <> Some idx ->
         offset (image new) = targetOffset (image new) /\
         offset (mask new) = targetOffset (mask new) /\
         targetOffset (image new) = directionOf newIndex idx * 0.5 /\
         targetOffset (mask new) = directionOf newIndex idx) /\
        (idx = newIndex ->
         offset (image new) = offset (image old) /\
         offset (mask new) = offset (mask old) /\
         targetOffset (image new) = 0 /\
         targetOffset (mask new) = 0) /\
        (idx <> newIndex -> currentIndex s = Some idx ->
         offset (image new) = offset (image old) /\
         offset (mask new) = offset (mask old) /\
         targetOffset (image new) = directionOf newIndex idx * 0.5 /\
         targetOffset (mask new) = directionOf newIndex idx).
Proof.
  intros s newIndex H s'.
  assert (E : s' = jumpToImage newIndex s) by reflexivity.
  rewrite (jumpToImage_unfold s newIndex H) in E.
  split; [unfold s', jumpToImage; now rewrite H|].
  rewrite E; simpl.
  repeat split; [apply JSFacts.forEach_length|].
  intros k old Hk.
  exists (jump_slot (currentIndex s) newIndex old (Z.of_nat k)).
  split; [rewrite JSFacts.forEach_nth, Hk; reflexivity|].
  cbv zeta; split; [|split].
  - intros Hne Hcur; now apply jump_slot_other.
  - intros ->; apply jump_slot_target.
  - intros Hne ->; now apply jump_slot_previous.
Qed.

Lemma jump_snaps_all_but_endpoints_witness :
  JS.strictEq 2 (currentIndex Samples.stage3) = false /\
  isJumpTransition (jumpToImage 2 Samples.stage3) = false /\
  currentIndex (jumpToImage 2 Samples.stage3) = Some 2%Z.
Proof.
  split; [reflexivity|].
  destruct (jump_snaps_all_but_endpoints Samples.stage3 2 eq_refl)
    as (_ & Hflag & Hcur & _).
  split; [exact Hflag | exact Hcur].
Defined.

End StageFacts.

(* ================================================================== *)
(** * The zoom system: leaving the zoom                                *)
(* ================================================================== *)

Module ZoomFacts.

Import Zoom.

(** C9.  [zoomOut()] raises [isZoomingOut] and clears [isZoomingIn] and
    touches nothing else: [progress], [imageIndex], [isActive], the two
    lock flags and the whole stage system (so every offset of every
    slot) are as before.  The next [updateAnimation(dt)] therefore
    decays from the progress the entry had reached: on an active zoom it
    yields [progress + (0 - progress) * transitionSmoothing * (dt * 0.8)]
    for the [progress] held when [zoomOut()] was called. *)
Theorem zoomOut_changes_only_the_two_flags :
  forall (z : System),
    let z' := zoomOut z in
    isZoomingOut (state z') = true /\
    isZoomingIn (state z') = false /\
    progress (state z') = progress (state z) /\
    imageIndex (state z') = imageIndex (state z) /\
    isActive (state z') = isActive (state z) /\
    zoomInLocked z' = zoomInLocked z /\
    zoomOutLocked z' = zoomOutLocked z /\
    stageSystem z' = stageSystem z /\
    forall (p : Params) (dt : R),
      progress (state (updateAnimation p dt z')) =
      if isActive (state z)
      then progress (state z)
           + (0 - progress (state z)) * transitionSmoothing p * (dt * 0.8)
      else progress (state z).
Proof.
  intros z z'; unfold z', zoomOut; simpl.
  repeat (split; [reflexivity|]).
  intros p dt; unfold updateAnimation; simpl.
  destruct (isActive (state z)); reflexivity.
Qed.

(** [transitionToImage(newIndex)] leaves the zoom focused on
    [newIndex], whether it had to move or not. *)
Lemma transitionToImage_focus (newIndex : Z) (z : System) :
  imageIndex (state (transitionToImage newIndex z)) = Some newIndex.
Proof.
  unfold transitionToImage.
  destruct (JS.strictEq newIndex (imageIndex (state z))) eqn:E;
    simpl; [|reflexivity].
  now apply JSFacts.strictEq_true.
Qed.

End ZoomFacts.

(* ================================================================== *)
(** * The title system: hiding when nothing shows                      *)
(* ================================================================== *)

Module TitleFacts.

Import Title.

(** C10.  With no title showing ([currentTitleIndex] is [null]),
    [hideTitle()] returns normally and leaves the title state as it was:
    no field changes, so no exit direction is chosen, no target is set
    and no animating flag is raised. *)
Theorem hideTitle_without_title_is_noop :
  forall (readTransform : Transform -> option R) (s : State),
    currentTitleIndex s = None ->
    hideTitle readTransform s = Some s.
Proof. intros readTransform s H; unfold hideTitle; now rewrite H. Qed.

Lemma hideTitle_without_title_is_noop_witness :
  currentTitleIndex (create [Samples.link; Samples.link]) = None /\
  hideTitle Samples.readBack (create [Samples.link; Samples.link]) =
  Some (create [Samples.link; Samples.link]).
Proof.
  split; [reflexivity|].
  apply (hideTitle_without_title_is_noop Samples.readBack); reflexivity.
Defined.

(** [showTitle] cannot fail when no title is current. *)
Lemma showTitle_fresh (readTransform : Transform -> option R) (p : Params)
      (index : Z) (delay : option R) (s : State) :
  currentTitleIndex s = None ->
  showTitle readTransform p index delay s =
  Some (showTitle_from p 100 index delay s).
Proof. intros H; unfold showTitle; now rewrite H. Qed.

(** [updateAnimation] never throws: the nested [showTitle] runs after
    [currentTitleIndex] was cleared. *)
Lemma updateAnimation_total (readTransform : Transform -> option R)
      (p : Params) (dt : R) (s : State) :
  exists s', updateAnimation readTransform p dt s = Some s'.
Proof.
  unfold updateAnimation.
  destruct (titleElements s) as [|e l]; [now eexists|].
  destruct (currentTitleIndex s) as [cur|]; [|now eexists].
  destruct (at_ (e :: l) cur); [|now eexists].
  destruct (isAnimatingIn s && JS.gt (remainigDelay s) 0); [now eexists|].
  cbv zeta.
  match goal with
  | |- context [showNextIndex ?s2] => destruct (showNextIndex s2) as [next|]
  end; [|now eexists].
  match goal with
  | |- context [if ?b then _ else _] => destruct b
  end; [|now eexists].
  rewrite showTitle_fresh by reflexivity. now eexists.
Qed.

End TitleFacts.

(* ================================================================== *)
(** * The crosses: rotation of the side crosses                        *)
(* ================================================================== *)

Module CrossFacts.

Import Cross.

(** C7, as stated, fails on the crosses the constructor builds: the side
    crosses are not visible, [rotateSideCrosses(1)] returns at its guard
    and the rotation target stays [0] instead of becoming [PI / 2]. *)
Lemma rotateSideCrosses_hidden_counterexample :
  targetRotation (sides (rotateSideCrosses 1 (create params))) <>
  targetRotation (sides (create params)) + 1 * (PI / 2).
Proof.
  simpl. pose proof PI_RGT_0. lra.
Qed.

(** C7, amended.  [rotateSideCrosses(direction)] adds
    [direction * PI / 2] to the rotation target when the side crosses
    are visible and leaves the state untouched when they are not;
    [resetRotation()] sets [currentRotation] and [targetRotation] to 0;
    and [updateAnimation(dt)] adds
    [(targetRotation - currentRotation) * rotationSmoothing * dt] to
    [currentRotation] and keeps [targetRotation], whether the side
    crosses are visible or not. *)
Theorem side_cross_rotation :
  forall (p : Params) (direction dt : R) (s : State),
    (if isVisible (sides s)
     then targetRotation (sides (rotateSideCrosses direction s)) =
          targetRotation (sides s) + direction * (PI / 2)
          /\ currentRotation (sides (rotateSideCrosses direction s)) =
             currentRotation (sides s)
     else rotateSideCrosses direction s = s) /\
    currentRotation (sides (resetRotation s)) = 0 /\
    targetRotation (sides (resetRotation s)) = 0 /\
    currentRotation (sides (updateAnimation p dt s)) =
      currentRotation (sides s)
      + (targetRotation (sides s) - currentRotation (sides s))
        * rotationSmoothing p * dt /\
    targetRotation (sides (updateAnimation p dt s)) =
      targetRotation (sides s).
Proof.
  intros p direction dt s.
  split; [|split; [reflexivity|split; [reflexivity|]]].
  - unfold rotateSideCrosses.
    destruct (isVisible (sides s)); simpl; auto.
  - unfold updateAnimation, updateSides; simpl.
    destruct (isVisible (sides s)); simpl; [|auto].
    match goal with
    | |- context [if ?b then _ else _] => destruct b
    end; simpl; auto.
Qed.

End CrossFacts.

(* ================================================================== *)
(** * The orchestrator: the tick and the mini-slider                   *)
(* ================================================================== *)

Module TickFacts.

Import Carousel.

Lemma syncCrosses_miniSlider (c : T) :
  miniSliderSystem (syncCrosses c) = miniSliderSystem c.
Proof.
  unfold syncCrosses.
  repeat match goal with
         | |- context [if ?b then _ else _] => destruct b
         end; reflexivity.
Qed.

Lemma syncCrosses_zoom (c : T) :
  zoomSystem (syncCrosses c) = zoomSystem c.
Proof.
  unfold syncCrosses.
  repeat match goal with
         | |- context [if ?b then _ else _] => destruct b
         end; reflexivity.
Qed.

(** What a tick leaves in the mini-slider and the zoom system is what
    its first block left there. *)
Lemma updateMotion_systems (readTransform : Title.Transform -> option R)
      (deltaTime : R) (c : T) :
  exists c',
    updateMotion readTransform deltaTime c = Some c' /\
    let dt := deltaTime / timingNormalizer (animations (config c)) in
    miniSliderSystem c' = miniSliderSystem (updateZoomAndMiniSlider dt c) /\
    zoomSystem c' = zoomSystem (updateZoomAndMiniSlider dt c).
Proof.
  unfold updateMotion; cbv zeta.
  set (dt := deltaTime / timingNormalizer (animations (config c))).
  set (c3 := withCrossAnimation _ _).
  assert (Hm : miniSliderSystem c3 =
               miniSliderSystem (updateZoomAndMiniSlider dt c))
    by (unfold c3; simpl; apply syncCrosses_miniSlider).
  assert (Hz : zoomSystem c3 = zoomSystem (updateZoomAndMiniSlider dt c))
    by (unfold c3; simpl; apply syncCrosses_zoom).
  destruct (titleAnimation c3) as [t|] eqn:Ht.
  - destruct (showTitles (features (config c3))).
    + destruct (TitleFacts.updateAnimation_total
                  readTransform Title.params dt t) as [t' ->].
      eexists; split; [reflexivity|]. simpl; auto.
    + eexists; split; [reflexivity|]. simpl; auto.
  - eexists; split; [reflexivity|]. simpl; auto.
Qed.

(** C3.  A tick that starts with the zoom system inactive completes and
    ends with the mini-slider inactive: a mini-slider found in an active
    mode is put through [setInactive()] in that tick, an inactive one is
    left alone. *)
Theorem tick_without_zoom_leaves_miniSlider_inactive :
  forall (readTransform : Title.Transform -> option R)
         (deltaTime : R) (c : T),
    Zoom.isActive (Zoom.state (zoomSystem c)) = false ->
    exists c',
      updateMotion readTransform deltaTime c = Some c' /\
      MiniSlider.mode (miniSliderSystem c') = MiniSlider.mode_inactive /\
      MiniSlider.isActive (miniSliderSystem c') = false /\
      miniSliderSystem c' =
        (if MiniSlider.isActive (miniSliderSystem c)
         then MiniSlider.setInactive (miniSliderSystem c)
         else miniSliderSystem c).
Proof.
  intros readTransform deltaTime c Hz.
  destruct (updateMotion_systems readTransform deltaTime c)
    as (c' & Hrun & Hm & _).
  exists c'; split; [exact Hrun|].
  cbv zeta in Hm; rewrite Hm.
  unfold updateZoomAndMiniSlider; rewrite Hz.
  unfold MiniSlider.isActive.
  destruct (MiniSlider.mode (miniSliderSystem c)) eqn:Hmode; simpl;
    rewrite ?Hmode; auto.
Qed.

(** The carousel of three images with a mini-slider stranded in
    [toSlider] mode while the zoom is inactive. *)
Lemma tick_without_zoom_leaves_miniSlider_inactive_witness :
  let c :=
    withMiniSliderSystem
      (MiniSlider.toSlider (MiniSlider.toMini 1 MiniSlider.create))
      Samples.carousel3 in
  Zoom.isActive (Zoom.state (zoomSystem c)) = false /\
  MiniSlider.mode (miniSliderSystem c) = MiniSlider.mode_toSlider /\
  exists c',
    updateMotion Samples.readBack 16 c = Some c' /\
    MiniSlider.mode (miniSliderSystem c') = MiniSlider.mode_inactive.
Proof.
  intros c.
  split; [reflexivity|]. split; [reflexivity|].
  destruct (tick_without_zoom_leaves_miniSlider_inactive
              Samples.readBack 16 c eq_refl) as (c' & Hrun & Hmode & _).
  exists c'; split; [exact Hrun | exact Hmode].
Defined.

End TickFacts.

(* ================================================================== *)
(** * The public API: goToImage                                        *)
(* ================================================================== *)

Module GoToFacts.

Import Carousel.

Lemma updateTargetPosition_target (d : ScaledDimensions) (innerWidth : R)
      (imageIndex : Z) (s : State) :
  targetPosition (updateTargetPosition d innerWidth imageIndex s) =
  Some (currentPosition s
        + (IZR imageIndex * (maskWidth d + maskGap d) - smoothPosition s)).
Proof.
  unfold updateTargetPosition; simpl. f_equal. unfold Rdiv; ring.
Qed.

Lemma goToImage_outside (innerWidth : R) (index : Z) (c : T) :
  (index < 0 \/ index >= imagesLength c)%Z ->
  goToImage innerWidth index c = warn (invalidIndexMessage index) c.
Proof.
  intros Hout; unfold goToImage.
  replace ((index <? 0)%Z || (index >=? imagesLength c)%Z) with true;
    [reflexivity|].
  symmetry; apply orb_true_iff.
  destruct Hout as [H|H]; [left; now apply Z.ltb_lt | right].
  apply Z.geb_le; lia.
Qed.

Lemma goToImage_inside (innerWidth : R) (index : Z) (c : T) :
  (0 <= index < imagesLength c)%Z ->
  goToImage innerWidth index c =
  let c1 :=
    withState
      (updateTargetPosition (scaledDimensions (config c)) innerWidth
                            index (state c))
      c in
  if Zoom.isActive (Zoom.state (zoomSystem c))
  then withZoomSystem (Zoom.transitionToImage index (zoomSystem c)) c1
  else c1.
Proof.
  intros [Hlo Hhi]; unfold goToImage.
  replace ((index <? 0)%Z || (index >=? imagesLength c)%Z) with false;
    [reflexivity|].
  symmetry; apply orb_false_iff; split.
  - apply Z.ltb_ge; lia.
  - rewrite Z.geb_leb. apply Z.leb_gt; lia.
Qed.

(** What [goToImage(index)] does.  With [index] outside
    [0, images.length) it writes the warning on the console and changes
    nothing of the carousel: scroll state (target, position, velocity
    and the rest), zoom system and the other systems are as before.
    With [index] inside the bounds it writes nothing on the console,
    replaces the scroll state by [updateTargetPosition(index)] of it
    (so position, smoothed position and velocity are kept), and, when
    and only when the zoom is active, calls [transitionToImage(index)]
    on the zoom system, which leaves the zoom focused on [index]. *)
Lemma goToImage_effects (innerWidth : R) (index : Z) (c : T) :
  ((index < 0 \/ index >= imagesLength c)%Z ->
   let c' := goToImage innerWidth index c in
   console c' = console c ++ [invalidIndexMessage index] /\
   state c' = state c /\
   zoomSystem c' = zoomSystem c /\
   miniSliderSystem c' = miniSliderSystem c /\
   crossAnimation c' = crossAnimation c /\
   titleAnimation c' = titleAnimation c /\
   indexAnimation c' = indexAnimation c /\
   images c' = images c /\
   config c' = config c) /\
  ((0 <= index < imagesLength c)%Z ->
   let c' := goToImage innerWidth index c in
   console c' = console c /\
   state c' =
     updateTargetPosition (scaledDimensions (config c)) innerWidth index
                          (state c) /\
   currentPosition (state c') = currentPosition (state c) /\
   smoothPosition (state c') = smoothPosition (state c) /\
   velocity (state c') = velocity (state c) /\
   zoomSystem c' =
     (if Zoom.isActive (Zoom.state (zoomSystem c))
      then Zoom.transitionToImage index (zoomSystem c)
      else zoomSystem c) /\
   (Zoom.isActive (Zoom.state (zoomSystem c)) = true ->
    Zoom.imageIndex (Zoom.state (zoomSystem c')) = Some index /\
    Zoom.isActive (Zoom.state (zoomSystem c')) = true)).
Proof.
  split.
  - intros Hout c'; unfold c'; rewrite goToImage_outside by exact Hout.
    simpl; repeat split.
  - intros Hin c'; unfold c'; rewrite goToImage_inside by exact Hin.
    cbv zeta.
    destruct (Zoom.isActive (Zoom.state (zoomSystem c))) eqn:Hact.
    + cbn [console state zoomSystem withZoomSystem withState].
      do 6 (split; [reflexivity|]).
      intros _. split; [apply ZoomFacts.transitionToImage_focus|].
      unfold Zoom.transitionToImage.
      destruct (negb (JS.strictEq index
                        (Zoom.imageIndex (Zoom.state (zoomSystem c)))));
        [exact Hact | exact Hact].
    + cbn [console state zoomSystem withState].
      do 6 (split; [reflexivity|]).
      discriminate.
Qed.

End GoToFacts.

(* ================================================================== *)
(** * Scroll physics                                                   *)
(* ================================================================== *)

Module ScrollFacts.

Import Carousel.

(** ** The phases of a tick *)

Lemma seekTarget_bounds (a : Animations) (s : State) :
  minScroll (seekTarget a s) = minScroll s /\
  maxScroll (seekTarget a s) = maxScroll s.
Proof.
  unfold seekTarget; destruct (targetPosition s); [|auto].
  destruct (JS.lt _ _); simpl; auto.
Qed.

Lemma integrate_bounds (a : Animations) (dt : R) (s : State) :
  minScroll (integrate a dt s) = minScroll s /\
  maxScroll (integrate a dt s) = maxScroll s.
Proof.
  unfold integrate.
  repeat match goal with
         | |- context [if ?b then _ else _] => destruct b
         end; simpl; auto.
Qed.

Lemma integrate_smoothPosition (a : Animations) (dt : R) (s : State) :
  smoothPosition (integrate a dt s) = smoothPosition s.
Proof.
  unfold integrate.
  repeat match goal with
         | |- context [if ?b then _ else _] => destruct b
         end; reflexivity.
Qed.

(** The clamp of the integration block keeps a position inside the
    bounds inside the bounds. *)
Lemma integrate_in_bounds (a : Animations) (dt : R) (s : State) :
  minScroll s <= currentPosition s <= maxScroll s ->
  minScroll s <= currentPosition (integrate a dt s) <= maxScroll s.
Proof.
  intros H; unfold integrate.
  destruct (_ || _); [|exact H].
  js_compare.
Qed.

(** On a clamp the velocity is zeroed and the target is cleared. *)
Lemma integrate_clamp (a : Animations) (dt : R) (s : State) :
  JS.gt (Rabs (velocity s)) (minVelocity a)
  || match targetPosition s with Some _ => true | None => false end = true ->
  let newPosition := currentPosition s + velocity s * dt in
  (newPosition < minScroll s ->
   currentPosition (integrate a dt s) = minScroll s /\
   velocity (integrate a dt s) = 0 /\
   targetPosition (integrate a dt s) = None) /\
  (minScroll s <= newPosition -> maxScroll s < newPosition ->
   currentPosition (integrate a dt s) = maxScroll s /\
   velocity (integrate a dt s) = 0 /\
   targetPosition (integrate a dt s) = None) /\
  (minScroll s <= newPosition <= maxScroll s ->
   currentPosition (integrate a dt s) = newPosition /\
   velocity (integrate a dt s) = velocity s /\
   targetPosition (integrate a dt s) = targetPosition s).
Proof.
  intros Hrun newPosition; unfold integrate; rewrite Hrun.
  fold newPosition.
  split; [|split]; intros; js_compare; auto.
Qed.

(** Whatever the prior velocity, a pending target decides the velocity
    the rest of the tick works with. *)
Lemma seekTarget_forgets_velocity (a : Animations) (s : State) (v0 : R) :
  targetPosition s <> None ->
  seekTarget a (setVelocity v0 s) = seekTarget a s.
Proof.
  intros H; unfold seekTarget; simpl.
  destruct (targetPosition s) as [t|]; [|contradiction].
  destruct (JS.lt _ _); reflexivity.
Qed.

(** The damping factor lies between the edge and the base constants. *)
Lemma dampingFor_between (a : Animations) (dMin dMax zone v : R) :
  edgeDamping a <= baseDamping a ->
  edgeDamping a <= dampingFor a dMin dMax zone v <= baseDamping a.
Proof.
  intros H; unfold dampingFor.
  destruct (_ || _); [|lra].
  unfold expDecay.
  set (f := Rmax 0 _).
  assert (Hf : 0 <= f) by apply Rmax_l.
  assert (Hexp : 0 < exp (- (1) * f) <= 1).
  { split; [apply exp_pos|].
    destruct Hf as [Hf|Hf].
    - pose proof (exp_increasing (- (1) * f) 0) as Hlt.
      rewrite exp_0 in Hlt. left; apply Hlt; lra.
    - rewrite <- Hf. replace (- (1) * 0) with 0 by ring.
      rewrite exp_0; lra. }
  split; nra.
Qed.

(** A tick that meets a target closer than 0.1 puts the position on the
    target, clears the target and zeroes the velocity; the integration
    block, and with it the clamp, does not run. *)
Lemma tick_snaps_to_target (a : Animations) (dt : R) (s : State) (t : R) :
  targetPosition s = Some t ->
  Rabs (t - currentPosition s) < 0.1 ->
  0 <= minVelocity a ->
  let s' := updateSliderMotion a dt s in
  currentPosition s' = t /\ velocity s' = 0 /\ targetPosition s' = None.
Proof.
  intros Ht Hnear Hmin s'; unfold s', updateSliderMotion; cbv zeta.
  assert (Hseek : seekTarget a s =
                  setVelocity 0 (setTargetPosition None
                                   (setCurrentPosition t s))).
  { unfold seekTarget; rewrite Ht.
    apply JSFacts.lt_spec in Hnear; now rewrite Hnear. }
  rewrite Hseek; simpl.
  rewrite Rmult_0_l.
  unfold integrate; simpl.
  replace (JS.gt (Rabs 0) (minVelocity a)) with false; [simpl; auto|].
  symmetry; apply JSFacts.gt_false. rewrite Rabs_R0; exact Hmin.
Qed.

(** A tick keeps the position inside the bounds as long as it does not
    snap to a target lying outside them. *)
Lemma tick_in_bounds_unless_snap_outside (a : Animations) (dt : R)
      (s : State) :
  minScroll s <= currentPosition s <= maxScroll s ->
  match targetPosition s with
  | Some t =>
      Rabs (t - currentPosition s) < 0.1 -> minScroll s <= t <= maxScroll s
  | None => True
  end ->
  let s' := updateSliderMotion a dt s in
  minScroll s' <= currentPosition s' <= maxScroll s' /\
  minScroll s' = minScroll s /\ maxScroll s' = maxScroll s.
Proof.
  intros Hin Ht s'; unfold s', updateSliderMotion; cbv zeta; simpl.
  set (s1 := seekTarget a s).
  set (s2 := setVelocity _ s1).
  assert (H1 : minScroll s1 <= currentPosition s1 <= maxScroll s1).
  { unfold s1, seekTarget.
    destruct (targetPosition s) as [t|]; [|exact Hin].
    destruct (JS.lt (Rabs (t - currentPosition s)) 0.1) eqn:E; simpl.
    - apply Ht. now apply JSFacts.lt_spec.
    - exact Hin. }
  assert (B1 : minScroll s1 = minScroll s /\ maxScroll s1 = maxScroll s)
    by apply seekTarget_bounds.
  assert (H2 : minScroll s2 <= currentPosition s2 <= maxScroll s2)
    by exact H1.
  pose proof (integrate_in_bounds a dt s2 H2) as H3.
  pose proof (integrate_bounds a dt s2) as [B3 B3'].
  rewrite B3, B3'. split; [exact H3|]. exact B1.
Qed.

(** A leftward velocity that carries the position past the left bound
    within one tick of unit length: the tick clamps. *)
Lemma tick_hits_left_edge (a : Animations) (s : State) :
  targetPosition s = None ->
  0 < edgeDamping a <= baseDamping a ->
  velocity s < 0 ->
  minVelocity a < - velocity s * edgeDamping a ->
  currentPosition s + velocity s * edgeDamping a < minScroll s ->
  let s' := updateSliderMotion a 1 s in
  currentPosition s' = minScroll s /\
  velocity s' = 0 /\
  targetPosition s' = None /\
  smoothPosition s' =
    expDecay (smoothPosition s) (minScroll s) (positionSmoothing a) 1 /\
  minScroll s' = minScroll s /\ maxScroll s' = maxScroll s.
Proof.
  intros Ht [He Heb] Hv Hfast Hcross s'.
  unfold s', updateSliderMotion; cbv zeta.
  assert (Hseek : seekTarget a s = s) by (unfold seekTarget; now rewrite Ht).
  rewrite Hseek.
  set (d := dampingFor a _ _ _ _).
  assert (Hd : edgeDamping a <= d <= baseDamping a)
    by (apply dampingFor_between; exact Heb).
  rewrite JSFacts.Math_pow_exp_one by lra.
  set (s2 := setVelocity (velocity s * d) s).
  assert (Hv2 : velocity s2 = velocity s * d) by reflexivity.
  assert (Hle : velocity s * d <= velocity s * edgeDamping a) by nra.
  assert (Hrun :
            JS.gt (Rabs (velocity s2)) (minVelocity a)
            || match targetPosition s2 with
               | Some _ => true | None => false end = true).
  { apply orb_true_iff; left. apply JSFacts.gt_spec.
    rewrite Hv2, Rabs_left by nra. lra. }
  destruct (integrate_clamp a 1 s2 Hrun) as (Hlow & _ & _).
  destruct Hlow as (Hc & Hvel & Htar).
  { rewrite Hv2; simpl; lra. }
  pose proof (integrate_bounds a 1 s2) as [Bmin Bmax].
  simpl. rewrite Hc, Hvel, Htar, Bmin, Bmax, integrate_smoothPosition.
  simpl. repeat split.
Qed.

(** A tick of unit length away from the edges and without target: the
    velocity is damped by the base constant and integrated. *)
Lemma tick_moves_freely (a : Animations) (s : State) :
  targetPosition s = None ->
  0 < baseDamping a ->
  dampingFor a (currentPosition s - minScroll s)
             (maxScroll s - currentPosition s)
             ((maxScroll s - minScroll s) * edgeZone a) (velocity s)
  = baseDamping a ->
  minVelocity a < Rabs (velocity s * baseDamping a) ->
  minScroll s <= currentPosition s + velocity s * baseDamping a
  <= maxScroll s ->
  let s' := updateSliderMotion a 1 s in
  currentPosition s' = currentPosition s + velocity s * baseDamping a /\
  smoothPosition s' =
    expDecay (smoothPosition s)
             (currentPosition s + velocity s * baseDamping a)
             (positionSmoothing a) 1.
Proof.
  intros Ht Hb Hd Hfast Hin s'.
  unfold s', updateSliderMotion; cbv zeta.
  assert (Hseek : seekTarget a s = s) by (unfold seekTarget; now rewrite Ht).
  rewrite Hseek, Hd.
  rewrite JSFacts.Math_pow_exp_one by exact Hb.
  set (s2 := setVelocity (velocity s * baseDamping a) s).
  assert (Hrun :
            JS.gt (Rabs (velocity s2)) (minVelocity a)
            || match targetPosition s2 with
               | Some _ => true | None => false end = true).
  { apply orb_true_iff; left. now apply JSFacts.gt_spec. }
  destruct (integrate_clamp a 1 s2 Hrun) as (_ & _ & Hfree).
  destruct Hfree as (Hc & _).
  { simpl. lra. }
  simpl. rewrite Hc, integrate_smoothPosition. simpl.
  replace (currentPosition s + velocity s * baseDamping a * 1)
    with (currentPosition s + velocity s * baseDamping a) by ring.
  split; reflexivity.
Qed.

End ScrollFacts.

(* ================================================================== *)
(** * The sample states                                                *)
(* ================================================================== *)

Module SampleFacts.

Import Carousel.

Lemma carousel3_at_rest :
  currentPosition (state Samples.carousel3) = 0.
Proof.
  simpl. rewrite Rmin_right by lra. apply Rmax_left; lra.
Qed.

Lemma nearLeftEdge_velocity :
  velocity (state Samples.nearLeftEdge) = -50.
Proof.
  simpl. rewrite Rmin_right by lra. rewrite Rmax_right by lra. lra.
Qed.

End SampleFacts.

(* ================================================================== *)
(** * Scroll bounds across ticks and navigations                       *)
(* ================================================================== *)

Module BoundsFacts.

Import Carousel.

Lemma tick_bounds (a : Animations) (dt : R) (s : State) :
  minScroll (updateSliderMotion a dt s) = minScroll s /\
  maxScroll (updateSliderMotion a dt s) = maxScroll s.
Proof.
  unfold updateSliderMotion; cbv zeta; simpl.
  destruct (ScrollFacts.integrate_bounds
              a dt
              (setVelocity
                 (velocity (seekTarget a s)
                  * JS.Math_pow
                      (dampingFor a (currentPosition s - minScroll s)
                         (maxScroll s - currentPosition s)
                         ((maxScroll s - minScroll s) * edgeZone a)
                         (velocity (seekTarget a s))) dt)
                 (seekTarget a s))) as [-> ->].
  simpl. apply ScrollFacts.seekTarget_bounds.
Qed.

Lemma tick_keeps_no_target (a : Animations) (dt : R) (s : State) :
  targetPosition s = None ->
  targetPosition (updateSliderMotion a dt s) = None.
Proof.
  intros Ht; unfold updateSliderMotion; cbv zeta; simpl.
  assert (Hseek : seekTarget a s = s) by (unfold seekTarget; now rewrite Ht).
  rewrite Hseek. unfold integrate; simpl; rewrite Ht.
  repeat match goal with
         | |- context [if ?b then _ else _] => destruct b
         end; simpl; auto.
Qed.

(** Ticks alone, whatever their lengths and whatever the velocity, keep
    the position inside the bounds when no target is pending. *)
Lemma ticks_without_target_stay_in_bounds (innerWidth : R) (dts : list R) :
  forall c : T,
    minScroll (state c) <= currentPosition (state c) <= maxScroll (state c) ->
    targetPosition (state c) = None ->
    let c' := run innerWidth (map Tick dts) c in
    minScroll (state c') <= currentPosition (state c') <= maxScroll (state c')
    /\ targetPosition (state c') = None.
Proof.
  induction dts as [|dt dts IH]; intros c Hin Ht; [now split|].
  simpl. apply IH; simpl.
  - apply ScrollFacts.tick_in_bounds_unless_snap_outside;
      [exact Hin | now rewrite Ht].
  - now apply tick_keeps_no_target.
Qed.

(** C1.  The position does not stay inside [minScroll, maxScroll] on
    every sequence of ticks and navigations.  The carousel of three
    images rests 0.05 from its left edge, position and smoothed position
    equal, when the left arrow key sets the velocity to -50.  The first
    tick clamps the position at the left bound 0 (velocity zeroed, no
    target), while the smoothed position lags behind, strictly between
    0 and 0.05.  [goToImage(0)] then aims at [0 - smoothPosition], below
    the bound and closer than 0.1; the next tick snaps onto that target
    without clamping, and the position ends below [minScroll]. *)
Theorem snap_to_target_escapes_bounds :
  let c0 := Samples.nearLeftEdge in
  let c' := run 1728 [Tick 1; GoToImage 0; Tick 1] c0 in
  (minScroll (state c0) <= currentPosition (state c0) <= maxScroll (state c0)
   /\ smoothPosition (state c0) = currentPosition (state c0)
   /\ targetPosition (state c0) = None) /\
  currentPosition (state c') < minScroll (state c').
Proof.
  intros c0 c'.
  split.
  { simpl. split; [lra|]. split; reflexivity. }
  set (a := defaultAnimations).
  set (d := defaultDimensions).
  set (s0 := state c0).
  set (s1 := updateSliderMotion a 1 s0).
  set (c1 := physicsTick 1 c0).
  set (s2 := updateTargetPosition d 1728 0 s1).
  assert (Ec' : state c' = updateSliderMotion a 1 s2).
  { unfold c', run; simpl fold_left; unfold step.
    change (physicsTick 1 c0) with c1.
    rewrite GoToFacts.goToImage_inside
      by (split; [discriminate | reflexivity]).
    reflexivity. }
  rewrite Ec'; clear Ec'.
  destruct (ScrollFacts.tick_hits_left_edge a s0) as
      (C1 & V1 & T1 & S1 & Bmin1 & _).
  { reflexivity. }
  { simpl; lra. }
  { unfold s0, c0; rewrite SampleFacts.nearLeftEdge_velocity; lra. }
  { unfold s0, c0; rewrite SampleFacts.nearLeftEdge_velocity; simpl; lra. }
  { unfold s0, c0; rewrite SampleFacts.nearLeftEdge_velocity; simpl; lra. }
  fold s1 in C1, V1, T1, S1, Bmin1.
  change (minScroll s0) with 0 in C1, S1, Bmin1.
  change (smoothPosition s0) with 0.05 in S1.
  change (positionSmoothing a) with 0.075 in S1.
  assert (Hlag : 0 < smoothPosition s1 < 0.05).
  { rewrite S1; unfold expDecay.
    pose proof (exp_pos (- (0.075) * 1)) as Hpos.
    pose proof (exp_increasing (- (0.075) * 1) 0) as Hlt.
    rewrite exp_0 in Hlt. lra. }
  assert (T2 : targetPosition s2 = Some (- smoothPosition s1)).
  { unfold s2; rewrite GoToFacts.updateTargetPosition_target.
    rewrite C1. f_equal. simpl. ring. }
  assert (C2 : currentPosition s2 = 0) by exact C1.
  destruct (ScrollFacts.tick_snaps_to_target a 1 s2 (- smoothPosition s1) T2)
    as (C3 & _).
  { rewrite C2. apply Rabs_def1; lra. }
  { simpl; lra. }
  destruct (tick_bounds a 1 s2) as [Bmin3 _].
  rewrite C3, Bmin3.
  change (minScroll s2) with (minScroll s1). rewrite Bmin1. lra.
Qed.

End BoundsFacts.

(* ================================================================== *)
(** * Seeking a target                                                 *)
(* ================================================================== *)

Module TargetFacts.

Import Carousel.

(** C4.  With a target pending at the start of a tick, the tick takes
    its velocity from the target and not from the prior velocity: the
    whole tick is the same whatever the prior velocity was.  At a
    distance of 0.1 or more the target block assigns
    [positionSmoothing * (targetPosition - currentPosition)], and that
    velocity, damped once, is what the tick integrates.  Closer than
    0.1, the target block puts [currentPosition] on the target, clears
    the target and zeroes the velocity, and the tick ends in that state
    (position on the target, no target, velocity 0). *)
Theorem target_overrides_velocity :
  forall (a : Animations) (dt : R) (s : State) (t : R),
    targetPosition s = Some t ->
    let distanceToTarget := t - currentPosition s in
    (forall v0 : R,
        updateSliderMotion a dt (setVelocity v0 s) = updateSliderMotion a dt s) /\
    (~ Rabs distanceToTarget < 0.1 ->
     seekTarget a s =
       setVelocity (positionSmoothing a * distanceToTarget) s /\
     updateSliderMotion a dt s =
       let v := positionSmoothing a * distanceToTarget in
       let damping :=
         dampingFor a (currentPosition s - minScroll s)
                    (maxScroll s - currentPosition s)
                    ((maxScroll s - minScroll s) * edgeZone a) v in
       let s3 := integrate a dt (setVelocity (v * JS.Math_pow damping dt) s) in
       setSmoothPosition
         (expDecay (smoothPosition s3) (currentPosition s3)
                   (positionSmoothing a) dt) s3) /\
    (Rabs distanceToTarget < 0.1 ->
     seekTarget a s =
       setVelocity 0 (setTargetPosition None (setCurrentPosition t s)) /\
     (0 <= minVelocity a ->
      currentPosition (updateSliderMotion a dt s) = t /\
      velocity (updateSliderMotion a dt s) = 0 /\
      targetPosition (updateSliderMotion a dt s) = None)).
Proof.
  intros a dt s t Ht distanceToTarget.
  split; [|split].
  - intros v0; unfold updateSliderMotion; cbv zeta.
    rewrite ScrollFacts.seekTarget_forgets_velocity by (rewrite Ht; discriminate).
    reflexivity.
  - intros Hfar.
    assert (Hseek : seekTarget a s =
                    setVelocity (positionSmoothing a * distanceToTarget) s).
    { unfold seekTarget; rewrite Ht.
      replace (JS.lt (Rabs (t - currentPosition s)) 0.1) with false;
        [reflexivity|].
      symmetry; apply JSFacts.lt_false.
      apply Rnot_lt_le; exact Hfar. }
    split; [exact Hseek|].
    unfold updateSliderMotion; cbv zeta; rewrite Hseek; reflexivity.
  - intros Hnear.
    split.
    + unfold seekTarget; rewrite Ht.
      apply JSFacts.lt_spec in Hnear.
      unfold distanceToTarget in Hnear; now rewrite Hnear.
    + intros Hmin.
      exact (ScrollFacts.tick_snaps_to_target a dt s t Ht Hnear Hmin).
Qed.

(** The carousel of three images asked for slot 1, at distance 408, and
    the same carousel asked for a point 0.05 away. *)
Lemma target_overrides_velocity_witness :
  let a := defaultAnimations in
  let far := setTargetPosition (Some 408) (state Samples.carousel3) in
  let near := setTargetPosition (Some 0.05) (state Samples.carousel3) in
  (targetPosition far = Some 408 /\
   ~ Rabs (408 - currentPosition far) < 0.1 /\
   velocity (seekTarget a far) = 0.075 * (408 - currentPosition far) /\
   updateSliderMotion a 1 (setVelocity 400 far) = updateSliderMotion a 1 far) /\
  (targetPosition near = Some 0.05 /\
   Rabs (0.05 - currentPosition near) < 0.1 /\
   0 <= minVelocity a /\
   currentPosition (updateSliderMotion a 1 near) = 0.05 /\
   velocity (updateSliderMotion a 1 near) = 0 /\
   targetPosition (updateSliderMotion a 1 near) = None).
Proof.
  intros a far near.
  assert (Hfar : ~ Rabs (408 - currentPosition far) < 0.1).
  { change (currentPosition far)
      with (currentPosition (state Samples.carousel3)).
    rewrite SampleFacts.carousel3_at_rest, Rabs_right by lra. lra. }
  assert (Hnear : Rabs (0.05 - currentPosition near) < 0.1).
  { change (currentPosition near)
      with (currentPosition (state Samples.carousel3)).
    rewrite SampleFacts.carousel3_at_rest, Rabs_right by lra. lra. }
  assert (Hmin : 0 <= minVelocity a) by (simpl; lra).
  split.
  - destruct (target_overrides_velocity a 1 far 408 eq_refl)
      as (Hany & Hf & _).
    destruct (Hf Hfar) as (Hseek & _).
    split; [reflexivity|]. split; [exact Hfar|].
    split; [rewrite Hseek; reflexivity | apply Hany].
  - destruct (target_overrides_velocity a 1 near 0.05 eq_refl)
      as (_ & _ & Hn).
    destruct (Hn Hnear) as (_ & Hend).
    split; [reflexivity|]. split; [exact Hnear|]. split; [exact Hmin|].
    exact (Hend Hmin).
Defined.

End TargetFacts.

(* ================================================================== *)
(** * The mini-slider: stagger in toMini mode                          *)
(* ================================================================== *)

Module StaggerFacts.

Import MiniSlider.

Lemma toMini_delay_nonneg (c : Motion) (s : State) (index totalImages : Z) :
  0 <= calculateStaggerDelay c s index totalImages mode_toMini.
Proof. unfold calculateStaggerDelay; simpl. apply Rmax_l. Qed.

(** The focused item has no delay. *)
Lemma toMini_delay_focused (c : Motion) (s : State) (f totalImages : Z) :
  zoomedImageIndex s = Some f ->
  calculateStaggerDelay c s f totalImages mode_toMini = 0.
Proof.
  intros Hf; unfold calculateStaggerDelay; simpl; rewrite Hf; simpl.
  rewrite Z.sub_diag; simpl.
  rewrite JSFacts.Math_pow_zero by lra.
  unfold Rdiv; rewrite !Rmult_0_l. apply Rmax_left; lra.
Qed.

(** In toMini mode the effective progress is the shared progress moved
    back by [delay / (1 - delay)] and clamped to [0, 1]. *)
Lemma toMini_progress (c : Motion) (s : State) (index totalImages : Z) :
  mode s = mode_toMini ->
  calculateImageProgress c s index totalImages =
  let delay := calculateStaggerDelay c s index totalImages mode_toMini in
  Rmin 1 (Rmax 0 (Rmax 0 (progress s - delay / (1 - delay)))).
Proof. intros Hm; unfold calculateImageProgress; now rewrite Hm. Qed.

(** C5, as stated, fails for a large stagger strength.  Two items,
    slot 0 focused, strength 8: the delay of slot 1 is
    [1 / 4 * 8 = 2], so [delay / (1 - delay) = -2] and its effective
    progress is already 1 at the shared progress 0, where the focused
    slot is at 0. *)
Lemma strong_stagger_counterexample :
  let c := {| progressSpeed := 0.006; smoothing := 0.2;
              staggerStrength := 8 |} in
  let s := toMini 0 create in
  0 < staggerStrength c /\
  progress s = 0 /\
  calculateImageProgress c s 1 2 = 1 /\
  calculateImageProgress c s 0 2 = 0.
Proof.
  intros c s.
  split; [simpl; lra|]. split; [reflexivity|].
  assert (D1 : calculateStaggerDelay c s 1 2 mode_toMini = 2).
  { unfold calculateStaggerDelay; simpl.
    rewrite JSFacts.Math_pow_one_base. rewrite Rmax_right; lra. }
  assert (D0 : calculateStaggerDelay c s 0 2 mode_toMini = 0)
    by (apply toMini_delay_focused; reflexivity).
  split.
  - rewrite toMini_progress by reflexivity; cbv zeta; rewrite D1.
    change (progress s) with 0.
    rewrite (Rmax_right 0 (0 - 2 / (1 - 2))) by lra.
    rewrite Rmax_right by lra. apply Rmin_left; lra.
  - rewrite toMini_progress by reflexivity; cbv zeta; rewrite D0.
    change (progress s) with 0.
    rewrite (Rmax_left 0 (0 - 0 / (1 - 0))) by lra.
    rewrite Rmax_left by lra. apply Rmin_right; lra.
Qed.

(** C5, amended.  In toMini mode, for an item whose delay is below 1,
    the effective progress never exceeds that of the focused item, and
    when it is 1 the focused item's is 1 too: the item reaches full
    progress no earlier than the focused item. *)
Theorem stagger_keeps_delayed_items_behind :
  forall (c : Motion) (s : State) (index totalImages f : Z),
    (2 <= totalImages)%Z ->
    mode s = mode_toMini ->
    zoomedImageIndex s = Some f ->
    0 < staggerStrength c ->
    calculateStaggerDelay c s index totalImages mode_toMini < 1 ->
    calculateImageProgress c s index totalImages
    <= calculateImageProgress c s f totalImages /\
    (calculateImageProgress c s index totalImages = 1 ->
     calculateImageProgress c s f totalImages = 1).
Proof.
  intros c s index totalImages f Hn Hm Hf Hs Hd.
  rewrite !toMini_progress by exact Hm; cbv zeta.
  rewrite (toMini_delay_focused c s f totalImages Hf).
  set (d := calculateStaggerDelay c s index totalImages mode_toMini) in *.
  assert (Hd0 : 0 <= d) by apply toMini_delay_nonneg.
  assert (Hq : 0 <= d / (1 - d)).
  { apply Rmult_le_pos; [exact Hd0|].
    left; apply Rinv_0_lt_compat; lra. }
  replace (progress s - 0 / (1 - 0)) with (progress s) by (unfold Rdiv; ring).
  set (q := d / (1 - d)) in *.
  assert (Hle : Rmin 1 (Rmax 0 (Rmax 0 (progress s - q)))
                <= Rmin 1 (Rmax 0 (Rmax 0 (progress s)))).
  { apply Rle_min_compat_l. apply Rle_max_compat_l.
    apply Rle_max_compat_l. lra. }
  split; [exact Hle|].
  intros H1. rewrite H1 in Hle.
  pose proof (Rmin_l 1 (Rmax 0 (Rmax 0 (progress s)))). lra.
Qed.

(** The delay stays below 1 for every strength up to 1 when both slots
    lie in [0, totalImages): the configured 0.75 is such a strength. *)
Lemma unit_strength_delay_below_one
      (c : Motion) (s : State) (index totalImages f : Z) :
  (0 <= index < totalImages)%Z ->
  (0 <= f < totalImages)%Z ->
  zoomedImageIndex s = Some f ->
  0 < staggerStrength c <= 1 ->
  calculateStaggerDelay c s index totalImages mode_toMini < 1.
Proof.
  intros Hi Hf Hz [Hs0 Hs1].
  unfold calculateStaggerDelay; simpl; rewrite Hz; simpl.
  set (k := Z.abs (index - f)).
  assert (Hk : (0 <= k < totalImages)%Z) by (unfold k; lia).
  assert (Hn : 0 < IZR totalImages) by (apply IZR_lt; lia).
  assert (Hpow : JS.Math_pow (IZR k) 1.25 < IZR totalImages * IZR totalImages).
  { destruct (Z.eq_dec k 0) as [->|Hk0].
    - rewrite JSFacts.Math_pow_zero by lra. nra.
    - assert (H1 : 1 <= IZR k) by (apply IZR_le; lia).
      assert (Hlt : IZR k < IZR totalImages) by (apply IZR_lt; lia).
      unfold JS.Math_pow.
      destruct (Req_dec_T (IZR k) 0); [lra|].
      apply Rle_lt_trans with (Rpower (IZR k) (INR 2)).
      + apply Rle_Rpower; [exact H1 | simpl; lra].
      + rewrite Rpower_pow by lra. simpl. nra. }
  assert (Hq : 0 <= JS.Math_pow (IZR k) 1.25
                    / (IZR totalImages * IZR totalImages) < 1).
  { split.
    - apply Rmult_le_pos; [apply JSFacts.Math_pow_nonneg|].
      left; apply Rinv_0_lt_compat; nra.
    - apply Rmult_lt_reg_r with (IZR totalImages * IZR totalImages); [nra|].
      unfold Rdiv; rewrite Rmult_assoc, Rinv_l by nra. lra. }
  apply Rmax_lub_lt; [lra | nra].
Qed.

(** Three items, the middle one focused, the configured strength: the
    delay of slot 0 is [1 / 9 * 0.75]. *)
Lemma stagger_keeps_delayed_items_behind_witness :
  let s := toMini 1 create in
  ((2 <= 3)%Z /\
   mode s = mode_toMini /\
   zoomedImageIndex s = Some 1%Z /\
   0 < staggerStrength motion /\
   calculateStaggerDelay motion s 0 3 mode_toMini < 1) /\
  calculateImageProgress motion s 0 3 <= calculateImageProgress motion s 1 3.
Proof.
  intros s.
  assert (Hd : calculateStaggerDelay motion s 0 3 mode_toMini < 1).
  { unfold calculateStaggerDelay; simpl.
    rewrite JSFacts.Math_pow_one_base. apply Rmax_lub_lt; lra. }
  assert (Hs : 0 < staggerStrength motion) by (simpl; lra).
  split.
  - split; [discriminate|]. split; [reflexivity|]. split; [reflexivity|].
    split; [exact Hs | exact Hd].
  - apply (stagger_keeps_delayed_items_behind motion s 0 3 1);
      [discriminate | reflexivity | reflexivity | exact Hs | exact Hd].
Defined.

End StaggerFacts.

(* ================================================================== *)
(** * The index counter                                                *)
(* ================================================================== *)

Module IndexFacts.

Import Index.

Lemma advance_targetIndex (c : Config) (s : State) :
  targetIndex (advance c s) = targetIndex s.
Proof.
  unfold advance, updateSnapProgress, updateSmoothOrClippedProgress.
  repeat match goal with
         | |- context [if ?b then _ else _] => destruct b
         end; reflexivity.
Qed.

(** After [updateIndex] the stored target is the slot derived from the
    position it was given. *)
Lemma updateIndex_targetIndex (c : Config) (pos w g : R) (s : State) :
  targetIndex (updateIndex c pos w g s) = newTargetIndex pos w g.
Proof.
  unfold updateIndex; rewrite advance_targetIndex.
  unfold retarget.
  destruct (newTargetIndex pos w g =? targetIndex s)%Z eqn:E; simpl.
  - symmetry; now apply Z.eqb_eq.
  - reflexivity.
Qed.

Lemma floor_unit_interval (x : R) : 0 <= x < 1 -> JS.Math_floor x = 0%Z.
Proof.
  intros H; unfold JS.Math_floor; symmetry.
  apply Int_part_spec; simpl; lra.
Qed.

(** One tick after the fling the position is 320, in slot 1, while the
    smoothed position is still in slot 0. *)
Lemma flung_position :
  Carousel.currentPosition (Carousel.state Samples.flung) = 320 /\
  0 <= Carousel.smoothPosition (Carousel.state Samples.flung) < 204.
Proof.
  set (a := Carousel.defaultAnimations).
  set (s0 := Carousel.addVelocity a 400 (Carousel.state Samples.carousel3)).
  change (Carousel.state Samples.flung)
    with (Carousel.updateSliderMotion a 1 s0).
  assert (Ec : Carousel.currentPosition s0 = 0)
    by exact SampleFacts.carousel3_at_rest.
  assert (Es : Carousel.smoothPosition s0 = 0)
    by exact SampleFacts.carousel3_at_rest.
  assert (Ev : Carousel.velocity s0 = 400).
  { simpl. rewrite Rmin_left by lra. apply Rmax_right; lra. }
  assert (Emin : Carousel.minScroll s0 = 0) by reflexivity.
  assert (Emax : Carousel.maxScroll s0 = 816) by (simpl; lra).
  destruct (ScrollFacts.tick_moves_freely a s0) as (Hc & Hs).
  { reflexivity. }
  { simpl; lra. }
  { rewrite Ec, Ev, Emin, Emax.
    unfold Carousel.dampingFor; simpl. js_compare. }
  { rewrite Ev; simpl. rewrite Rabs_right; lra. }
  { rewrite Ec, Ev, Emin, Emax; simpl; lra. }
  rewrite Hc, Hs, Ec, Es, Ev.
  split; [simpl; lra|].
  unfold Carousel.expDecay; simpl.
  pose proof (exp_ineq1_le (- (0.075) * 1)) as Hlow.
  pose proof (exp_increasing (- (0.075) * 1) 0) as Hup.
  rewrite exp_0 in Hup. lra.
Qed.

(** C6, as stated, fails one tick after a fling: the authoritative
    position, 320, lies in slot 1, but [render()] hands the smoothed
    position to [updateIndex], which is still in slot 0, and the index
    counter stores target 0. *)
Lemma render_index_counterexample :
  let c := Samples.flung in
  let d := Carousel.scaledDimensions (Carousel.config c) in
  Carousel.showIndex (Carousel.features (Carousel.config c)) = true /\
  newTargetIndex (Carousel.currentPosition (Carousel.state c))
                 (Carousel.maskWidth d) (Carousel.maskGap d) = 1%Z /\
  targetIndex (Carousel.indexAnimation (Carousel.renderIndex c)) = 0%Z.
Proof.
  intros c d.
  destruct flung_position as (Hc & Hs0 & Hs1).
  split; [reflexivity|]. split.
  - unfold c; rewrite Hc. unfold newTargetIndex; simpl.
    replace (JS.ge 320 (378 / 2 + 30 / 2)) with true
      by (symmetry; apply JSFacts.ge_spec; lra).
    rewrite floor_unit_interval; [reflexivity | lra].
  - unfold Carousel.renderIndex.
    change (Carousel.imagesLength c =? 0)%Z with false.
    change (Carousel.showIndex (Carousel.features (Carousel.config c)))
      with true.
    cbv iota. simpl Carousel.indexAnimation at 1.
    rewrite updateIndex_targetIndex.
    unfold newTargetIndex.
    replace (JS.ge (Carousel.smoothPosition (Carousel.state c)) _)
      with false; [reflexivity|].
    symmetry; apply JSFacts.ge_false. simpl Carousel.maskWidth.
    simpl Carousel.maskGap. unfold c. lra.
Qed.

(** C6, amended.  With images loaded and the index feature enabled,
    [render()] recomputes the target slot from the smoothed position
    [smoothPosition] (not from [currentPosition]): the target is 0 below
    [width / 2 + gap / 2] and
    [1 + floor((position - (width / 2 + gap / 2)) / (width + gap))]
    from there on, and it is what [updateIndex] stores.  The transition
    is restarted exactly when that target differs from the stored one:
    then [currentIndex] takes the old target and, in the snap style,
    [snapProgress] is 0 and [snapOffset] is [height * direction]; in the
    smooth and clipped styles [transitionProgress] is 0, [offset] is
    [numberSpacing * direction], [lastDirection] is [direction],
    [isTransitioning] is raised and, in the smooth style, [opacity] is
    0; [direction] is 1 towards a higher slot and -1 otherwise.  When
    the target is the stored one nothing is reset.  In both cases the
    running animation is then advanced one step. *)
Theorem render_index_follows_smoothed_position :
  forall (c : Carousel.T),
    let d := Carousel.scaledDimensions (Carousel.config c) in
    let pos := Carousel.smoothPosition (Carousel.state c) in
    let w := Carousel.maskWidth d in
    let g := Carousel.maskGap d in
    let cfg := Carousel.indexConfig c in
    let s := Carousel.indexAnimation c in
    let new := newTargetIndex pos w g in
    let direction := if (new >? targetIndex s)%Z then 1 else -1 in
    (Carousel.imagesLength c <> 0%Z ->
     Carousel.showIndex (Carousel.features (Carousel.config c)) = true ->
     Carousel.indexAnimation (Carousel.renderIndex c) =
       advance cfg (retarget cfg new s) /\
     targetIndex (Carousel.indexAnimation (Carousel.renderIndex c)) = new) /\
    (pos < w / 2 + g / 2 -> new = 0%Z) /\
    (w / 2 + g / 2 <= pos ->
     new = (1 + JS.Math_floor ((pos - (w / 2 + g / 2)) / (w + g)))%Z) /\
    (new = targetIndex s -> retarget cfg new s = s) /\
    (new <> targetIndex s ->
     let r := retarget cfg new s in
     targetIndex r = new /\
     currentIndex r = targetIndex s /\
     match style cfg with
     | snap =>
         snapProgress r = 0 /\ snapOffset r = height cfg * direction
     | smooth =>
         transitionProgress r = 0 /\
         offset r = numberSpacing cfg * direction /\
         lastDirection r = direction /\
         isTransitioning r = true /\
         opacity r = 0
     | clipped =>
         transitionProgress r = 0 /\
         offset r = numberSpacing cfg * direction /\
         lastDirection r = direction /\
         isTransitioning r = true /\
         opacity r = opacity s
     end).
Proof.
  intros c d pos w g cfg s new direction.
  split; [|split; [|split; [|split]]].
  - intros Hn Hshow.
    assert (E : Carousel.indexAnimation (Carousel.renderIndex c) =
                updateIndex cfg pos w g s).
    { unfold Carousel.renderIndex.
      apply Z.eqb_neq in Hn; rewrite Hn, Hshow. reflexivity. }
    rewrite E; split; [reflexivity | apply updateIndex_targetIndex].
  - intros Hlow; unfold new, newTargetIndex.
    replace (JS.ge pos (w / 2 + g / 2)) with false; [reflexivity|].
    symmetry; now apply JSFacts.ge_false.
  - intros Hhigh; unfold new, newTargetIndex.
    replace (JS.ge pos (w / 2 + g / 2)) with true; [reflexivity|].
    symmetry; now apply JSFacts.ge_spec.
  - intros Heq; unfold retarget.
    apply Z.eqb_eq in Heq; now rewrite Heq.
  - intros Hne r; unfold r, retarget.
    apply Z.eqb_neq in Hne; rewrite Hne; simpl.
    unfold isSnap, updateSnapAnimation, updateSmoothOrClippedAnimation,
      isSmooth, directionTo, direction.
    destruct (style cfg); simpl; repeat split.
Qed.

Lemma render_index_follows_smoothed_position_witness :
  let c := Samples.carousel3 in
  let moved :=
    Carousel.withState
      (Carousel.setSmoothPosition 500 (Carousel.state c)) c in
  (Carousel.imagesLength c <> 0%Z /\
   Carousel.showIndex (Carousel.features (Carousel.config c)) = true /\
   targetIndex (Carousel.indexAnimation (Carousel.renderIndex c)) =
     newTargetIndex (Carousel.smoothPosition (Carousel.state c)) 378 30) /\
  (newTargetIndex 500 378 30 <> targetIndex (Carousel.indexAnimation moved) /\
   lastDirection
     (retarget (Carousel.indexConfig moved) (newTargetIndex 500 378 30)
               (Carousel.indexAnimation moved)) = 1).
Proof.
  intros c moved.
  assert (Hn : Carousel.imagesLength c <> 0%Z) by discriminate.
  assert (H500 : newTargetIndex 500 378 30 = 1%Z).
  { unfold newTargetIndex.
    replace (JS.ge 500 (378 / 2 + 30 / 2)) with true
      by (symmetry; apply JSFacts.ge_spec; lra).
    rewrite floor_unit_interval; [reflexivity | lra]. }
  assert (Hne : newTargetIndex 500 378 30
                <> targetIndex (Carousel.indexAnimation moved))
    by (rewrite H500; discriminate).
  split.
  - destruct (render_index_follows_smoothed_position c)
      as (Hrender & _).
    destruct (Hrender Hn eq_refl) as (_ & Htarget).
    split; [exact Hn|]. split; [reflexivity | exact Htarget].
  - destruct (render_index_follows_smoothed_position moved)
      as (_ & _ & _ & _ & Hreset).
    destruct (Hreset Hne) as (_ & _ & Hfields).
    split; [exact Hne|].
    destruct Hfields as (_ & _ & Hdir & _).
    refine (eq_trans Hdir _).
    change (newTargetIndex
              (Carousel.smoothPosition (Carousel.state moved))
              (Carousel.maskWidth
                 (Carousel.scaledDimensions (Carousel.config moved)))
              (Carousel.maskGap
                 (Carousel.scaledDimensions (Carousel.config moved))))
      with (newTargetIndex 500 378 30).
    rewrite H500. reflexivity.
Defined.

End IndexFacts.

(* ================================================================== *)
(** * The stage system: layout, render order and convergence           *)
(* ================================================================== *)
(** * Navigation while the strip is moving                             *)
(* ================================================================== *)

Module NavigationFacts.

Import Carousel.

(** A tick of unit length with no target pending, away from the edge
    zones and inside the bounds: the whole scroll state it leaves. *)
Lemma free_tick (a : Animations) (s : State) :
  targetPosition s = None ->
  0 < baseDamping a ->
  dampingFor a (currentPosition s - minScroll s)
             (maxScroll s - currentPosition s)
             ((maxScroll s - minScroll s) * edgeZone a) (velocity s)
  = baseDamping a ->
  minVelocity a < Rabs (velocity s * baseDamping a) ->
  minScroll s <= currentPosition s + velocity s * baseDamping a
  <= maxScroll s ->
  let s' := updateSliderMotion a 1 s in
  currentPosition s' = currentPosition s + velocity s * baseDamping a /\
  velocity s' = velocity s * baseDamping a /\
  targetPosition s' = None /\
  minScroll s' = minScroll s /\ maxScroll s' = maxScroll s /\
  smoothPosition s' =
    expDecay (smoothPosition s)
             (currentPosition s + velocity s * baseDamping a)
             (positionSmoothing a) 1.
Proof.
  intros Ht Hb Hd Hfast Hin s'.
  destruct (ScrollFacts.tick_moves_freely a s Ht Hb Hd Hfast Hin)
    as (Hc & Hs).
  destruct (BoundsFacts.tick_bounds a 1 s) as (Hmin & Hmax).
  fold s' in Hc, Hs, Hmin, Hmax.
  split; [exact Hc|]. split.
  - unfold s', updateSliderMotion; cbv zeta.
    assert (Hseek : seekTarget a s = s)
      by (unfold seekTarget; now rewrite Ht).
    rewrite Hseek, Hd, JSFacts.Math_pow_exp_one by exact Hb.
    set (s2 := setVelocity (velocity s * baseDamping a) s).
    assert (Hrun :
              JS.gt (Rabs (velocity s2)) (minVelocity a)
              || match targetPosition s2 with
                 | Some _ => true | None => false end = true).
    { apply orb_true_iff; left. now apply JSFacts.gt_spec. }
    destruct (ScrollFacts.integrate_clamp a 1 s2 Hrun) as (_ & _ & Hfree).
    destruct Hfree as (_ & Hv & _); [simpl; lra|].
    simpl. exact Hv.
  - split; [now apply BoundsFacts.tick_keeps_no_target|].
    repeat split; assumption.
Qed.

(** A tick on a strip at rest with no target leaves it where it is. *)
Lemma tick_at_rest (a : Animations) (dt : R) (s : State) :
  0 <= minVelocity a ->
  targetPosition s = None ->
  velocity s = 0 ->
  let s' := updateSliderMotion a dt s in
  currentPosition s' = currentPosition s /\
  velocity s' = 0 /\ targetPosition s' = None.
Proof.
  intros Hmin Ht Hv s'. unfold s', updateSliderMotion; cbv zeta.
  assert (Hseek : seekTarget a s = s)
    by (unfold seekTarget; now rewrite Ht).
  rewrite Hseek, Hv, Rmult_0_l.
  unfold integrate. cbn [velocity setVelocity targetPosition].
  rewrite Ht, Rabs_R0.
  replace (JS.gt 0 (minVelocity a)) with false
    by (symmetry; now apply JSFacts.gt_false).
  simpl. auto.
Qed.

Section BeyondTheEdge.

Variable a : Animations.
Hypothesis Hdamping : 0 < edgeDamping a <= baseDamping a.
Hypothesis Hsmoothing : 0 < positionSmoothing a.
Hypothesis HminVelocity : 0 <= minVelocity a.

(** A tick of unit length towards a target at least [0.1] beyond the
    right bound either ends on the bound, at rest and with the target
    cleared, or keeps the target and closes the gap to it by at least
    the factor [1 - positionSmoothing * edgeDamping]. *)
Lemma tick_towards_target_beyond_edge (s : State) (t : R) :
  targetPosition s = Some t ->
  minScroll s <= currentPosition s <= maxScroll s ->
  maxScroll s + 0.1 <= t ->
  let s' := updateSliderMotion a 1 s in
  minScroll s' = minScroll s /\ maxScroll s' = maxScroll s /\
  ((currentPosition s' = maxScroll s /\ velocity s' = 0 /\
    targetPosition s' = None) \/
   (targetPosition s' = Some t /\
    minScroll s <= currentPosition s' <= maxScroll s /\
    t - currentPosition s'
    <= (1 - positionSmoothing a * edgeDamping a) * (t - currentPosition s))).
Proof.
  intros Ht Hin Hfar s'.
  destruct (BoundsFacts.tick_bounds a 1 s) as (Hmin & Hmax).
  fold s' in Hmin, Hmax.
  split; [exact Hmin|]. split; [exact Hmax|].
  set (g := t - currentPosition s).
  assert (Hg : 0.1 <= g) by (unfold g; lra).
  unfold s', updateSliderMotion; cbv zeta.
  assert (Hseek : seekTarget a s = setVelocity (positionSmoothing a * g) s).
  { unfold seekTarget; rewrite Ht. fold g.
    replace (JS.lt (Rabs g) 0.1) with false; [reflexivity|].
    symmetry; apply JSFacts.lt_false. rewrite Rabs_right; lra. }
  rewrite Hseek. cbn [velocity setVelocity].
  set (d := dampingFor a _ _ _ _).
  assert (Hd : edgeDamping a <= d <= baseDamping a)
    by (apply ScrollFacts.dampingFor_between; lra).
  rewrite JSFacts.Math_pow_exp_one by lra.
  set (s2 := setVelocity (positionSmoothing a * g * d)
                         (setVelocity (positionSmoothing a * g) s)).
  assert (Hrun :
            JS.gt (Rabs (velocity s2)) (minVelocity a)
            || match targetPosition s2 with
               | Some _ => true | None => false end = true).
  { apply orb_true_iff; right. unfold s2; simpl. now rewrite Ht. }
  assert (Hv2 : 0 < positionSmoothing a * g * d).
  { apply Rmult_lt_0_compat; [apply Rmult_lt_0_compat|]; lra. }
  destruct (ScrollFacts.integrate_clamp a 1 s2 Hrun) as (_ & Hclamp & Hfree).
  cbn [currentPosition velocity minScroll maxScroll targetPosition
       setVelocity s2] in Hclamp, Hfree.
  cbn [currentPosition velocity targetPosition setSmoothPosition].
  destruct (Rlt_le_dec (maxScroll s)
                       (currentPosition s + positionSmoothing a * g * d * 1))
    as [Hover|Hunder].
  - left. apply Hclamp; lra.
  - right. destruct Hfree as (Hc & _ & Htarget); [lra|].
    rewrite Hc, Htarget. split; [exact Ht|]. split; [lra|].
    fold g.
    assert (Hstep : positionSmoothing a * edgeDamping a * g
                    <= positionSmoothing a * g * d) by nra.
    unfold g in *. lra.
Qed.

(** Such a target is never reached: ticks of unit length bring the
    strip to the right bound, where it stays at rest. *)
Lemma target_beyond_edge_ends_on_edge (s : State) (t : R) :
  targetPosition s = Some t ->
  minScroll s <= currentPosition s <= maxScroll s ->
  maxScroll s + 0.1 <= t ->
  positionSmoothing a * edgeDamping a <= 1 ->
  exists N : nat,
    forall k : nat,
      (N <= k)%nat ->
      let sk := Nat.iter k (updateSliderMotion a 1) s in
      currentPosition sk = maxScroll s /\ velocity sk = 0 /\
      targetPosition sk = None.
Proof.
  intros Ht Hin Hfar Hq1.
  set (q := 1 - positionSmoothing a * edgeDamping a).
  assert (Hq : 0 <= q < 1).
  { unfold q. split; [lra|]. assert (0 < positionSmoothing a * edgeDamping a)
      by (apply Rmult_lt_0_compat; lra). lra. }
  set (g0 := t - currentPosition s).
  assert (Hg0 : 0.1 <= g0) by (unfold g0; lra).
  assert (Inv : forall k,
             let sk := Nat.iter k (updateSliderMotion a 1) s in
             minScroll sk = minScroll s /\ maxScroll sk = maxScroll s /\
             ((currentPosition sk = maxScroll s /\ velocity sk = 0 /\
               targetPosition sk = None) \/
              (targetPosition sk = Some t /\
               minScroll s <= currentPosition sk <= maxScroll s /\
               t - currentPosition sk <= g0 * q ^ k))).
  { induction k as [|k IH]; cbv zeta.
    - simpl. split; [reflexivity|]. split; [reflexivity|].
      right. split; [exact Ht|]. split; [exact Hin|]. unfold g0; lra.
    - simpl Nat.iter. set (sk := Nat.iter k (updateSliderMotion a 1) s) in *.
      cbv zeta in IH. destruct IH as (Emin & Emax & IH).
      destruct (BoundsFacts.tick_bounds a 1 sk) as (Emin' & Emax').
      split; [congruence|]. split; [congruence|].
      destruct IH as [(Hc & Hv & Hnone)|(Hsome & Hbounds & Hgap)].
      + left.
        destruct (tick_at_rest a 1 sk HminVelocity Hnone Hv)
          as (Hc' & Hv' & Hnone').
        repeat split; congruence.
      + destruct (tick_towards_target_beyond_edge sk t Hsome)
          as (_ & _ & Hcase); [rewrite Emin, Emax; exact Hbounds | lra |].
        rewrite Emax in Hcase.
        destruct Hcase as [Hedge|(Hsome' & Hbounds' & Hgap')].
        * left; exact Hedge.
        * right. split; [exact Hsome'|].
          split; [rewrite Emin in Hbounds'; exact Hbounds'|].
          fold q in Hgap'.
          apply Rle_trans with (q * (t - currentPosition sk));
            [exact Hgap'|].
          replace (g0 * q ^ S k) with (q * (g0 * q ^ k)) by (simpl; ring).
          apply Rmult_le_compat_l; lra. }
  destruct (pow_lt_1_zero q) with (y := 0.1 / g0) as [N HN].
  { rewrite Rabs_right; lra. }
  { apply Rdiv_lt_0_compat; lra. }
  exists N. intros k Hk sk.
  destruct (Inv k) as (_ & _ & [Hedge|(_ & Hbounds & Hgap)]);
    [exact Hedge|].
  exfalso. fold sk in Hbounds, Hgap.
  assert (Hsmall : Rabs (q ^ k) < 0.1 / g0) by (apply HN; lia).
  assert (Hpow : 0 <= q ^ k) by (apply pow_le; lra).
  rewrite Rabs_right in Hsmall by lra.
  assert (Hprod : g0 * q ^ k < 0.1).
  { apply Rmult_lt_compat_l with (r := g0) in Hsmall; [|lra].
    unfold Rdiv in Hsmall.
    rewrite (Rmult_comm 0.1), <- Rmult_assoc, Rinv_r, Rmult_1_l in Hsmall
      by lra.
    exact Hsmall. }
  lra.
Qed.

End BeyondTheEdge.

(** Ticks of the carousel are ticks of its scroll state. *)
Lemma run_ticks (innerWidth : R) (k : nat) :
  forall c : T,
    state (run innerWidth (repeat (Tick 1) k) c) =
    Nat.iter k (updateSliderMotion (animations (config c)) 1) (state c).
Proof.
  induction k as [|k IH]; intros c; [reflexivity|].
  rewrite Nat.iter_succ_r.
  change (run innerWidth (repeat (Tick 1) (S k)) c)
    with (run innerWidth (repeat (Tick 1) k) (physicsTick 1 c)).
  now rewrite IH.
Qed.

(** The scroll state one tick after the fling: the strip has reached
    320 at velocity 320, and the smoothed position at most 24. *)
Lemma flung_state :
  let s := state Samples.flung in
  currentPosition s = 320 /\ velocity s = 320 /\ targetPosition s = None /\
  minScroll s = 0 /\ maxScroll s = 816 /\
  0 <= smoothPosition s <= 24.
Proof.
  set (a := defaultAnimations).
  set (s0 := addVelocity a 400 (state Samples.carousel3)).
  change (state Samples.flung) with (updateSliderMotion a 1 s0).
  assert (Ec : currentPosition s0 = 0)
    by exact SampleFacts.carousel3_at_rest.
  assert (Es : smoothPosition s0 = 0)
    by exact SampleFacts.carousel3_at_rest.
  assert (Ev : velocity s0 = 400).
  { simpl. rewrite Rmin_left by lra. apply Rmax_right; lra. }
  assert (Emin : minScroll s0 = 0) by reflexivity.
  assert (Emax : maxScroll s0 = 816) by (simpl; lra).
  destruct (free_tick a s0) as (Hc & Hv & Ht & Hlo & Hhi & Hs).
  { reflexivity. }
  { simpl; lra. }
  { rewrite Ec, Ev, Emin, Emax.
    unfold dampingFor; simpl. js_compare. }
  { rewrite Ev; simpl. rewrite Rabs_right; lra. }
  { rewrite Ec, Ev, Emin, Emax; simpl; lra. }
  cbv zeta. rewrite Hc, Hv, Ht, Hlo, Hhi, Hs, Ec, Es, Ev, Emin, Emax.
  repeat split; try (simpl; lra).
  - unfold expDecay; simpl.
    pose proof (exp_increasing (- (0.075) * 1) 0) as Hup.
    rewrite exp_0 in Hup. lra.
  - unfold expDecay; simpl.
    pose proof (exp_ineq1_le (- (0.075) * 1)) as Hlow. lra.
Qed.

(** The scroll state two ticks after the fling: the strip is at 576,
    past slot 1, and the smoothed position is still below 68. *)
Lemma flung_twice_state :
  let s := state (run 1728 [Tick 1] Samples.flung) in
  currentPosition s = 576 /\ targetPosition s = None /\
  minScroll s = 0 /\ maxScroll s = 816 /\
  0 <= smoothPosition s <= 68.
Proof.
  set (a := defaultAnimations).
  destruct flung_state as (Ec & Ev & Et & Emin & Emax & Es).
  set (s1 := state Samples.flung) in *.
  change (state (run 1728 [Tick 1] Samples.flung))
    with (updateSliderMotion a 1 s1).
  destruct (free_tick a s1) as (Hc & _ & Ht & Hlo & Hhi & Hs).
  { exact Et. }
  { simpl; lra. }
  { rewrite Ec, Ev, Emin, Emax.
    unfold dampingFor; simpl. js_compare. }
  { rewrite Ev; simpl. rewrite Rabs_right; lra. }
  { rewrite Ec, Ev, Emin, Emax; simpl; lra. }
  cbv zeta. rewrite Hc, Ht, Hlo, Hhi, Hs, Ec, Ev, Emin, Emax.
  replace (320 + 320 * baseDamping a) with 576 by (simpl; lra).
  set (sm := smoothPosition s1) in *. clearbody sm.
  unfold expDecay; simpl.
  pose proof (exp_ineq1_le (- (0.075) * 1)) as Hlow.
  pose proof (exp_increasing (- (0.075) * 1) 0) as Hup.
  rewrite exp_0 in Hup.
  pose proof (exp_pos (- (0.075) * 1)) as Hpos.
  set (e := exp (- (0.075) * 1)) in *.
  assert (He : 0.925 <= e < 1) by lra.
  replace (sm + (576 - sm) * (1 - e)) with (sm * e + 576 * (1 - e)) by ring.
  assert (Hsm : 0 <= sm * e <= 24) by nra.
  repeat split; lra.
Qed.

(** C8.  [goToImage(index)] does not always send the strip to slot
    [index].  Two ticks after a fling from rest (three images, default
    configuration) the strip is at 576, past the resting position 408
    of slot 1, with no target pending.  [goToImage(1)], a valid index,
    then sets a target above [maxScroll], on the far side of the strip
    from slot 1; the ticks that follow move the strip away from slot 1
    until it stops on the right bound, the resting position of slot 2,
    with the target cleared. *)
Theorem goToImage_misses_the_slot :
  let d := scaledDimensions (config Samples.flung) in
  let slot (k : Z) := IZR k * (maskWidth d + maskGap d) in
  let c2 := run 1728 [Tick 1] Samples.flung in
  let c3 := goToImage 1728 1 c2 in
  ((0 <= 1 < imagesLength c2)%Z /\
   targetPosition (state c2) = None /\
   minScroll (state c2) <= currentPosition (state c2)
   <= maxScroll (state c2)) /\
  slot 1%Z < currentPosition (state c2) /\
  (exists t : R,
      targetPosition (state c3) = Some t /\
      currentPosition (state c3) < maxScroll (state c3) < t) /\
  exists N : nat,
    forall k : nat,
      (N <= k)%nat ->
      let c := run 1728 (repeat (Tick 1) k) c3 in
      currentPosition (state c) = slot 2%Z /\
      currentPosition (state c) = maxScroll (state c) /\
      velocity (state c) = 0 /\
      targetPosition (state c) = None.
Proof.
  intros d slot c2 c3.
  destruct flung_twice_state as (Ec & Et & Emin & Emax & Es).
  fold c2 in Ec, Et, Emin, Emax, Es.
  assert (Hn : (0 <= 1 < imagesLength c2)%Z)
    by (change (imagesLength c2) with 3%Z; lia).
  assert (Hslot1 : slot 1%Z = 408) by (unfold slot; simpl; lra).
  assert (Hslot2 : slot 2%Z = 816) by (unfold slot; simpl; lra).
  assert (E3 : state c3 =
               updateTargetPosition (scaledDimensions (config c2)) 1728 1
                                    (state c2)).
  { unfold c3. rewrite GoToFacts.goToImage_inside by exact Hn. reflexivity. }
  set (t := currentPosition (state c2)
            + (IZR 1 * (maskWidth (scaledDimensions (config c2))
                        + maskGap (scaledDimensions (config c2)))
               - smoothPosition (state c2))).
  assert (Ht3 : targetPosition (state c3) = Some t)
    by (rewrite E3; apply GoToFacts.updateTargetPosition_target).
  assert (Hc3 : currentPosition (state c3) = 576)
    by (rewrite E3; exact Ec).
  assert (Hmin3 : minScroll (state c3) = 0) by (rewrite E3; exact Emin).
  assert (Hmax3 : maxScroll (state c3) = 816) by (rewrite E3; exact Emax).
  assert (Hfar : 816 + 0.1 <= t).
  { assert (Hw : maskWidth (scaledDimensions (config c2))
                 + maskGap (scaledDimensions (config c2)) = 408)
      by (simpl; lra).
    unfold t. rewrite Ec, Hw. lra. }
  split; [split; [exact Hn|]; split; [exact Et|]; lra|].
  split; [lra|].
  split; [exists t; split; [exact Ht3|]; lra|].
  destruct (target_beyond_edge_ends_on_edge defaultAnimations)
    with (s := state c3) (t := t) as [N HN];
    try (simpl; lra); try exact Ht3; try lra.
  exists N. intros k Hk c.
  assert (Estate : state c =
                   Nat.iter k (updateSliderMotion defaultAnimations 1)
                            (state c3)) by (unfold c; apply run_ticks).
  destruct (HN k Hk) as (Hpos & Hvel & Hnone).
  rewrite <- Estate in Hpos, Hvel, Hnone.
  assert (Hmaxk : maxScroll (state c) = 816).
  { rewrite Estate. clear - Hmax3. induction k as [|k IH]; [exact Hmax3|].
    rewrite Nat.iter_succ, (proj2 (BoundsFacts.tick_bounds _ _ _)).
    exact IH. }
  rewrite Hslot2, Hmaxk, Hpos, Hmax3. repeat split; auto.
Qed.

End NavigationFacts.

(* ================================================================== *)

Module StageLayoutFacts.

Import Stage.

Lemma map_seq_from {A : Type} (f : nat -> A) (b : nat) :
  forall a, map f (seq a b) = map (fun i => f (a + i)%nat) (seq 0 b).
Proof.
  induction b as [|b IH]; intros a; [reflexivity|].
  simpl. rewrite Nat.add_0_r. f_equal.
  rewrite IH, <- seq_shift, map_map.
  apply map_ext; intros i. f_equal; lia.
Qed.

Lemma range_app (from : Z) (a b : nat) :
  range from (Z.of_nat (a + b)) =
  range from (Z.of_nat a) ++ range (from + Z.of_nat a) (Z.of_nat b).
Proof.
  unfold range. rewrite !Nat2Z.id, seq_app, map_app. f_equal.
  simpl. rewrite map_seq_from. apply map_ext; intros i. lia.
Qed.

Lemma range_one (from : Z) : range from 1 = [from].
Proof. unfold range; simpl. f_equal; lia. Qed.

Lemma range_length (from n : Z) : length (range from n) = Z.to_nat n.
Proof. unfold range. now rewrite length_map, length_seq. Qed.

(** X1.  For a centre inside the stage, the render order
    [updateRenderOrder] stores starts with the centre and lists every
    slot of the stage exactly once. *)
Theorem renderOrder_is_permutation :
  forall (s : State) (currentIndex : Z),
    (0 <= currentIndex < Z.of_nat (length (stages s)))%Z ->
    let order := renderOrder (updateRenderOrder currentIndex s) in
    hd_error order = Some currentIndex /\
    Permutation order (range 0 (Z.of_nat (length (stages s)))) /\
    NoDup order.
Proof.
  intros s i Hi order.
  set (n := length (stages s)) in *.
  unfold order, updateRenderOrder; simpl; fold n.
  unfold computeRenderOrder.
  split; [reflexivity|].
  assert (Hsplit : range 0 (Z.of_nat n) =
                   range 0 i ++ [i] ++ range (i + 1) (Z.of_nat n - i - 1)).
  { replace n with (Z.to_nat i + (1 + Z.to_nat (Z.of_nat n - i - 1)))%nat
      at 1 by lia.
    rewrite range_app, Z2Nat.id by lia.
    rewrite Nat2Z.inj_add, Z2Nat.id by lia.
    change (Z.of_nat 1) with 1%Z.
    replace (1 + (Z.of_nat n - i - 1))%Z
      with (Z.of_nat (1 + Z.to_nat (Z.of_nat n - i - 1))) by lia.
    rewrite range_app. simpl Z.of_nat at 1.
    rewrite range_one, Z2Nat.id by lia.
    replace (0 + i)%Z with i by lia. reflexivity. }
  assert (Hperm : Permutation
                    (i :: rev (range 0 i)
                       ++ range (i + 1) (Z.of_nat n - i - 1))
                    (range 0 (Z.of_nat n))).
  { rewrite Hsplit. simpl.
    apply Permutation_cons_app.
    apply Permutation_app_tail. symmetry. apply Permutation_rev. }
  split; [exact Hperm|].
  apply (Permutation_NoDup (Permutation_sym Hperm)).
  unfold range. apply Finite.Injective_map_NoDup; [|apply seq_NoDup].
  intros a b Hab; lia.
Qed.

Lemma renderOrder_is_permutation_witness :
  (0 <= 1 < Z.of_nat (length (stages Samples.stage3)))%Z /\
  renderOrder (updateRenderOrder 1 Samples.stage3) = [1; 0; 2]%Z /\
  NoDup (renderOrder (updateRenderOrder 1 Samples.stage3)).
Proof.
  assert (H : (0 <= 1 < Z.of_nat (length (stages Samples.stage3)))%Z)
    by (split; [discriminate | reflexivity]).
  split; [exact H|]. split; [reflexivity|].
  apply (renderOrder_is_permutation Samples.stage3 1 H).
Defined.

Lemma map_forEach {A B : Type} (g : A -> B) (f : A -> Z -> A) (l : list A) :
  forall i,
    map g (JS.forEachFrom f i l) =
    map (fun p => g (f (snd p) (Z.of_nat (fst p))))
        (combine (seq i (length l)) l).
Proof.
  induction l as [|a l IH]; intros i; simpl; [reflexivity|].
  now rewrite IH.
Qed.

Lemma initializeStage_stages (imageIndex : Z) (s : State) :
  stages (initializeStage imageIndex s) =
  JS.forEach (initializeStage_slot imageIndex) (stages s).
Proof. reflexivity. Qed.

(** X3.  Both transition policies aim at the layout
    [initializeStage(newIndex)] would snap to: after [transitionTo] (jump
    flag raised or not) to a slot other than the centre, the targets of
    every slot are the resting offsets of [initializeStage(newIndex)].
    The sequential policy moves no offset; the new centre is recorded and
    [isTransitioning] is raised. *)
Theorem transitionTo_aims_at_initial_layout :
  forall (s : State) (newIndex : Z),
    JS.strictEq newIndex (currentIndex s) = false ->
    let s' := transitionTo newIndex s in
    map targetsOf (stages s') =
      map targetsOf (stages (initializeStage newIndex s)) /\
    (isJumpTransition s = false ->
     map offsetsOf (stages s') = map offsetsOf (stages s)) /\
    currentIndex s' = Some newIndex /\
    isTransitioning s' = true /\
    isJumpTransition s' = false.
Proof.
  intros s newIndex H s'.
  assert (Hst : stages s' =
                if isJumpTransition s
                then JS.forEach (jump_slot (currentIndex s) newIndex) (stages s)
                else JS.forEach (sequential_slot newIndex) (stages s)).
  { unfold s', transitionTo; rewrite H; reflexivity. }
  assert (Hrest : currentIndex s' = Some newIndex /\
                  isTransitioning s' = true /\ isJumpTransition s' = false).
  { unfold s', transitionTo; rewrite H; simpl; auto. }
  split; [|split; [|exact Hrest]].
  - rewrite Hst, initializeStage_stages. unfold JS.forEach.
    assert (Hslot : forall (f : StageT -> Z -> StageT),
               (forall st idx,
                   targetsOf (f st idx) =
                   targetsOf (initializeStage_slot newIndex st idx)) ->
               map targetsOf (JS.forEachFrom f 0 (stages s)) =
               map targetsOf
                   (JS.forEachFrom (initializeStage_slot newIndex) 0 (stages s))).
    { intros f Hf. rewrite !map_forEach.
      apply map_ext; intros [k st]; apply Hf. }
    destruct (isJumpTransition s); apply Hslot; intros st idx.
    + unfold jump_slot, initializeStage_slot, targetsOf, directionOf.
      destruct (Z.eqb_spec idx newIndex) as [->|Hne].
      * rewrite Z.ltb_irrefl, Z.gtb_ltb, Z.ltb_irrefl. reflexivity.
      * destruct (JS.strictEq idx (currentIndex s)) eqn:Hc.
        -- apply JSFacts.strictEq_true in Hc; rewrite Hc; simpl.
           destruct (Z.ltb_spec idx newIndex);
             destruct (Z.gtb_spec newIndex idx);
             destruct (Z.gtb_spec idx newIndex);
             simpl; try lia; f_equal; lra.
        -- destruct (Z.ltb_spec idx newIndex);
             destruct (Z.gtb_spec newIndex idx);
             destruct (Z.gtb_spec idx newIndex);
             simpl; try lia; f_equal; lra.
    + unfold sequential_slot, initializeStage_slot, targetsOf, directionOf.
      destruct (Z.eqb_spec idx newIndex) as [->|Hne].
      * rewrite Z.ltb_irrefl, Z.gtb_ltb, Z.ltb_irrefl. reflexivity.
      * destruct (Z.ltb_spec idx newIndex);
          destruct (Z.gtb_spec newIndex idx);
          destruct (Z.gtb_spec idx newIndex);
          simpl; try lia; f_equal; lra.
  - intros Hflag. rewrite Hst, Hflag. unfold JS.forEach.
    rewrite map_forEach.
    assert (Hgen : forall (l : list StageT) (i : nat),
               map (fun p => offsetsOf
                               (sequential_slot newIndex (snd p)
                                                (Z.of_nat (fst p))))
                   (combine (seq i (length l)) l) = map offsetsOf l).
    { induction l as [|a l IH]; intros i; simpl; [reflexivity|].
      rewrite IH. f_equal.
      unfold sequential_slot, offsetsOf.
      destruct (Z.of_nat i =? newIndex)%Z; reflexivity. }
    apply Hgen.
Qed.

Lemma transitionTo_aims_at_initial_layout_witness :
  JS.strictEq 2 (currentIndex Samples.stage3) = false /\
  map targetsOf (stages (transitionTo 2 Samples.stage3)) =
    map targetsOf (stages (initializeStage 2 Samples.stage3)) /\
  currentIndex (transitionTo 2 Samples.stage3) = Some 2%Z.
Proof.
  split; [reflexivity|].
  destruct (transitionTo_aims_at_initial_layout Samples.stage3 2 eq_refl)
    as (Ht & _ & Hc & _).
  split; [exact Ht | exact Hc].
Defined.

(** X4.  A step of a running transition closes the gap of every slot by
    the factor [1 - smoothing * dt] and keeps the targets; with
    [0 <= smoothing * dt <= 1] no offset moves away from or past its
    target.  The transition is declared complete in the step that finds
    every image gap within [minThreshold]. *)
Theorem updateAnimation_closes_gaps :
  forall (p : Params) (dt : R) (s : State),
    isTransitioning s = true ->
    0 <= imageSmoothing p * dt <= 1 ->
    0 <= maskSmoothing p * dt <= 1 ->
    let s' := updateAnimation p dt s in
    let imageGap st := targetOffset (image st) - offset (image st) in
    let maskGap st := targetOffset (mask st) - offset (mask st) in
    (forall (k : nat) (old : StageT),
        nth_error (stages s) k = Some old ->
        exists new : StageT,
          nth_error (stages s') k = Some new /\
          targetsOf new = targetsOf old /\
          imageGap new = (1 - imageSmoothing p * dt) * imageGap old /\
          maskGap new = (1 - maskSmoothing p * dt) * maskGap old /\
          Rabs (imageGap new) <= Rabs (imageGap old) /\
          Rabs (maskGap new) <= Rabs (maskGap old)) /\
    (isTransitioning s' = false <->
     forall st, In st (stages s) -> Rabs (imageGap st) <= minThreshold p) /\
    currentIndex s' = currentIndex s.
Proof.
  intros p dt s Hrun Hi Hm s' imageGap maskGap.
  assert (Es' : s' = {| stages := map (update_slot p dt) (stages s);
                        renderOrder := renderOrder s;
                        currentIndex := currentIndex s;
                        isTransitioning :=
                          if forallb (fun st => negb (stillMoving p st))
                                     (stages s)
                          then false else isTransitioning s;
                        isJumpTransition := isJumpTransition s |}).
  { unfold s', updateAnimation; now rewrite Hrun. }
  assert (Hshrink : forall q d : R, 0 <= q <= 1 ->
                                    Rabs ((1 - q) * d) <= Rabs d).
  { intros q d Hq. rewrite Rabs_mult, (Rabs_right (1 - q)) by lra.
    pose proof (Rabs_pos d). nra. }
  rewrite Es'; simpl. split; [|split; [|reflexivity]].
  - intros k old Hk. exists (update_slot p dt old).
    split; [now rewrite nth_error_map, Hk|].
    split; [reflexivity|].
    assert (Ei : imageGap (update_slot p dt old)
                 = (1 - imageSmoothing p * dt) * imageGap old)
      by (unfold imageGap; simpl; ring).
    assert (Em : maskGap (update_slot p dt old)
                 = (1 - maskSmoothing p * dt) * maskGap old)
      by (unfold maskGap; simpl; ring).
    rewrite Ei, Em. repeat split; now apply Hshrink.
  - rewrite Hrun.
    destruct (forallb _ (stages s)) eqn:E.
    + split; [intros _|reflexivity].
      rewrite forallb_forall in E. intros st Hin.
      specialize (E st Hin). apply negb_true_iff in E.
      now apply JSFacts.gt_false in E.
    + split; [discriminate|]. intros Hall.
      assert (forallb (fun st => negb (stillMoving p st)) (stages s) = true).
      { apply forallb_forall; intros st Hin. apply negb_true_iff.
        apply JSFacts.gt_false. now apply Hall. }
      congruence.
Qed.

Lemma updateAnimation_closes_gaps_witness :
  let s := transitionTo 2 Samples.stage3 in
  (isTransitioning s = true /\
   0 <= imageSmoothing params * 1 <= 1 /\
   0 <= maskSmoothing params * 1 <= 1) /\
  currentIndex (updateAnimation params 1 s) = currentIndex s.
Proof.
  intros s.
  assert (Hi : 0 <= imageSmoothing params * 1 <= 1) by (simpl; lra).
  assert (Hm : 0 <= maskSmoothing params * 1 <= 1) by (simpl; lra).
  split; [split; [reflexivity | split; [exact Hi | exact Hm]]|].
  apply (updateAnimation_closes_gaps params 1 s eq_refl Hi Hm).
Defined.

End StageLayoutFacts.

(* ================================================================== *)
(** * The zoom system: progress, focus and exit                        *)
(* ================================================================== *)

Module ZoomProgressFacts.

Import Zoom.

(** The factor [updateAnimation] applies to [dt]. *)
Lemma updateAnimation_progress (p : Params) (dt : R) (z : System) :
  isActive (state z) = true ->
  progress (state (updateAnimation p dt z)) =
  let dt' := if isZoomingIn (state z) then dt * 0.2 else dt * 0.8 in
  let targetProgress := if isZoomingOut (state z) then 0 else 1 in
  progress (state z)
  + (targetProgress - progress (state z)) * transitionSmoothing p * dt'.
Proof. intros Ha; unfold updateAnimation; rewrite Ha; reflexivity. Qed.

(** X5.  The zoom progress stays in [0, 1]: [zoomIn] restarts it at 0,
    and a step of length [dt >= 0] with [transitionSmoothing * dt <= 1]
    keeps a progress of [0, 1] in [0, 1], never moving it away from
    its goal (0 while zooming out, 1 otherwise). *)
Theorem zoom_progress_in_unit_interval :
  forall (p : Params) (dt : R) (z : System) (imageIndex : Z),
    0 <= progress (state z) <= 1 ->
    0 <= dt ->
    0 <= transitionSmoothing p ->
    transitionSmoothing p * dt <= 1 ->
    let z' := updateAnimation p dt z in
    0 <= progress (state z') <= 1 /\
    (isActive (state z) = true -> isZoomingOut (state z) = true ->
     progress (state z') <= progress (state z)) /\
    (isZoomingOut (state z) = false ->
     progress (state z) <= progress (state z')) /\
    progress (state (zoomIn imageIndex z)) = 0.
Proof.
  intros p dt z i Hp Hdt Hts Hq z'.
  assert (Hdt' : forall f, 0 <= f <= 1 ->
                           0 <= transitionSmoothing p * (dt * f) <= 1).
  { intros f Hf.
    assert (Hq0 : 0 <= transitionSmoothing p * dt) by nra.
    replace (transitionSmoothing p * (dt * f))
      with (transitionSmoothing p * dt * f) by ring.
    generalize dependent (transitionSmoothing p * dt). intros q; nra. }
  destruct (isActive (state z)) eqn:Ha.
  - unfold z'. rewrite updateAnimation_progress by exact Ha. cbv zeta.
    set (dt' := if isZoomingIn (state z) then dt * 0.2 else dt * 0.8).
    assert (Hstep : 0 <= transitionSmoothing p * dt' <= 1)
      by (unfold dt'; destruct (isZoomingIn (state z)); apply Hdt'; lra).
    destruct (isZoomingOut (state z)); repeat split;
      try discriminate; intros; nra.
  - assert (E : z' = z) by (unfold z', updateAnimation; now rewrite Ha).
    rewrite E. repeat split; try lra; try discriminate; intros; lra.
Qed.

Lemma zoom_progress_in_unit_interval_witness :
  let z := zoomOut (zoomIn 1 (create 3)) in
  (0 <= progress (state z) <= 1 /\
   0 <= 2 /\
   0 <= transitionSmoothing params /\
   transitionSmoothing params * 2 <= 1) /\
  0 <= progress (state (updateAnimation params 2 z)) <= 1.
Proof.
  intros z.
  assert (Hp : 0 <= progress (state z) <= 1) by (simpl; lra).
  assert (H2 : 0 <= 2) by lra.
  assert (Hts : 0 <= transitionSmoothing params) by (simpl; lra).
  assert (Hq : transitionSmoothing params * 2 <= 1) by (simpl; lra).
  split; [repeat split; try lra; simpl; lra|].
  apply (zoom_progress_in_unit_interval params 2 z 0 Hp H2 Hts Hq).
Defined.

(** X6.  The zoom system and its stage agree on the focused slot:
    [zoomIn] establishes [state.imageIndex = stageSystem.currentIndex],
    and [transitionToImage], [jumpToImage], [zoomOut] and
    [updateAnimation] keep it. *)
Theorem zoom_and_stage_agree_on_focus :
  forall (p : Params) (dt : R) (z : System) (index : Z),
    let agree (z : System) :=
      imageIndex (state z) = Stage.currentIndex (stageSystem z) in
    agree (zoomIn index z) /\
    (agree z ->
     agree (transitionToImage index z) /\
     imageIndex (state (transitionToImage index z)) = Some index /\
     agree (jumpToImage index z) /\
     imageIndex (state (jumpToImage index z)) = Some index /\
     agree (zoomOut z) /\
     agree (updateAnimation p dt z)).
Proof.
  intros p dt z index agree; unfold agree.
  split; [reflexivity|]. intros Hag.
  assert (Hstage : forall s : Stage.State,
             Stage.currentIndex (Stage.updateAnimation Stage.params
                                   (if isZoomingIn (state z)
                                    then dt * 0.2 else dt * 0.8) s)
             = Stage.currentIndex s).
  { intros s; unfold Stage.updateAnimation.
    destruct (negb (Stage.isTransitioning s)); reflexivity. }
  unfold transitionToImage, jumpToImage.
  destruct (JS.strictEq index (imageIndex (state z))) eqn:E; simpl.
  - apply JSFacts.strictEq_true in E.
    repeat split; try exact Hag; try exact E.
    unfold updateAnimation. destruct (isActive (state z)); simpl;
      [rewrite Hstage|]; exact Hag.
  - assert (E' : JS.strictEq index (Stage.currentIndex (stageSystem z)) = false)
      by (rewrite <- Hag; exact E).
    assert (Ht : Stage.currentIndex (Stage.transitionTo index (stageSystem z))
                 = Some index)
      by (unfold Stage.transitionTo; rewrite E'; reflexivity).
    assert (Hj : Stage.currentIndex (Stage.jumpToImage index (stageSystem z))
                 = Some index).
    { unfold Stage.jumpToImage; rewrite E'.
      unfold Stage.transitionTo; simpl; rewrite E'; reflexivity. }
    rewrite Ht, Hj. repeat split; try exact Hag.
    unfold updateAnimation. destruct (isActive (state z)); simpl;
      [rewrite Hstage|]; exact Hag.
Qed.

Lemma zoom_and_stage_agree_on_focus_witness :
  let z := zoomIn 0 (create 3) in
  imageIndex (state z) = Stage.currentIndex (stageSystem z) /\
  imageIndex (state (jumpToImage 2 z)) = Some 2%Z /\
  imageIndex (state (jumpToImage 2 z)) =
    Stage.currentIndex (stageSystem (jumpToImage 2 z)).
Proof.
  intros z.
  destruct (zoom_and_stage_agree_on_focus params 1 z 2) as (_ & H).
  destruct (H eq_refl) as (_ & _ & Hj & Hi & _).
  split; [reflexivity|]. split; [exact Hi | exact Hj].
Defined.




End ZoomProgressFacts.

(* ================================================================== *)
(** * The mini-slider: shared progress and the toSlider hand-over      *)
(* ================================================================== *)

Module MiniSliderFacts.

Import MiniSlider.




(** The toSlider delay of a slot of the carousel lies in (0, 0.25]. *)
Lemma toSlider_delay_bounds (c : Motion) (s : State) (index totalImages : Z) :
  (2 <= totalImages)%Z ->
  (0 <= index < totalImages)%Z ->
  0 < calculateStaggerDelay c s index totalImages mode_toSlider <= 0.25.
Proof.
  intros Hn [Hi0 Hi1]. unfold calculateStaggerDelay; simpl.
  assert (H1 : 1 <= IZR totalImages - 1).
  { apply IZR_le in Hn. lra. }
  assert (H2 : 0 <= IZR index) by (apply IZR_le in Hi0; exact Hi0).
  assert (H3 : IZR index + 1 <= IZR totalImages).
  { assert (H : (index + 1 <= totalImages)%Z) by lia.
    apply IZR_le in H. rewrite plus_IZR in H. exact H. }
  assert (Hinv : 0 < / (IZR totalImages - 1) <= 1).
  { split; [apply Rinv_0_lt_compat; lra|].
    rewrite <- Rinv_1. apply Rinv_le_contravar; lra. }
  unfold Rdiv.
  assert (Hq : (IZR index + 1) * / (IZR totalImages - 1) <= 2).
  { apply Rmult_le_reg_r with (IZR totalImages - 1); [lra|].
    rewrite Rmult_assoc, Rinv_l by lra. lra. }
  split; nra.
Qed.

(** X9.  Leaving toMini for toSlider loses no ground.  In a carousel
    of at least two images, for a slot of the carousel whose toMini delay
    is below 1 and a shared progress in [0, 1]: when the renderer has
    read the slot's progress in toMini mode ([getProgress]) and
    [toSlider()] follows, the slot's progress in the new mode is the
    negated value just read, so its magnitude is unchanged across the
    switch. *)
Theorem toSlider_resumes_from_toMini_progress :
  forall (c : Motion) (s : State) (index totalImages : Z),
    mode s = mode_toMini ->
    0 <= progress s <= 1 ->
    (2 <= totalImages)%Z ->
    (0 <= index < totalImages)%Z ->
    calculateStaggerDelay c s index totalImages mode_toMini < 1 ->
    let read := getProgress c s index totalImages in
    let s' := toSlider (snd read) in
    mode s' = mode_toSlider /\
    progress s' = 0 /\
    calculateImageProgress c s' index totalImages = - fst read /\
    0 <= fst read <= 1.
Proof.
  intros c s index n Hm Hp Hn Hi Hd read s'.
  set (d := calculateStaggerDelay c s index n mode_toMini) in *.
  assert (Hd0 : 0 <= d) by apply StaggerFacts.toMini_delay_nonneg.
  assert (Hq : 0 <= d / (1 - d)).
  { apply Rmult_le_pos; [exact Hd0|].
    left; apply Rinv_0_lt_compat; lra. }
  assert (Eread : fst read = Rmax 0 (progress s - d / (1 - d))).
  { unfold read, getProgress; simpl.
    rewrite StaggerFacts.toMini_progress by exact Hm. cbv zeta. fold d.
    rewrite (Rmax_right 0 (Rmax 0 _)) by apply Rmax_l.
    apply Rmin_right. apply Rmax_lub; lra. }
  assert (Es' : s' = {| mode := mode_toSlider; progress := 0;
                        zoomedImageIndex := zoomedImageIndex s;
                        lastProgress := Some (progress s) |}).
  { unfold s', read, getProgress, toSlider; simpl. rewrite Hm; reflexivity. }
  split; [rewrite Es'; reflexivity|]. split; [rewrite Es'; reflexivity|].
  split.
  - pose proof (toSlider_delay_bounds c s' index n Hn Hi) as Hsd.
    rewrite Eread. unfold calculateImageProgress.
    replace (calculateStaggerDelay c s' index n mode_toMini) with d
      by (rewrite Es'; reflexivity).
    set (sd := calculateStaggerDelay c s' index n mode_toSlider) in *.
    rewrite Es'; simpl.
    replace (JS.lt (0 - sd) 0) with true
      by (symmetry; apply JSFacts.lt_spec; lra).
    simpl. reflexivity.
  - rewrite Eread. split; [apply Rmax_l | apply Rmax_lub; lra].
Qed.

Lemma toSlider_resumes_from_toMini_progress_witness :
  let s := toMini 1 create in
  (mode s = mode_toMini /\
   0 <= progress s <= 1 /\
   (2 <= 3)%Z /\ (0 <= 0 < 3)%Z /\
   calculateStaggerDelay motion s 0 3 mode_toMini < 1) /\
  calculateImageProgress motion
    (toSlider (snd (getProgress motion s 0 3))) 0 3 =
  - fst (getProgress motion s 0 3).
Proof.
  intros s.
  assert (Hp : 0 <= progress s <= 1) by (simpl; lra).
  assert (Hd : calculateStaggerDelay motion s 0 3 mode_toMini < 1).
  { unfold calculateStaggerDelay; simpl.
    rewrite JSFacts.Math_pow_one_base. apply Rmax_lub_lt; lra. }
  assert (Hi : (0 <= 0 < 3)%Z) by (split; [discriminate | reflexivity]).
  assert (Hn : (2 <= 3)%Z) by discriminate.
  split; [repeat split; try exact Hd; try discriminate; simpl; lra|].
  apply (toSlider_resumes_from_toMini_progress motion s 0 3 eq_refl Hp Hn Hi Hd).
Defined.

(** X10.  In toSlider mode, in a carousel of at least two images, for
    a slot of the carousel whose toMini delay is below 1 and shared
    values ([progress], [lastProgress]) in [0, 1], the slot's progress
    lies in [-1, 1]; it is negative only while the slot has not started
    ([progress < delay]), it is in [0, 1] once it has, and it is exactly
    1 when the shared progress is 1. *)
Theorem toSlider_progress_range :
  forall (c : Motion) (s : State) (index totalImages : Z),
    mode s = mode_toSlider ->
    0 <= progress s <= 1 ->
    0 <= JS.numR (lastProgress s) <= 1 ->
    (2 <= totalImages)%Z ->
    (0 <= index < totalImages)%Z ->
    calculateStaggerDelay c s index totalImages mode_toMini < 1 ->
    let v := calculateImageProgress c s index totalImages in
    let delay := calculateStaggerDelay c s index totalImages mode_toSlider in
    -1 <= v <= 1 /\
    (v < 0 -> progress s < delay) /\
    (delay <= progress s -> 0 <= v) /\
    (progress s = 1 -> v = 1).
Proof.
  intros c s index n Hm Hp Hl Hn Hi Hd v delay.
  pose proof (toSlider_delay_bounds c s index n Hn Hi) as Hsd.
  fold delay in Hsd.
  set (d := calculateStaggerDelay c s index n mode_toMini) in *.
  assert (Hd0 : 0 <= d) by apply StaggerFacts.toMini_delay_nonneg.
  assert (Hq : 0 <= d / (1 - d)).
  { apply Rmult_le_pos; [exact Hd0|].
    left; apply Rinv_0_lt_compat; lra. }
  assert (Hretreat : 0 <= Rmax 0 (JS.numR (lastProgress s) - d / (1 - d)) <= 1)
    by (split; [apply Rmax_l | apply Rmax_lub; lra]).
  assert (Hinv : 0 < / (1 - delay)) by (apply Rinv_0_lt_compat; lra).
  assert (Hfrac : delay <= progress s ->
                  0 <= (progress s - delay) / (1 - delay) <= 1).
  { intros Hge. split.
    - apply Rmult_le_pos; lra.
    - apply Rmult_le_reg_r with (1 - delay); [lra|].
      unfold Rdiv. rewrite Rmult_assoc, Rinv_l by lra. lra. }
  assert (Ev : v = if JS.lt (progress s - delay) 0
                   then - Rmax 0 (JS.numR (lastProgress s) - d / (1 - d))
                   else (progress s - delay) / (1 - delay)).
  { unfold v, calculateImageProgress. fold d. fold delay. rewrite Hm; simpl.
    destruct (JS.lt (progress s - delay) 0); reflexivity. }
  rewrite Ev.
  destruct (JS.lt (progress s - delay) 0) eqn:E.
  - apply JSFacts.lt_spec in E.
    repeat split; intros; try lra.
  - apply JSFacts.lt_false in E.
    assert (Hge : delay <= progress s) by lra.
    specialize (Hfrac Hge).
    repeat split; intros; try lra.
    subst. replace (progress s) with 1 by auto.
    unfold Rdiv. apply Rinv_r. lra.
Qed.

Lemma toSlider_progress_range_witness :
  let s :=
    updateAnimation motion 1
      (toSlider (snd (getProgress motion (toMini 1 create) 0 3))) in
  (mode s = mode_toSlider /\ (2 <= 3)%Z /\ (0 <= 0 < 3)%Z) /\
  -1 <= calculateImageProgress motion s 0 3 <= 1.
Proof.
  intros s.
  assert (Hp : 0 <= progress s <= 1).
  { simpl. rewrite Rmin_right by lra. rewrite Rmax_right by lra. lra. }
  assert (Hl : 0 <= JS.numR (lastProgress s) <= 1).
  { simpl. rewrite Rmin_right by lra. rewrite Rmax_right by lra. lra. }
  assert (Hd : calculateStaggerDelay motion s 0 3 mode_toMini < 1).
  { unfold calculateStaggerDelay; simpl.
    rewrite JSFacts.Math_pow_one_base. apply Rmax_lub_lt; lra. }
  assert (Hi : (0 <= 0 < 3)%Z) by (split; [discriminate | reflexivity]).
  assert (Hn : (2 <= 3)%Z) by discriminate.
  split; [repeat split; discriminate|].
  apply (toSlider_progress_range motion s 0 3 eq_refl Hp Hl Hn Hi Hd).
Defined.

End MiniSliderFacts.

(* ================================================================== *)
(** * The crosses: following the mini-slider, and their lengths        *)
(* ================================================================== *)

Module CrossModeFacts.

Import Carousel.

(** X11.  The block of the tick that derives the crosses from the
    mini-slider makes them agree with it: in toMini mode the crosses end
    in their toMini state, in toSlider mode in their toSlider state, and
    with the mini-slider inactive they are left alone.  It changes
    nothing but the crosses, and running it again changes nothing. *)
Theorem syncCrosses_follows_miniSlider :
  forall (c : T),
    let c' := syncCrosses c in
    (MiniSlider.mode (miniSliderSystem c) = MiniSlider.mode_toMini ->
     Cross.isInToMiniMode (crossAnimation c') = true) /\
    (MiniSlider.mode (miniSliderSystem c) = MiniSlider.mode_toSlider ->
     Cross.isInToSliderMode (crossAnimation c') = true) /\
    (MiniSlider.mode (miniSliderSystem c) = MiniSlider.mode_inactive ->
     c' = c) /\
    c' = withCrossAnimation (crossAnimation c') c /\
    syncCrosses c' = c'.
Proof.
  assert (Hfix : forall c : T,
             match MiniSlider.mode (miniSliderSystem c) with
             | MiniSlider.mode_inactive => True
             | MiniSlider.mode_toMini =>
                 Cross.isInToMiniMode (crossAnimation c) = true
             | MiniSlider.mode_toSlider =>
                 Cross.isInToSliderMode (crossAnimation c) = true
             end -> syncCrosses c = c).
  { intros c H; unfold syncCrosses.
    unfold MiniSlider.isInToMiniMode, MiniSlider.isInToSliderMode.
    destruct (MiniSlider.mode (miniSliderSystem c)); simpl;
      try rewrite H; reflexivity. }
  assert (Hmode : forall c : T,
             match MiniSlider.mode (miniSliderSystem c) with
             | MiniSlider.mode_inactive => True
             | MiniSlider.mode_toMini =>
                 Cross.isInToMiniMode (crossAnimation (syncCrosses c)) = true
             | MiniSlider.mode_toSlider =>
                 Cross.isInToSliderMode (crossAnimation (syncCrosses c)) = true
             end).
  { intros c; unfold syncCrosses.
    unfold MiniSlider.isInToMiniMode, MiniSlider.isInToSliderMode.
    destruct (MiniSlider.mode (miniSliderSystem c)); simpl; [exact I| |].
    - destruct (Cross.isInToMiniMode (crossAnimation c)) eqn:E; simpl;
        [exact E|].
      unfold Cross.isInToMiniMode; simpl. reflexivity.
    - destruct (Cross.isInToSliderMode (crossAnimation c)) eqn:E; simpl;
        [exact E|].
      unfold Cross.isInToSliderMode; simpl. reflexivity. }
  intros c c'.
  pose proof (Hmode c) as Hc.
  pose proof (TickFacts.syncCrosses_miniSlider c) as Hmini.
  fold c' in Hc, Hmini.
  split; [intros Hm; now rewrite Hm in Hc|].
  split; [intros Hm; now rewrite Hm in Hc|].
  split; [intros Hm; apply Hfix; now rewrite Hm|].
  split.
  - unfold c', syncCrosses.
    repeat match goal with
           | |- context [if ?b then _ else _] => destruct b
           end; destruct c; reflexivity.
  - apply Hfix. rewrite Hmini.
    destruct (MiniSlider.mode (miniSliderSystem c)); auto.
Qed.

Lemma syncCrosses_follows_miniSlider_witness :
  let c :=
    withMiniSliderSystem (MiniSlider.toMini 1 MiniSlider.create)
                         Samples.carousel3 in
  MiniSlider.mode (miniSliderSystem c) = MiniSlider.mode_toMini /\
  Cross.isInToMiniMode (crossAnimation c) = false /\
  Cross.isInToMiniMode (crossAnimation (syncCrosses c)) = true.
Proof.
  intros c.
  destruct (syncCrosses_follows_miniSlider c) as (H & _).
  split; [reflexivity|]. split; [reflexivity | exact (H eq_refl)].
Defined.

(** X12.  The lengths of the crosses stay between 0 and
    [maxLineLength] under [updateAnimation] when
    [0 <= smoothing * dt <= 1], and a cross that is hiding and is within
    [showMinThreshold] of length 0 ends the step invisible, at length 0,
    with its hiding flag cleared. *)
Theorem cross_lengths_stay_in_range :
  forall (p : Cross.Params) (dt : R) (s : Cross.State),
    0 <= Cross.maxLineLength p ->
    0 <= Cross.smoothing p * dt <= 1 ->
    0 <= Cross.c_currentLength (Cross.center s) <= Cross.maxLineLength p ->
    0 <= Cross.currentLength (Cross.sides s) <= Cross.maxLineLength p ->
    let s' := Cross.updateAnimation p dt s in
    0 <= Cross.c_currentLength (Cross.center s') <= Cross.maxLineLength p /\
    0 <= Cross.currentLength (Cross.sides s') <= Cross.maxLineLength p /\
    (Cross.c_isVisible (Cross.center s) = true ->
     Cross.c_isAnimatingOut (Cross.center s) = true ->
     Cross.c_currentLength (Cross.center s) < Cross.showMinThreshold p ->
     Cross.c_isVisible (Cross.center s') = false /\
     Cross.c_isAnimatingOut (Cross.center s') = false /\
     Cross.c_currentLength (Cross.center s') = 0) /\
    (Cross.isVisible (Cross.sides s) = true ->
     Cross.isAnimatingOut (Cross.sides s) = true ->
     Cross.currentLength (Cross.sides s) < Cross.showMinThreshold p ->
     Cross.isVisible (Cross.sides s') = false /\
     Cross.isAnimatingOut (Cross.sides s') = false /\
     Cross.currentLength (Cross.sides s') = 0).
Proof.
  intros p dt s Hmax Hq Hc Hs s'.
  set (q := Cross.smoothing p * dt) in *.
  assert (Hclose : forall target len : R,
             0 <= target <= Cross.maxLineLength p ->
             0 <= len <= Cross.maxLineLength p ->
             0 <= len + (target - len) * Cross.smoothing p * dt
             <= Cross.maxLineLength p).
  { intros target len Ht Hl.
    replace (len + (target - len) * Cross.smoothing p * dt)
      with (len + (target - len) * q) by (unfold q; ring).
    split; nra. }
  assert (Htarget : forall b : bool,
             0 <= (if b then 0 else Cross.maxLineLength p)
             <= Cross.maxLineLength p)
    by (intros []; lra).
  unfold s', Cross.updateAnimation, Cross.updateCenter, Cross.updateSides.
  cbn [Cross.center Cross.sides].
  split; [|split; [|split]].
  - destruct (Cross.c_isVisible (Cross.center s)); [|exact Hc].
    destruct (_ && JS.lt _ _); cbn [Cross.c_currentLength]; [lra|].
    destruct (_ && JS.gt _ _); [exact Hc|].
    apply Hclose; [apply Htarget | exact Hc].
  - destruct (Cross.isVisible (Cross.sides s));
      cbn [Cross.currentLength]; [|exact Hs].
    destruct (_ && JS.lt _ _); cbn [Cross.currentLength]; [lra|].
    destruct (_ && JS.gt _ _); [exact Hs|].
    apply Hclose; [apply Htarget | exact Hs].
  - intros Hv Ho Hnear. rewrite Hv, Ho.
    replace (JS.lt (Rabs (0 - Cross.c_currentLength (Cross.center s)))
                   (Cross.showMinThreshold p)) with true.
    + simpl; auto.
    + symmetry; apply JSFacts.lt_spec.
      rewrite Rabs_left1 by lra. lra.
  - intros Hv Ho Hnear. rewrite Hv, Ho.
    replace (JS.lt (Rabs (0 - Cross.currentLength (Cross.sides s)))
                   (Cross.showMinThreshold p)) with true.
    + simpl; auto.
    + symmetry; apply JSFacts.lt_spec.
      rewrite Rabs_left1 by lra. lra.
Qed.

Lemma cross_lengths_stay_in_range_witness :
  let s := Cross.hideCenter Cross.params (Cross.create Cross.params) in
  (0 <= Cross.maxLineLength Cross.params /\
   0 <= Cross.smoothing Cross.params * 2 <= 1 /\
   0 <= Cross.c_currentLength (Cross.center s)
     <= Cross.maxLineLength Cross.params /\
   0 <= Cross.currentLength (Cross.sides s)
     <= Cross.maxLineLength Cross.params) /\
  0 <= Cross.c_currentLength
         (Cross.center (Cross.updateAnimation Cross.params 2 s))
    <= Cross.maxLineLength Cross.params.
Proof.
  intros s.
  assert (Hmax : 0 <= Cross.maxLineLength Cross.params) by (simpl; lra).
  assert (Hq : 0 <= Cross.smoothing Cross.params * 2 <= 1) by (simpl; lra).
  assert (Hc : 0 <= Cross.c_currentLength (Cross.center s)
               <= Cross.maxLineLength Cross.params) by (simpl; lra).
  assert (Hs : 0 <= Cross.currentLength (Cross.sides s)
               <= Cross.maxLineLength Cross.params) by (simpl; lra).
  split; [repeat split; simpl; lra|].
  apply (cross_lengths_stay_in_range Cross.params 2 s Hmax Hq Hc Hs).
Defined.

End CrossModeFacts.

(* ================================================================== *)
(** * The title system: flags, failures and the queued title           *)
(* ================================================================== *)

Module TitleChainFacts.

Import Title.

Lemma settle_exclusive (s : State) :
  isAnimatingIn s && isAnimatingOut s = false ->
  isAnimatingIn (settle s) && isAnimatingOut (settle s) = false.
Proof.
  intros H; unfold settle.
  destruct (isAnimatingOut s) eqn:Eo; simpl; [apply andb_false_r|].
  destruct (isAnimatingIn s) eqn:Ei; simpl; [reflexivity|].
  now rewrite Ei.
Qed.

(** X13.  A title is never entering and exiting at once.  [showTitle]
    and [hideTitle] fail exactly when the current title index names no
    title link of the document (they fail if it does not, and only
    then); otherwise they return a state with at most one of the two
    flags raised ([hideTitle] without a current title returning the
    state as it was); and [updateAnimation] always returns, keeping the
    property. *)
Theorem title_flags_exclusive :
  forall (readTransform : Transform -> option R) (p : Params) (dt : R)
         (index : Z) (delay : option R) (s : State),
    let exclusive (s : State) := isAnimatingIn s && isAnimatingOut s = false in
    let dangling (s : State) :=
      exists cur, currentTitleIndex s = Some cur
                  /\ at_ (titleElements s) cur = None in
    (showTitle readTransform p index delay s = None <-> dangling s) /\
    (hideTitle readTransform s = None <-> dangling s) /\
    match showTitle readTransform p index delay s with
    | Some s' => exclusive s' /\ isAnimatingIn s' = true
                 /\ currentTitleIndex s' = Some index
    | None => dangling s
    end /\
    match hideTitle readTransform s with
    | Some s' => (currentTitleIndex s = None /\ s' = s)
                 \/ (exclusive s' /\ isAnimatingOut s' = true
                     /\ currentTitleIndex s' = currentTitleIndex s)
    | None => dangling s
    end /\
    (exclusive s ->
     exists s', updateAnimation readTransform p dt s = Some s'
                /\ exclusive s').
Proof.
  intros rt p dt index delay s exclusive dangling.
  unfold exclusive, dangling.
  split; [|split; [|split; [|split]]].
  - unfold showTitle. split.
    + destruct (currentTitleIndex s) as [cur|] eqn:Hc; [|discriminate].
      destruct (at_ (titleElements s) cur) eqn:Ha; [discriminate|].
      intros _. now exists cur.
    + intros (cur & Hc & Ha). now rewrite Hc, Ha.
  - unfold hideTitle. split.
    + destruct (currentTitleIndex s) as [cur|] eqn:Hc; [|discriminate].
      destruct (at_ (titleElements s) cur) eqn:Ha; [discriminate|].
      intros _. now exists cur.
    + intros (cur & Hc & Ha). now rewrite Hc, Ha.
  - unfold showTitle.
    destruct (currentTitleIndex s) as [cur|] eqn:Hc; [|simpl; auto].
    destruct (at_ (titleElements s) cur) eqn:Ha; [simpl; auto|].
    now exists cur.
  - unfold hideTitle.
    destruct (currentTitleIndex s) as [cur|] eqn:Hc; [|left; auto].
    destruct (at_ (titleElements s) cur) eqn:Ha; [right; simpl; auto|].
    now exists cur.
  - intros Hex. unfold updateAnimation.
    destruct (titleElements s) as [|e l]; [now eexists|].
    destruct (currentTitleIndex s) as [cur|]; [|now eexists].
    destruct (at_ (e :: l) cur); [|now eexists].
    destruct (isAnimatingIn s && JS.gt (remainigDelay s) 0);
      [eexists; split; [reflexivity | exact Hex]|].
    cbv zeta.
    set (s1 := {| currentTitleIndex := Some cur;
                  isAnimatingIn := isAnimatingIn s |}).
    assert (H1 : isAnimatingIn s1 && isAnimatingOut s1 = false) by exact Hex.
    assert (Hsettle : isAnimatingIn (settle s1) && isAnimatingOut (settle s1)
                      = false)
      by (apply settle_exclusive; exact H1).
    set (s2 := if JS.lt _ 0.01 then settle s1 else s1).
    assert (H2 : isAnimatingIn s2 && isAnimatingOut s2 = false)
      by (unfold s2; destruct (JS.lt _ 0.01); assumption).
    destruct (showNextIndex s2) as [next|];
      [|eexists; split; [reflexivity | exact H2]].
    destruct (isAnimatingOut s2 && JS.lt _ 0.1);
      [|eexists; split; [reflexivity | exact H2]].
    rewrite TitleFacts.showTitle_fresh by reflexivity.
    eexists; split; reflexivity.
Qed.

Lemma title_flags_exclusive_witness :
  let s := create [Samples.link; Samples.link] in
  isAnimatingIn s && isAnimatingOut s = false /\
  (exists s', showTitle Samples.readBack params 1 None s = Some s'
              /\ isAnimatingIn s' && isAnimatingOut s' = false) /\
  exists s', updateAnimation Samples.readBack params 1 s = Some s'
             /\ isAnimatingIn s' && isAnimatingOut s' = false.
Proof.
  intros s.
  destruct (title_flags_exclusive Samples.readBack params 1 1 None s)
    as (_ & _ & Hshow & _ & Hupd).
  split; [reflexivity|]. split.
  - eexists; split; [reflexivity | reflexivity].
  - exact (Hupd eq_refl).
Defined.

(** X14.  The queued title takes over in the step that finds the exiting
    title between 0.01 and 0.1 from its target: it becomes the current
    title, entering from 100 towards 0 without delay, and the queue is
    emptied.  A step that finds the exiting title closer than 0.01
    completes the exit instead (no current title, position on the
    target) and leaves the queued title in the queue, not shown. *)
Theorem queued_title_takes_over :
  forall (readTransform : Transform -> option R) (p : Params) (dt : R)
         (s : State) (cur next : Z) (el : Element),
    currentTitleIndex s = Some cur ->
    at_ (titleElements s) cur = Some el ->
    isAnimatingIn s = false ->
    isAnimatingOut s = true ->
    showNextIndex s = Some next ->
    let gap := Rabs (targetPosition s - currentPosition s) in
    (0.01 <= gap < 0.1 ->
     exists s',
       updateAnimation readTransform p dt s = Some s' /\
       currentTitleIndex s' = Some next /\
       isAnimatingIn s' = true /\
       isAnimatingOut s' = false /\
       currentPosition s' = 100 /\
       targetPosition s' = 0 /\
       remainigDelay s' = 0 /\
       showNextIndex s' = None) /\
    (gap < 0.01 ->
     exists s',
       updateAnimation readTransform p dt s = Some s' /\
       currentTitleIndex s' = None /\
       isAnimatingIn s' = false /\
       isAnimatingOut s' = false /\
       currentPosition s' = targetPosition s /\
       showNextIndex s' = Some next).
Proof.
  intros rt p dt s cur next el Hc Hel Hin Hout Hnext gap.
  assert (Hne : titleElements s <> []).
  { intros E. rewrite E in Hel. unfold at_ in Hel.
    destruct (cur <? 0)%Z; [discriminate|].
    destruct (Z.to_nat cur); discriminate. }
  split; intros Hgap; unfold updateAnimation;
    destruct (titleElements s) as [|e l] eqn:Et; try contradiction;
    rewrite Hc, Hel, Hin; simpl andb; cbv iota; cbv zeta; fold gap.
  - replace (JS.lt gap 0.01) with false
      by (symmetry; apply JSFacts.lt_false; lra).
    replace (JS.lt gap 0.1) with true
      by (symmetry; apply JSFacts.lt_spec; lra).
    cbn [showNextIndex isAnimatingOut]. rewrite Hnext, Hout. simpl andb.
    cbv iota.
    rewrite TitleFacts.showTitle_fresh by reflexivity.
    eexists; split; [reflexivity|]. simpl. repeat split.
  - replace (JS.lt gap 0.01) with true
      by (symmetry; apply JSFacts.lt_spec; lra).
    unfold settle. cbn [isAnimatingOut]. rewrite Hout.
    cbn [showNextIndex isAnimatingOut isAnimatingIn]. rewrite Hnext.
    simpl andb. cbv iota.
    eexists; split; [reflexivity|]. simpl. repeat split; assumption.
Qed.

Lemma queued_title_takes_over_witness :
  let s := {| currentTitleIndex := Some 0%Z;
              isAnimatingIn := false;
              isAnimatingOut := true;
              currentPosition := -99.95;
              targetPosition := -100;
              exitDirection := top;
              titleElements := [Samples.link; Samples.link];
              remainigDelay := 0;
              showNextIndex := Some 1%Z |} in
  (at_ (titleElements s) 0 = Some Samples.link /\
   0.01 <= Rabs (targetPosition s - currentPosition s) < 0.1) /\
  exists s',
    updateAnimation Samples.readBack params 1 s = Some s' /\
    currentTitleIndex s' = Some 1%Z /\
    showNextIndex s' = None.
Proof.
  intros s.
  assert (Hgap : 0.01 <= Rabs (targetPosition s - currentPosition s) < 0.1).
  { simpl. rewrite Rabs_left by lra. lra. }
  split; [split; [reflexivity | exact Hgap]|].
  destruct (queued_title_takes_over Samples.readBack params 1 s 0 1
              Samples.link eq_refl eq_refl eq_refl eq_refl eq_refl)
    as (Htake & _).
  destruct (Htake Hgap) as (s' & Hrun & Hcur & _ & _ & _ & _ & _ & Hq).
  exists s'. split; [exact Hrun|]. split; [exact Hcur | exact Hq].
Defined.

End TitleChainFacts.

(* ================================================================== *)
(** * The index counter: slots, rounding and the end of a transition   *)
(* ================================================================== *)

Module IndexSlotFacts.

Import Index.

Lemma floor_shift (x : R) (k : Z) :
  IZR k <= x < IZR k + 1 -> JS.Math_floor x = k.
Proof.
  intros H; unfold JS.Math_floor; symmetry.
  apply Int_part_spec; lra.
Qed.

Lemma floor_bounds (x : R) :
  IZR (JS.Math_floor x) <= x < IZR (JS.Math_floor x) + 1.
Proof.
  unfold JS.Math_floor. destruct (base_Int_part x) as [H1 H2]. lra.
Qed.

Lemma floor_monotone (x y : R) :
  x <= y -> (JS.Math_floor x <= JS.Math_floor y)%Z.
Proof.
  intros Hxy.
  pose proof (floor_bounds x) as Hx. pose proof (floor_bounds y) as Hy.
  assert (H : IZR (JS.Math_floor x) < IZR (JS.Math_floor y + 1))
    by (rewrite plus_IZR; lra).
  apply lt_IZR in H. lia.
Qed.

(** The slot of a position, as one floor: [floor(position / (width +
    gap) + 1/2)], wherever that is not negative. *)
Lemma newTargetIndex_rounds (pos w g : R) :
  0 < w + g ->
  - (w + g) / 2 <= pos ->
  newTargetIndex pos w g = JS.Math_floor (pos / (w + g) + 1 / 2).
Proof.
  intros HT Hpos. unfold newTargetIndex.
  assert (Hinv : 0 < / (w + g)) by (apply Rinv_0_lt_compat; lra).
  assert (Hunit : (w + g) * / (w + g) = 1) by (apply Rinv_r; lra).
  destruct (JS.ge pos (w / 2 + g / 2)) eqn:E.
  - apply JSFacts.ge_spec in E.
    pose proof (floor_bounds ((pos - (w / 2 + g / 2)) / (w + g))) as Hb.
    set (k := JS.Math_floor ((pos - (w / 2 + g / 2)) / (w + g))) in *.
    symmetry. apply floor_shift. rewrite plus_IZR.
    replace (pos / (w + g) + 1 / 2)
      with ((pos - (w / 2 + g / 2)) / (w + g) + 1).
    + lra.
    + unfold Rdiv. 
      replace ((pos - (w * / 2 + g * / 2)) * / (w + g))
        with (pos * / (w + g) - / 2 * ((w + g) * / (w + g))) by ring.
      rewrite Hunit. lra.
  - apply JSFacts.ge_false in E.
    symmetry. apply floor_shift. simpl.
    assert (Hhi : pos * / (w + g) < / 2 * ((w + g) * / (w + g))).
    { replace (/ 2 * ((w + g) * / (w + g)))
        with ((w / 2 + g / 2) * / (w + g)) by (unfold Rdiv; ring).
      apply Rmult_lt_compat_r; lra. }
    assert (Hlo : - / 2 * ((w + g) * / (w + g)) <= pos * / (w + g)).
    { replace (- / 2 * ((w + g) * / (w + g)))
        with (- (w + g) / 2 * / (w + g)) by (unfold Rdiv; ring).
      apply Rmult_le_compat_r; lra. }
    rewrite Hunit in Hhi, Hlo. unfold Rdiv. lra.
Qed.

(** X15.  With [width + gap > 0] the slot index derived from a position
    is never negative and never decreases when the position grows, and
    at the resting position of slot [k], [k * (width + gap)], it is
    [k]. *)
Theorem newTargetIndex_slots :
  forall (w g : R),
    0 < w + g ->
    (forall pos : R, (0 <= newTargetIndex pos w g)%Z) /\
    (forall pos1 pos2 : R,
        pos1 <= pos2 ->
        (newTargetIndex pos1 w g <= newTargetIndex pos2 w g)%Z) /\
    (forall k : Z, (0 <= k)%Z -> newTargetIndex (IZR k * (w + g)) w g = k).
Proof.
  intros w g HT.
  assert (Hinv : 0 < / (w + g)) by (apply Rinv_0_lt_compat; lra).
  assert (Hnonneg : forall pos, (0 <= newTargetIndex pos w g)%Z).
  { intros pos; unfold newTargetIndex.
    destruct (JS.ge pos (w / 2 + g / 2)) eqn:E; [|lia].
    apply JSFacts.ge_spec in E.
    assert (H0 : (JS.Math_floor 0 <=
                  JS.Math_floor ((pos - (w / 2 + g / 2)) / (w + g)))%Z).
    { apply floor_monotone. apply Rmult_le_pos; lra. }
    rewrite (floor_shift 0 0) in H0 by (simpl; lra). lia. }
  split; [exact Hnonneg|]. split.
  - intros pos1 pos2 Hle. unfold newTargetIndex.
    destruct (JS.ge pos1 (w / 2 + g / 2)) eqn:E1.
    + apply JSFacts.ge_spec in E1.
      replace (JS.ge pos2 (w / 2 + g / 2)) with true
        by (symmetry; apply JSFacts.ge_spec; lra).
      apply Z.add_le_mono_l. apply floor_monotone.
      apply Rmult_le_compat_r; lra.
    + apply (Hnonneg pos2).
  - intros k Hk.
    rewrite newTargetIndex_rounds; [|exact HT|].
    + apply floor_shift.
      replace (IZR k * (w + g) / (w + g)) with (IZR k); [lra|].
      unfold Rdiv. rewrite Rmult_assoc, Rinv_r by lra. ring.
    + apply IZR_le in Hk. nra.
Qed.

Lemma newTargetIndex_slots_witness :
  0 < 378 + 30 /\
  newTargetIndex (2 * (378 + 30)) 378 30 = 2%Z.
Proof.
  assert (HT : 0 < 378 + 30) by lra.
  split; [exact HT|].
  destruct (newTargetIndex_slots 378 30 HT) as (_ & _ & H).
  apply (H 2%Z). discriminate.
Defined.

(** X16.  [getCurrentIndex()] returns the focused slot of an active zoom;
    with the zoom inactive, [maskWidth + maskGap > 0] and a smoothed
    position not below [-(maskWidth + maskGap) / 2], it returns the slot
    the index counter derives from that position, the target the counter
    holds after [render()]. *)
Theorem getCurrentIndex_agrees_with_counter :
  forall (c : Carousel.T),
    let d := Carousel.scaledDimensions (Carousel.config c) in
    let w := Carousel.maskWidth d in
    let g := Carousel.maskGap d in
    let pos := Carousel.smoothPosition (Carousel.state c) in
    (Zoom.isActive (Zoom.state (Carousel.zoomSystem c)) = true ->
     Layout.getCurrentIndex c =
       Zoom.imageIndex (Zoom.state (Carousel.zoomSystem c))) /\
    (Zoom.isActive (Zoom.state (Carousel.zoomSystem c)) = false ->
     0 < w + g ->
     - (w + g) / 2 <= pos ->
     Layout.getCurrentIndex c = Some (newTargetIndex pos w g) /\
     (Carousel.imagesLength c <> 0%Z ->
      Carousel.showIndex (Carousel.features (Carousel.config c)) = true ->
      Layout.getCurrentIndex c =
        Some (targetIndex (Carousel.indexAnimation (Carousel.renderIndex c))))).
Proof.
  intros c d w g pos. unfold Layout.getCurrentIndex, Zoom.isActive_.
  split; intros Ha; rewrite Ha; [reflexivity|].
  intros HT Hpos.
  assert (E : Some (JS.Math_round (pos / (w + g))) =
              Some (newTargetIndex pos w g)).
  { f_equal. rewrite newTargetIndex_rounds by assumption. reflexivity. }
  split; [exact E|].
  intros Hn Hshow. 
  change (Some (JS.Math_round (pos / (w + g))) =
          Some (targetIndex (Carousel.indexAnimation (Carousel.renderIndex c)))).
  rewrite E. f_equal.
  unfold Carousel.renderIndex.
  apply Z.eqb_neq in Hn; rewrite Hn, Hshow. simpl Carousel.indexAnimation.
  symmetry; apply IndexFacts.updateIndex_targetIndex.
Qed.

Lemma getCurrentIndex_agrees_with_counter_witness :
  let c := Samples.flung in
  (Zoom.isActive (Zoom.state (Carousel.zoomSystem c)) = false /\
   0 < 378 + 30 /\
   - (378 + 30) / 2 <= Carousel.smoothPosition (Carousel.state c)) /\
  Layout.getCurrentIndex c =
    Some (newTargetIndex (Carousel.smoothPosition (Carousel.state c)) 378 30).
Proof.
  intros c.
  destruct IndexFacts.flung_position as (_ & Hs0 & _).
  assert (HT : 0 < 378 + 30) by lra.
  assert (Hpos : - (378 + 30) / 2
                 <= Carousel.smoothPosition (Carousel.state c))
    by (unfold c; lra).
  split; [split; [reflexivity | split; [exact HT | exact Hpos]]|].
  destruct (getCurrentIndex_agrees_with_counter c) as (_ & H).
  exact (proj1 (H eq_refl HT Hpos)).
Defined.

(** X17.  A transition of the counter ends at rest.  In the call that
    brings the progress to 1 the offset becomes exactly 0 (snap style:
    [snapOffset]; smooth and clipped styles: [offset]); in the smooth and
    clipped styles the next call clears [isTransitioning], and from then
    on further calls change nothing. *)
Theorem index_transition_ends_at_rest :
  forall (c : Config) (s : State),
    match style c with
    | snap =>
        snapProgress s < 1 ->
        1 <= snapProgress s + snap_animationSpeed (snapConfig c) ->
        let s' := advance c s in
        snapProgress s' = 1 /\ snapOffset s' = 0 /\ advance c s' = s'
    | _ =>
        isTransitioning s = true ->
        transitionProgress s < 1 ->
        1 <= transitionProgress s + animationSpeed c ->
        let s' := advance c s in
        let s'' := advance c s' in
        transitionProgress s' = 1 /\ offset s' = 0 /\
        isTransitioning s'' = false /\ offset s'' = 0 /\
        advance c s'' = s''
    end.
Proof.
  intros c s.
  assert (Hsc : forall c s,
             style c <> snap ->
             isTransitioning s = true ->
             transitionProgress s < 1 ->
             1 <= transitionProgress s + animationSpeed c ->
             let s' := advance c s in
             let s'' := advance c s' in
             transitionProgress s' = 1 /\ offset s' = 0 /\
             isTransitioning s'' = false /\ offset s'' = 0 /\
             advance c s'' = s'').
  { clear c s. intros c s Hst Ht Hp Hreach s' s''.
    assert (Hadv : forall x, advance c x = updateSmoothOrClippedProgress c x).
    { intros x; unfold advance, isSnap. destruct (style c); congruence. }
    assert (E' : transitionProgress s' = 1 /\ offset s' = 0
                 /\ isTransitioning s' = true).
    { unfold s'; rewrite Hadv; unfold updateSmoothOrClippedProgress.
      rewrite Ht; simpl negb; cbv iota.
      replace (JS.lt (transitionProgress s) 1) with true
        by (symmetry; now apply JSFacts.lt_spec).
      cbn [transitionProgress offset isTransitioning].
      rewrite Rmin_left by exact Hreach.
      split; [reflexivity|]. split; [|reflexivity].
      unfold easeOutCubic. ring. }
    destruct E' as (E1 & E2 & E3).
    assert (E'' : isTransitioning s'' = false /\ offset s'' = 0).
    { unfold s''; rewrite Hadv; unfold updateSmoothOrClippedProgress.
      rewrite E3, E1; simpl negb; cbv iota.
      replace (JS.lt 1 1) with false
        by (symmetry; apply JSFacts.lt_false; lra).
      split; reflexivity. }
    destruct E'' as (E4 & E5).
    repeat split; auto.
    rewrite Hadv; unfold updateSmoothOrClippedProgress.
    now rewrite E4. }
  destruct (style c) eqn:Hstyle.
  - intros Hp Hreach s'.
    assert (Hadv : forall x, advance c x = updateSnapProgress c x)
      by (intros x; unfold advance, isSnap; now rewrite Hstyle).
    assert (E : snapProgress s' = 1 /\ snapOffset s' = 0).
    { unfold s'; rewrite Hadv; unfold updateSnapProgress.
      replace (JS.lt (snapProgress s) 1) with true
        by (symmetry; now apply JSFacts.lt_spec).
      cbn [snapProgress snapOffset].
      rewrite Rmin_left by exact Hreach. split; [reflexivity | ring]. }
    destruct E as (E1 & E2). repeat split; auto.
    rewrite Hadv; unfold updateSnapProgress. rewrite E1.
    replace (JS.lt 1 1) with false
      by (symmetry; apply JSFacts.lt_false; lra).
    reflexivity.
  - apply Hsc; congruence.
  - apply Hsc; congruence.
Qed.

Lemma index_transition_ends_at_rest_witness :
  let c := config clipped in
  let s := {| currentIndex := 0; targetIndex := 1;
              snapOffset := 0; snapProgress := 1;
              offset := 0.5; transitionProgress := 0.995; opacity := 1;
              lastDirection := 1; isTransitioning := true |} in
  (isTransitioning s = true /\
   transitionProgress s < 1 /\
   1 <= transitionProgress s + animationSpeed c) /\
  offset (advance c s) = 0 /\
  isTransitioning (advance c (advance c s)) = false.
Proof.
  intros c s.
  assert (Hp : transitionProgress s < 1) by (simpl; lra).
  assert (Hr : 1 <= transitionProgress s + animationSpeed c)
    by (unfold c, s, animationSpeed; simpl; lra).
  split; [split; [reflexivity | split; [exact Hp | exact Hr]]|].
  destruct (index_transition_ends_at_rest c s eq_refl Hp Hr)
    as (_ & Ho & Ht & _).
  split; [exact Ho | exact Ht].
Defined.

End IndexSlotFacts.

(* ================================================================== *)
(** * The carousel: velocity, bounds, targets and the smoothed copy    *)
(* ================================================================== *)

Module PhysicsFacts.

Import Carousel.

(** X18.  [addVelocity] never leaves a velocity beyond [maxVelocity] in
    either direction, adds the amount exactly when the sum is within that
    range, and touches nothing but the velocity. *)
Theorem addVelocity_clamps :
  forall (a : Animations) (amount : R) (s : State),
    0 <= maxVelocity a ->
    let s' := addVelocity a amount s in
    - maxVelocity a <= velocity s' <= maxVelocity a /\
    (- maxVelocity a <= velocity s + amount <= maxVelocity a ->
     velocity s' = velocity s + amount) /\
    (maxVelocity a <= velocity s + amount -> velocity s' = maxVelocity a) /\
    (velocity s + amount <= - maxVelocity a ->
     velocity s' = - maxVelocity a) /\
    s' = setVelocity (velocity s') s.
Proof.
  intros a amount s Hmax s'. unfold s', addVelocity; simpl.
  split; [|split; [|split; [|split; [|reflexivity]]]].
  - split; [apply Rmax_l|].
    apply Rmax_lub; [lra | apply Rmin_l].
  - intros [Hlo Hhi].
    rewrite Rmin_right by exact Hhi. apply Rmax_right; exact Hlo.
  - intros Hhi. rewrite Rmin_left by exact Hhi. apply Rmax_right; lra.
  - intros Hlo. rewrite Rmin_right by lra. apply Rmax_left; exact Hlo.
Qed.

Lemma addVelocity_clamps_witness :
  0 <= maxVelocity defaultAnimations /\
  velocity (addVelocity defaultAnimations 1000 (state Samples.carousel3))
  <= maxVelocity defaultAnimations.
Proof.
  assert (H : 0 <= maxVelocity defaultAnimations) by (simpl; lra).
  split; [exact H|].
  apply (addVelocity_clamps defaultAnimations 1000
                            (state Samples.carousel3) H).
Defined.

(** X19.  With at least one image and [maskWidth + maskGap >= 0],
    [calculateBoundaries] sets the bounds to
    [0, (n - 1) * (maskWidth + maskGap)], brings the position inside them
    (leaving it alone when it already is), puts the smoothed position on
    the position, and changes nothing when run again. *)
Theorem calculateBoundaries_establishes_bounds :
  forall (d : ScaledDimensions) (nImages : Z) (s : State),
    (1 <= nImages)%Z ->
    0 <= maskWidth d + maskGap d ->
    let s' := calculateBoundaries d nImages s in
    minScroll s' = 0 /\
    maxScroll s' = (IZR nImages - 1) * (maskWidth d + maskGap d) /\
    minScroll s' <= currentPosition s' <= maxScroll s' /\
    smoothPosition s' = currentPosition s' /\
    (0 <= currentPosition s <= maxScroll s' ->
     currentPosition s' = currentPosition s) /\
    calculateBoundaries d nImages s' = s'.
Proof.
  intros d n s Hn Hw s'.
  set (hi := (IZR n - 1) * (maskWidth d + maskGap d)).
  assert (Hhi : 0 <= hi).
  { apply IZR_le in Hn. unfold hi. apply Rmult_le_pos; lra. }
  assert (Ec : currentPosition s' = Rmax 0 (Rmin hi (currentPosition s)))
    by reflexivity.
  assert (Hin : 0 <= currentPosition s' <= hi).
  { rewrite Ec. split; [apply Rmax_l|].
    apply Rmax_lub; [exact Hhi | apply Rmin_l]. }
  split; [reflexivity|]. split; [reflexivity|].
  split; [exact Hin|]. split; [reflexivity|]. split.
  - intros [H0 H1]. rewrite Ec.
    rewrite Rmin_right by exact H1. apply Rmax_right; exact H0.
  - unfold s', calculateBoundaries. simpl. fold hi.
    rewrite Ec in Hin.
    set (x := Rmax 0 (Rmin hi (currentPosition s))) in *.
    rewrite (Rmin_right hi x) by lra.
    rewrite (Rmax_right 0 x) by lra. reflexivity.
Qed.

Lemma calculateBoundaries_establishes_bounds_witness :
  ((1 <= 3)%Z /\ 0 <= maskWidth defaultDimensions + maskGap defaultDimensions)
  /\ maxScroll (calculateBoundaries defaultDimensions 3 initialState)
     = (3 - 1) * (378 + 30).
Proof.
  assert (Hn : (1 <= 3)%Z) by discriminate.
  assert (Hw : 0 <= maskWidth defaultDimensions + maskGap defaultDimensions)
    by (simpl; lra).
  split; [split; [exact Hn | exact Hw]|].
  apply (calculateBoundaries_establishes_bounds defaultDimensions 3
                                                initialState Hn Hw).
Defined.




(** X22.  A tick always completes, whatever the state, and works on the
    five systems and the scroll state only: configuration, images, index
    counter and console are as before, and its scroll state is the one
    [updateSliderMotion] computes from the scroll state alone, with
    [dt = deltaTime / timingNormalizer]. *)
Theorem updateMotion_completes :
  forall (readTransform : Title.Transform -> option R)
         (deltaTime : R) (c : T),
    exists c',
      updateMotion readTransform deltaTime c = Some c' /\
      state c' =
        updateSliderMotion (animations (config c))
          (deltaTime / timingNormalizer (animations (config c))) (state c) /\
      config c' = config c /\
      images c' = images c /\
      indexAnimation c' = indexAnimation c /\
      console c' = console c.
Proof.
  intros rt deltaTime c. unfold updateMotion; cbv zeta.
  set (dt := deltaTime / timingNormalizer (animations (config c))).
  set (c3 := withCrossAnimation _ _).
  assert (Hframe : state c3 = state c /\ config c3 = config c
                   /\ images c3 = images c
                   /\ indexAnimation c3 = indexAnimation c
                   /\ console c3 = console c).
  { unfold c3, syncCrosses, updateZoomAndMiniSlider.
    repeat match goal with
           | |- context [if ?b then _ else _] => destruct b
           end; simpl; auto. }
  destruct Hframe as (Hs & Hc & Hi & Hx & Hl).
  destruct (titleAnimation c3) as [t|].
  - destruct (showTitles (features (config c3))).
    + destruct (TitleFacts.updateAnimation_total rt Title.params dt t)
        as [t' ->].
      eexists; split; [reflexivity|].
      unfold withState, withTitleAnimation.
      cbn [state config images indexAnimation console].
      rewrite Hs, Hc, Hi, Hx, Hl; auto.
    + eexists; split; [reflexivity|].
      unfold withState. cbn [state config images indexAnimation console].
      rewrite Hs, Hc, Hi, Hx, Hl; auto.
  - eexists; split; [reflexivity|].
    unfold withState. cbn [state config images indexAnimation console].
    rewrite Hs, Hc, Hi, Hx, Hl; auto.
Qed.

(** X23.  The frame clock keeps every proportional closing from
    overshooting.  Under the default configuration, for timestamps that
    do not go backwards, the step [dt] handed to the systems lies in
    [0, 2], and with it the closing factors of the stage (on the zoom's
    slowed step), of the zoom, of the crosses and of the titles all lie
    in [0, 1]. *)
Theorem frame_clamp_bounds_closing_factors :
  forall (timestamp lastTimestamp : R),
    lastTimestamp <= timestamp ->
    let a := defaultAnimations in
    let dt := Layout.frameDelta a timestamp lastTimestamp
              / timingNormalizer a in
    0 <= dt <= 2 /\
    0 <= Stage.imageSmoothing Stage.params * (dt * 0.8) <= 1 /\
    0 <= Stage.maskSmoothing Stage.params * (dt * 0.8) <= 1 /\
    0 <= Zoom.transitionSmoothing Zoom.params * dt <= 1 /\
    0 <= Cross.smoothing Cross.params * dt <= 1 /\
    0 <= Cross.rotationSmoothing Cross.params * dt <= 1 /\
    0 <= Title.show (Title.smoothing Title.params) * dt <= 1 /\
    0 <= Title.hide (Title.smoothing Title.params) * dt <= 1.
Proof.
  intros ts last Hle a dt.
  assert (Hdt : 0 <= dt <= 2).
  { unfold dt, Layout.frameDelta; simpl.
    assert (H0 : 0 <= Rmin (ts - last) 32) by (apply Rmin_glb; lra).
    pose proof (Rmin_r (ts - last) 32) as H1.
    split; lra. }
  split; [exact Hdt|]. simpl. repeat split; lra.
Qed.

Lemma frame_clamp_bounds_closing_factors_witness :
  0 <= 1000 /\
  Layout.frameDelta defaultAnimations 1000 0
  / timingNormalizer defaultAnimations <= 2.
Proof.
  assert (H : 0 <= 1000) by lra.
  split; [exact H|].
  apply (frame_clamp_bounds_closing_factors 1000 0 H).
Defined.

End PhysicsFacts.

(* ================================================================== *)
(** * Hit testing and the fullscreen rectangle                         *)
(* ================================================================== *)

Module LayoutFacts.

Import Layout.

(** The test of [getImageIndexAtPoint] is [isPointInRect] on the mask
    rectangle of the slot. *)
Lemma pointInSlot_is_mask_hit (d : Carousel.ScaledDimensions) (win : Window)
      (smoothPosition px py : R) (i : Z) :
  pointInSlot d win smoothPosition px py i =
  isPointInRect px py (getMaskRect d win smoothPosition i).
Proof.
  unfold pointInSlot, isPointInRect, getMaskRect; simpl.
  replace (innerHeight win / 2 - Carousel.maskHeight d / 2
           + Carousel.maskHeight d)
    with (innerHeight win / 2 + Carousel.maskHeight d / 2) by lra.
  reflexivity.
Qed.

Lemma find_first_from (p : Z -> bool) (n : nat) :
  forall a : nat,
    match find p (map Z.of_nat (seq a n)) with
    | Some r =>
        (Z.of_nat a <= r < Z.of_nat (a + n))%Z /\ p r = true /\
        forall i, (Z.of_nat a <= i < r)%Z -> p i = false
    | None => forall i, (Z.of_nat a <= i < Z.of_nat (a + n))%Z -> p i = false
    end.
Proof.
  induction n as [|n IH]; intros a; simpl.
  - intros i Hi; lia.
  - destruct (p (Z.of_nat a)) eqn:Ea.
    + split; [lia|]. split; [exact Ea|]. intros i Hi; lia.
    + specialize (IH (S a)).
      destruct (find p (map Z.of_nat (seq (S a) n))) as [r|].
      * destruct IH as (Hr & Hp & Hbefore).
        split; [lia|]. split; [exact Hp|].
        intros i Hi.
        destruct (Z.eq_dec i (Z.of_nat a)) as [->|Hne]; [exact Ea|].
        apply Hbefore; lia.
      * intros i Hi.
        destruct (Z.eq_dec i (Z.of_nat a)) as [->|Hne]; [exact Ea|].
        apply IH; lia.
Qed.

(** X24.  [getImageIndexAtPoint] returns [-1] exactly when no mask
    rectangle of the carousel holds the point, and otherwise the first
    slot whose mask rectangle holds it; with a positive gap between masks
    of non-negative width the rectangles do not overlap, and a point
    inside the mask of slot [i] gives [i]. *)
Theorem getImageIndexAtPoint_finds_the_slot :
  forall (d : Carousel.ScaledDimensions) (win : Window)
         (smoothPosition : R) (nImages : nat) (px py : R),
    let hit i := isPointInRect px py (getMaskRect d win smoothPosition i) in
    let r := getImageIndexAtPoint d win smoothPosition nImages px py in
    ((r = (-1)%Z /\
      forall i, (0 <= i < Z.of_nat nImages)%Z -> hit i = false)
     \/ ((0 <= r < Z.of_nat nImages)%Z /\ hit r = true /\
         forall i, (0 <= i < r)%Z -> hit i = false)) /\
    (0 < Carousel.maskGap d -> 0 <= Carousel.maskWidth d ->
     forall i, (0 <= i < Z.of_nat nImages)%Z -> hit i = true -> r = i).
Proof.
  intros d win sp n px py hit r.
  assert (Hhit : forall i, pointInSlot d win sp px py i = hit i)
    by (intros i; apply pointInSlot_is_mask_hit).
  pose proof (find_first_from (pointInSlot d win sp px py) n 0) as Hfind.
  assert (Hcases :
            (r = (-1)%Z /\
             forall i, (0 <= i < Z.of_nat n)%Z -> hit i = false)
            \/ ((0 <= r < Z.of_nat n)%Z /\ hit r = true /\
                forall i, (0 <= i < r)%Z -> hit i = false)).
  { unfold r, getImageIndexAtPoint.
    destruct (find _ _) as [x|].
    - right. destruct Hfind as (Hx & Hp & Hb).
      split; [simpl in Hx; lia|]. split; [now rewrite <- Hhit|].
      intros i Hi. rewrite <- Hhit. apply Hb; simpl; lia.
    - left. split; [reflexivity|].
      intros i Hi. rewrite <- Hhit. apply Hfind; simpl; lia. }
  split; [exact Hcases|].
  intros Hgap Hw i Hi Hi_hit.
  assert (Hdisjoint : forall j k : Z,
             (j < k)%Z -> hit j = true -> hit k = true -> False).
  { intros j k Hjk Hj Hk.
    unfold hit, isPointInRect, getMaskRect in Hj, Hk; simpl in Hj, Hk.
    apply andb_prop in Hj; destruct Hj as (Hj & _).
    apply andb_prop in Hj; destruct Hj as (Hj & _).
    apply andb_prop in Hj; destruct Hj as (_ & Hj).
    apply andb_prop in Hk; destruct Hk as (Hk & _).
    apply andb_prop in Hk; destruct Hk as (Hk & _).
    apply andb_prop in Hk; destruct Hk as (Hk & _).
    apply JSFacts.ge_spec in Hj. apply JSFacts.ge_spec in Hk.
    assert (Hjk' : IZR j + 1 <= IZR k).
    { assert (H : (j + 1 <= k)%Z) by lia.
      apply IZR_le in H. rewrite plus_IZR in H. exact H. }
    set (T := Carousel.maskWidth d + Carousel.maskGap d) in *.
    assert (HT0 : 0 < T) by (unfold T; lra).
    assert (HT : IZR j * T + T <= IZR k * T) by nra.
    unfold T in *. lra. }
  destruct Hcases as [(_ & Hnone)|(Hr & Hr_hit & Hbefore)].
  - rewrite (Hnone i Hi) in Hi_hit; discriminate.
  - destruct (Z.lt_trichotomy r i) as [Hlt|[Heq|Hgt]]; [|exact Heq|].
    + exfalso; exact (Hdisjoint r i Hlt Hr_hit Hi_hit).
    + exfalso; exact (Hdisjoint i r Hgt Hi_hit Hr_hit).
Qed.

Lemma getImageIndexAtPoint_finds_the_slot_witness :
  let d := Carousel.defaultDimensions in
  let win := {| innerWidth := 1728; innerHeight := 1000 |} in
  (0 < Carousel.maskGap d /\ 0 <= Carousel.maskWidth d /\
   (0 <= 1 < Z.of_nat 3)%Z /\
   isPointInRect 1272 500 (getMaskRect d win 0 1) = true) /\
  getImageIndexAtPoint d win 0 3 1272 500 = 1%Z.
Proof.
  intros d win.
  assert (Hgap : 0 < Carousel.maskGap d) by (simpl; lra).
  assert (Hw : 0 <= Carousel.maskWidth d) by (simpl; lra).
  assert (Hi : (0 <= 1 < Z.of_nat 3)%Z) by (split; [discriminate | reflexivity]).
  assert (Hhit : isPointInRect 1272 500 (getMaskRect d win 0 1) = true).
  { unfold isPointInRect, getMaskRect, JS.le; simpl.
    repeat (apply andb_true_intro; split); apply JSFacts.ge_spec; lra. }
  split; [repeat split; try exact Hhit; try lra; try discriminate;
          simpl; lra|].
  destruct (getImageIndexAtPoint_finds_the_slot d win 0 3 1272 500)
    as (_ & H).
  exact (H Hgap Hw 1%Z Hi Hhit).
Defined.



End LayoutFacts.

(* ================================================================== *)
(** * Keyboard, wheel and pointer handlers                             *)
(* ================================================================== *)

Module InputFacts.

Import Carousel Input.

Lemma hideTitle_defined (readTransform : Title.Transform -> option R)
      (t : Title.State) :
  (forall cur, Title.currentTitleIndex t = Some cur ->
               Title.at_ (Title.titleElements t) cur <> None) ->
  exists t', Title.hideTitle readTransform t = Some t'.
Proof.
  intros H. unfold Title.hideTitle.
  destruct (Title.currentTitleIndex t) as [cur|]; [|eauto].
  specialize (H cur eq_refl).
  destruct (Title.at_ (Title.titleElements t) cur); [eauto | contradiction].
Qed.

(** A title method reaches the title system only. *)
Lemma tryOnTitle_frame (f : Title.State -> option Title.State) (c c1 : T) :
  tryOnTitle f c = Some c1 ->
  config c1 = config c /\ state c1 = state c /\ images c1 = images c /\
  zoomSystem c1 = zoomSystem c /\
  miniSliderSystem c1 = miniSliderSystem c /\
  crossAnimation c1 = crossAnimation c.
Proof.
  unfold tryOnTitle.
  destruct (titleAnimation c) as [t|]; [|intros E; inversion E; tauto].
  destruct (showTitles (features (config c)));
    [|intros E; inversion E; tauto].
  destruct (f t) as [t'|]; [|discriminate].
  intros E; inversion E; subst c1. simpl. tauto.
Qed.

Lemma onTitle_frame (f : Title.State -> Title.State) (c : T) :
  config (onTitle f c) = config c /\ state (onTitle f c) = state c /\
  images (onTitle f c) = images c /\
  zoomSystem (onTitle f c) = zoomSystem c /\
  miniSliderSystem (onTitle f c) = miniSliderSystem c /\
  crossAnimation (onTitle f c) = crossAnimation c.
Proof.
  unfold onTitle.
  destruct (titleAnimation c) as [t|]; [|tauto].
  destruct (showTitles (features (config c))); simpl; tauto.
Qed.

Lemma tryOnTitle_hideTitle_defined
      (readTransform : Title.Transform -> option R) (c : T) :
  titleLinkExists c ->
  exists c1, tryOnTitle (Title.hideTitle readTransform) c = Some c1.
Proof.
  intros Hwf. unfold tryOnTitle.
  destruct (titleAnimation c) as [t|] eqn:Et; [|eauto].
  destruct (showTitles (features (config c))); [|eauto].
  destruct (hideTitle_defined readTransform t) as [t' Ht'].
  - intros cur Hcur. exact (Hwf t cur Et Hcur).
  - rewrite Ht'. eauto.
Qed.

(** Cancelling the queued title keeps the title that is showing. *)
Lemma onTitle_resetNextTitle_exists (c : T) :
  titleLinkExists c -> titleLinkExists (onTitle Title.resetNextTitle c).
Proof.
  intros Hwf t cur. unfold onTitle.
  destruct (titleAnimation c) as [t0|] eqn:Et.
  - destruct (showTitles (features (config c))).
    + simpl. intros E; inversion E; subst t. simpl.
      intros Hcur. exact (Hwf t0 cur Et Hcur).
    + rewrite Et. intros E; inversion E; subst t. apply Hwf, Et.
  - rewrite Et. discriminate.
Qed.

Lemma onTitle_resetNextTitle_queue (c : T) (t' : Title.State) :
  titleAnimation (onTitle Title.resetNextTitle c) = Some t' ->
  showTitles (features (config c)) = true ->
  Title.showNextIndex t' = None.
Proof.
  unfold onTitle.
  destruct (titleAnimation c) as [t0|] eqn:Et.
  - destruct (showTitles (features (config c))); [|discriminate].
    simpl. intros E _; inversion E; reflexivity.
  - rewrite Et. discriminate.
Qed.

Lemma hideTitle_queue (readTransform : Title.Transform -> option R)
      (t t' : Title.State) :
  Title.hideTitle readTransform t = Some t' ->
  Title.showNextIndex t' = Title.showNextIndex t.
Proof.
  unfold Title.hideTitle.
  destruct (Title.currentTitleIndex t) as [cur|];
    [|intros E; inversion E; reflexivity].
  destruct (Title.at_ (Title.titleElements t) cur); [|discriminate].
  intros E; inversion E; reflexivity.
Qed.

Section WithEnvironment.

Variable readTransform : Title.Transform -> option R.
Variable innerWidth : R.
Variable callbacks : Callbacks.

(** What the shared body of [slideRight] and [slideLeft] does. *)
Lemma slide_result (direction : R) (newIndex : Z) (c c' : T)
      (calls : list Call) :
  slide readTransform innerWidth callbacks direction newIndex c
  = Some (c', calls) ->
  Zoom.imageIndex (Zoom.state (zoomSystem c')) = Some newIndex /\
  calls = (if onSlide callbacks
           then [call_onSlide (Some newIndex) newIndex] else []) /\
  images c' = images c /\
  state c' =
    updateTargetPosition (scaledDimensions (config c)) innerWidth newIndex
                         (state c).
Proof.
  unfold slide.
  destruct (tryOnTitle (Title.hideTitle readTransform) c) as [c1|] eqn:E1;
    [|discriminate].
  destruct (tryOnTitle_frame _ _ _ E1) as (Hcfg & Hst & Him & Hz & _ & _).
  cbv zeta.
  match goal with
  | |- context [onTitle ?f ?x] =>
      pose proof (onTitle_frame f x) as (_ & Hst' & Him' & Hz' & _);
      set (c4 := onTitle f x) in *
  end.
  intros E; injection E as Ec Ecalls. subst c' calls.
  cbn [zoomSystem images state withCrossAnimation].
  rewrite Hst', Him', Hz'.
  cbn [zoomSystem images state config withState withZoomSystem].
  rewrite ZoomFacts.transitionToImage_focus, Hcfg, Hst, Him.
  repeat split; reflexivity.
Qed.

Lemma slide_defined (direction : R) (newIndex : Z) (c : T) :
  titleLinkExists c ->
  exists c' calls,
    slide readTransform innerWidth callbacks direction newIndex c
    = Some (c', calls).
Proof.
  intros Hwf. unfold slide.
  destruct (tryOnTitle_hideTitle_defined readTransform c Hwf) as [c1 E1].
  rewrite E1. eauto.
Qed.

(** X26.  [onSlide] is told the new index twice: [slideRight] and
    [slideLeft] read [zoomSystem.state.imageIndex] for the callback's
    first argument after [transitionToImage(newIndex)] has stored the new
    index there, so every call they make is
    [onSlide(newIndex, newIndex)]. *)
Theorem onSlide_receives_the_new_index_twice :
  forall (newIndex : Z) (c c' : T) (calls : list Call),
    slideRight readTransform innerWidth callbacks newIndex c
      = Some (c', calls) \/
    slideLeft readTransform innerWidth callbacks newIndex c
      = Some (c', calls) ->
    forall call : Call,
      In call calls -> call = call_onSlide (Some newIndex) newIndex.
Proof.
  intros newIndex c c' calls H call Hin.
  assert (Hcalls : calls = [] \/
                   calls = (if onSlide callbacks
                            then [call_onSlide (Some newIndex) newIndex]
                            else [])).
  { destruct H as [H|H]; [unfold slideRight in H | unfold slideLeft in H].
    - destruct (newIndex <? imagesLength c)%Z.
      + right. apply (slide_result _ _ _ _ _ H).
      + left. now inversion H.
    - destruct (newIndex >=? 0)%Z.
      + right. apply (slide_result _ _ _ _ _ H).
      + left. now inversion H. }
  destruct Hcalls as [E|E]; rewrite E in Hin; [contradiction|].
  destruct (onSlide callbacks); [|contradiction].
  destruct Hin as [Hin|[]]. now symmetry.
Qed.


(** X27.  In the zoomed view the arrow keys move the focus by one slot
    and never out of the strip: with the mini-slider in toMini mode, the
    zoom focused on a slot [i] of the strip and the showing title link in
    the document, a key press returns, leaves the focus on
    [max(0, min(n - 1, i + step))] ([step] is -1 for the left and down
    keys, +1 for the right and up keys, 0 for any other key); when the
    focus does not move (an edge, or another key) nothing at all changes
    and no callback runs; when it moves, the scroll state is the one
    [updateTargetPosition] computes for the new focus from the scroll
    state before the key press. *)
Theorem arrow_keys_keep_focus_in_range :
  forall (key : Key) (c : T) (i : Z),
    MiniSlider.isInToMiniMode (miniSliderSystem c) = true ->
    Zoom.imageIndex (Zoom.state (zoomSystem c)) = Some i ->
    (0 <= i < imagesLength c)%Z ->
    titleLinkExists c ->
    let step :=
      match key with
      | ArrowDown | Down | ArrowLeft | Left => (-1)%Z
      | ArrowUp | Up | ArrowRight | Right => 1%Z
      | OtherKey => 0%Z
      end in
    let j := Z.max 0 (Z.min (imagesLength c - 1) (i + step)) in
    exists (c' : T) (calls : list Call),
      handleKeyDown readTransform innerWidth callbacks key c
      = Some (c', calls) /\
      images c' = images c /\
      Zoom.imageIndex (Zoom.state (zoomSystem c')) = Some j /\
      (j = i -> c' = c /\ calls = []) /\
      (j <> i ->
       state c' =
         updateTargetPosition (scaledDimensions (config c)) innerWidth j
                              (state c)).
Proof.
  intros key c i Hmode Hi Hrange Hwf step j.
  assert (Hleft :
    step = (-1)%Z ->
    exists c' calls,
      slideLeft readTransform innerWidth callbacks (i - 1) c
      = Some (c', calls) /\
      images c' = images c /\
      Zoom.imageIndex (Zoom.state (zoomSystem c')) = Some j /\
      (j = i -> c' = c /\ calls = []) /\
      (j <> i ->
       state c' =
         updateTargetPosition (scaledDimensions (config c)) innerWidth j
                              (state c))).
  { intros Hstep. unfold slideLeft.
    destruct (i - 1 >=? 0)%Z eqn:E; rewrite Z.geb_leb in E.
    - apply Z.leb_le in E.
      assert (Hj : j = (i - 1)%Z) by (unfold j; lia).
      destruct (slide_defined (-1) (i - 1) c Hwf) as (c' & calls & Eslide).
      destruct (slide_result _ _ _ _ _ Eslide) as (Hf & _ & Him & Hst).
      exists c', calls. rewrite Hj.
      split; [exact Eslide|]. split; [exact Him|]. split; [exact Hf|].
      split; [intros; lia | intros _; exact Hst].
    - apply Z.leb_gt in E.
      assert (Hj : j = i) by (unfold j; lia).
      exists c, []. rewrite Hj.
      split; [reflexivity|]. split; [reflexivity|]. split; [exact Hi|].
      split; [intros _; split; reflexivity | intros N; now elim N]. }
  assert (Hright :
    step = 1%Z ->
    exists c' calls,
      slideRight readTransform innerWidth callbacks (i + 1) c
      = Some (c', calls) /\
      images c' = images c /\
      Zoom.imageIndex (Zoom.state (zoomSystem c')) = Some j /\
      (j = i -> c' = c /\ calls = []) /\
      (j <> i ->
       state c' =
         updateTargetPosition (scaledDimensions (config c)) innerWidth j
                              (state c))).
  { intros Hstep. unfold slideRight.
    destruct (i + 1 <? imagesLength c)%Z eqn:E.
    - apply Z.ltb_lt in E.
      assert (Hj : j = (i + 1)%Z) by (unfold j; lia).
      destruct (slide_defined 1 (i + 1) c Hwf) as (c' & calls & Eslide).
      destruct (slide_result _ _ _ _ _ Eslide) as (Hf & _ & Him & Hst).
      exists c', calls. rewrite Hj.
      split; [exact Eslide|]. split; [exact Him|]. split; [exact Hf|].
      split; [intros; lia | intros _; exact Hst].
    - apply Z.ltb_ge in E.
      assert (Hj : j = i) by (unfold j; lia).
      exists c, []. rewrite Hj.
      split; [reflexivity|]. split; [reflexivity|]. split; [exact Hi|].
      split; [intros _; split; reflexivity | intros N; now elim N]. }
  destruct key; unfold handleKeyDown; rewrite ?Hmode, ?Hi; cbn [JS.numZ];
    try (apply Hleft; reflexivity); try (apply Hright; reflexivity).
  assert (Hj : j = i) by (unfold j, step; lia).
  exists c, []. rewrite Hj.
  split; [reflexivity|]. split; [reflexivity|]. split; [exact Hi|].
  split; [intros _; split; reflexivity | intros N; now elim N].
Qed.

(** What leaving the zoom changes. *)
Lemma leaveZoom_result (c : T) :
  titleLinkExists c ->
  exists c',
    leaveZoom readTransform c = Some c' /\
    zoomSystem c' = Zoom.zoomOut (zoomSystem c) /\
    miniSliderSystem c' = MiniSlider.toSlider (miniSliderSystem c) /\
    state c' = state c /\ config c' = config c /\ images c' = images c /\
    (forall t', titleAnimation c' = Some t' ->
                exists t, titleAnimation c = Some t /\
                          Title.showNextIndex t' = Title.showNextIndex t).
Proof.
  intros Hwf. unfold leaveZoom. cbv zeta.
  match goal with
  | |- context [tryOnTitle ?f ?x] => set (c2 := x)
  end.
  assert (Hwf2 : titleLinkExists c2) by exact Hwf.
  destruct (tryOnTitle_hideTitle_defined readTransform c2 Hwf2) as [c' E].
  destruct (tryOnTitle_frame _ _ _ E) as (Hcfg & Hst & Him & Hz & Hm & _).
  exists c'. rewrite E, Hcfg, Hst, Him, Hz, Hm.
  repeat split; try reflexivity.
  intros t' Ht'. unfold tryOnTitle in E.
  change (titleAnimation c2) with (titleAnimation c) in E.
  change (config c2) with (config c) in E.
  destruct (titleAnimation c) as [t|] eqn:Et.
  - exists t. split; [reflexivity|].
    destruct (showTitles (features (config c))).
    + destruct (Title.hideTitle readTransform t) as [t1|] eqn:Eh;
        [|discriminate].
      injection E as E. subst c'. simpl in Ht'. injection Ht' as Ht'.
      subst t'. now apply hideTitle_queue with readTransform.
    + injection E as E. subst c'. unfold c2 in Ht'. simpl in Ht'.
      rewrite Et in Ht'. now injection Ht' as ->.
  - injection E as E. subst c'. unfold c2 in Ht'. simpl in Ht'.
    rewrite Et in Ht'. discriminate.
Qed.

(** X28.  The wheel cancels what was pending: whenever the showing
    title link is in the document, [handleWheel] returns, and afterwards
    there is no scroll target and (with titles enabled) no queued title,
    whichever branch ran; the positions and the images are untouched. *)
Theorem handleWheel_cancels_target_and_queued_title :
  forall (deltaX deltaY : R) (c : T),
    titleLinkExists c ->
    exists (c' : T) (calls : list Call),
      handleWheel readTransform callbacks deltaX deltaY c
      = Some (c', calls) /\
      targetPosition (state c') = None /\
      currentPosition (state c') = currentPosition (state c) /\
      smoothPosition (state c') = smoothPosition (state c) /\
      images c' = images c /\
      (forall t', titleAnimation c' = Some t' ->
                  showTitles (features (config c)) = true ->
                  Title.showNextIndex t' = None).
Proof.
  intros deltaX deltaY c Hwf. unfold handleWheel. cbv zeta.
  destruct (onTitle_frame Title.resetNextTitle c)
    as (Hcfg & Hst & Him & Hz & Hm & _).
  pose proof (onTitle_resetNextTitle_exists c Hwf) as Hwf1.
  pose proof (onTitle_resetNextTitle_queue c) as Hq.
  set (c1 := onTitle Title.resetNextTitle c) in *.
  set (c2 := withState (setTargetPosition None (state c1)) c1).
  assert (Hwf2 : titleLinkExists c2) by exact Hwf1.
  assert (Hpush : forall (x : T) (l : list Call) (a : Animations)
                         (amount : R),
    targetPosition (state x) = None ->
    currentPosition (state x) = currentPosition (state c) ->
    smoothPosition (state x) = smoothPosition (state c) ->
    images x = images c ->
    (forall t', titleAnimation x = Some t' ->
                showTitles (features (config c)) = true ->
                Title.showNextIndex t' = None) ->
    exists c' calls,
      Some (withState (addVelocity a amount (state x)) x, l)
      = Some (c', calls) /\
      targetPosition (state c') = None /\
      currentPosition (state c') = currentPosition (state c) /\
      smoothPosition (state c') = smoothPosition (state c) /\
      images c' = images c /\
      (forall t', titleAnimation c' = Some t' ->
                  showTitles (features (config c)) = true ->
                  Title.showNextIndex t' = None)).
  { intros x l a amount H1 H2 H3 H4 H5.
    eexists; eexists; split; [reflexivity|].
    simpl. repeat split; assumption. }
  assert (H2 : targetPosition (state c2) = None /\
               currentPosition (state c2) = currentPosition (state c) /\
               smoothPosition (state c2) = smoothPosition (state c) /\
               images c2 = images c /\
               (forall t', titleAnimation c2 = Some t' ->
                           showTitles (features (config c)) = true ->
                           Title.showNextIndex t' = None)).
  { unfold c2; simpl. rewrite Hst, Him. repeat split; try reflexivity.
    exact Hq. }
  destruct H2 as (T2 & P2 & S2 & I2 & Q2).
  destruct (Zoom.isActive (Zoom.state (zoomSystem c2)));
    [|apply Hpush; assumption].
  destruct (negb (Zoom.isZoomingOut (Zoom.state (zoomSystem c2)))
            && (Layout.checkScroll (animations (config c)) deltaY
                || Layout.checkScroll (animations (config c)) deltaX)).
  - destruct (leaveZoom_result c2 Hwf2)
      as (c3 & E3 & _ & _ & Hst3 & _ & Him3 & Hq3).
    rewrite E3.
    assert (Q3 : forall t', titleAnimation c3 = Some t' ->
                            showTitles (features (config c)) = true ->
                            Title.showNextIndex t' = None).
    { intros t' Ht' Hshow. destruct (Hq3 t' Ht') as (t & Ht & ->).
      now apply Q2. }
    destruct (Zoom.isZoomingOut (Zoom.state (zoomSystem c3))).
    + apply Hpush; rewrite ?Hst3, ?Him3; assumption.
    + eexists; eexists; split; [reflexivity|].
      rewrite Hst3, Him3. repeat split; assumption.
  - destruct (Zoom.isZoomingOut (Zoom.state (zoomSystem c2))).
    + apply Hpush; assumption.
    + eexists; eexists; split; [reflexivity|].
      repeat split; assumption.
Qed.


(** X30.  A drag starts from rest: after [handlePointerDown] at [x0], a
    move to [x1] no further than [minDragThreshold] away changes nothing
    (the reference point stays at [x0], so small moves add up); a move
    further away, made outside the zoomed view, marks the drag, moves
    the reference point to [x1] and sets the velocity to
    [(x0 - x1) * dragSensitivity] clamped to the maximal velocity, the
    press having zeroed it; unlike the wheel it keeps a pending scroll
    target. *)
Theorem drag_starts_from_rest :
  forall (x0 x1 : R) (c : T),
    let a := animations (config c) in
    let c0 := handlePointerDown x0 c in
    (Rabs (x0 - x1) <= minDragThreshold a ->
     handlePointerMove readTransform x1 c0 = Some c0) /\
    (minDragThreshold a < Rabs (x0 - x1) ->
     Zoom.isActive (Zoom.state (zoomSystem c)) = false ->
     exists c2 : T,
       handlePointerMove readTransform x1 c0 = Some c2 /\
       isDragging (state c2) = true /\
       lastPointerX (state c2) = x1 /\
       velocity (state c2) =
         Rmax (- maxVelocity a)
              (Rmin (maxVelocity a) (0 + (x0 - x1) * dragSensitivity a)) /\
       targetPosition (state c2) = targetPosition (state c) /\
       currentPosition (state c2) = currentPosition (state c) /\
       zoomSystem c2 = zoomSystem c /\
       miniSliderSystem c2 = miniSliderSystem c).
Proof.
  intros x0 x1 c a c0.
  assert (Hdown : isPointerDown (state c0) = true) by reflexivity.
  assert (Hlast : lastPointerX (state c0) = x0) by reflexivity.
  assert (Hcfg0 : config c0 = config c) by reflexivity.
  split.
  - intros Hnear. unfold handlePointerMove.
    rewrite Hdown, Hlast, Hcfg0. fold a. cbn [negb].
    replace (Layout.checkDrag a (x0 - x1)) with false; [reflexivity|].
    symmetry. now apply JSFacts.gt_false.
  - intros Hfar Hzoom. unfold handlePointerMove.
    rewrite Hdown, Hlast, Hcfg0. fold a. cbn [negb].
    replace (Layout.checkDrag a (x0 - x1)) with true
      by (symmetry; now apply JSFacts.gt_spec).
    cbv zeta.
    destruct (onTitle_frame Title.resetNextTitle c0)
      as (_ & Hst & _ & Hz & Hm & _).
    set (c1 := onTitle Title.resetNextTitle c0) in *.
    cbn [zoomSystem withState]. rewrite Hz.
    change (zoomSystem c0) with (zoomSystem c). rewrite Hzoom. cbn [andb].
    eexists; split; [reflexivity|].
    cbn [state withState zoomSystem miniSliderSystem].
    rewrite Hst, Hz, Hm. simpl. repeat split; reflexivity.
Qed.

End WithEnvironment.

Lemma zoomedOn1_title : titleLinkExists Samples.zoomedOn1.
Proof.
  assert (E : titleAnimation Samples.zoomedOn1
              = Some (Title.showTitle_from Title.params 100 1 None
                        (Title.create
                           [Samples.link; Samples.link; Samples.link])))
    by reflexivity.
  intros t cur Ht Hcur. rewrite E in Ht. injection Ht as Ht. subst t.
  cbn in Hcur. injection Hcur as Hcur. subst cur. cbn. discriminate.
Qed.

Lemma onSlide_receives_the_new_index_twice_witness :
  exists c' : T,
    slideRight Samples.readBack 1728 Samples.listening 2 Samples.zoomedOn1
    = Some (c', [call_onSlide (Some 2%Z) 2%Z]) /\
    forall call : Call,
      In call [call_onSlide (Some 2%Z) 2%Z] ->
      call = call_onSlide (Some 2%Z) 2%Z.
Proof.
  destruct (slide_defined Samples.readBack 1728 Samples.listening 1 2
                          Samples.zoomedOn1 zoomedOn1_title)
    as (c' & calls & E).
  destruct (slide_result _ _ _ _ _ _ _ _ E) as (_ & Hcalls & _).
  cbn in Hcalls. subst calls.
  assert (E' : slideRight Samples.readBack 1728 Samples.listening 2
                          Samples.zoomedOn1
               = Some (c', [call_onSlide (Some 2%Z) 2%Z])) by exact E.
  exists c'. split; [exact E'|].
  exact (onSlide_receives_the_new_index_twice
           Samples.readBack 1728 Samples.listening 2 Samples.zoomedOn1 c'
           _ (or_introl E')).
Defined.

Lemma arrow_keys_keep_focus_in_range_witness :
  (MiniSlider.isInToMiniMode (miniSliderSystem Samples.zoomedOn1) = true /\
   Zoom.imageIndex (Zoom.state (zoomSystem Samples.zoomedOn1)) = Some 1%Z /\
   (0 <= 1 < imagesLength Samples.zoomedOn1)%Z /\
   titleLinkExists Samples.zoomedOn1) /\
  exists (c' : T) (calls : list Call),
    handleKeyDown Samples.readBack 1728 Samples.listening ArrowRight
                  Samples.zoomedOn1 = Some (c', calls) /\
    Zoom.imageIndex (Zoom.state (zoomSystem c')) = Some 2%Z.
Proof.
  assert (Hmode : MiniSlider.isInToMiniMode
                    (miniSliderSystem Samples.zoomedOn1) = true)
    by reflexivity.
  assert (Hi : Zoom.imageIndex (Zoom.state (zoomSystem Samples.zoomedOn1))
               = Some 1%Z) by reflexivity.
  assert (Hrange : (0 <= 1 < imagesLength Samples.zoomedOn1)%Z)
    by (change (imagesLength Samples.zoomedOn1) with 3%Z; lia).
  split; [repeat split; try assumption; try lia; apply zoomedOn1_title|].
  destruct (arrow_keys_keep_focus_in_range
              Samples.readBack 1728 Samples.listening ArrowRight
              Samples.zoomedOn1 1 Hmode Hi Hrange zoomedOn1_title)
    as (c' & calls & E & _ & Hfocus & _).
  exists c', calls. split; [exact E | exact Hfocus].
Defined.

Lemma handleWheel_cancels_target_and_queued_title_witness :
  titleLinkExists Samples.zoomedOn1 /\
  targetPosition (state Samples.zoomedOn1) <> None /\
  exists (c' : T) (calls : list Call),
    handleWheel Samples.readBack Samples.listening 0 120 Samples.zoomedOn1
    = Some (c', calls) /\
    targetPosition (state c') = None.
Proof.
  split; [exact zoomedOn1_title|].
  split; [discriminate|].
  destruct (handleWheel_cancels_target_and_queued_title
              Samples.readBack Samples.listening 0 120
              Samples.zoomedOn1 zoomedOn1_title)
    as (c' & calls & E & Htarget & _).
  exists c', calls. split; [exact E | exact Htarget].
Defined.


End InputFacts.
